(** * Course server: request engine and content pipeline

    A shallow embedding of [HttpServer] (request parsing, routing, response
    framing) and [LessonLoader] (lesson ordering, navigation, markdown
    rendering), with the properties of the specification stated and settled
    against the embedded code. *)

From Stdlib Require Import Ascii DecimalString DecimalNat.
From stdpp Require Import gmap strings list sorting.

(** ** Results of code that can throw or loop

    [std::string] members such as [substr], [replace] and [erase] throw
    [std::out_of_range] when the position is past the end, and a
    [std::filesystem::directory_iterator] throws
    [std::filesystem::filesystem_error] on a path it cannot list.  The
    scanning [while] loops of the renderer are run with a fuel counter;
    running out of it stands for a loop that has not finished yet.  A call
    of [std::regex_replace] that hands back no text, because it throws
    [std::regex_error] or because the matcher of the library has used up
    the stack, is a [regex_failure]. *)

Inductive exn : Set :=
| out_of_range
| filesystem_error
| out_of_fuel
| regex_failure.

Inductive res (A : Type) : Type :=
| Ok (a : A)
| Err (e : exn).
Arguments Ok {A} a.
Arguments Err {A} e.

#[global] Instance res_ret : MRet res := fun A a => Ok a.
#[global] Instance res_bind : MBind res := fun A B f m =>
  match m with
  | Ok a => f a
  | Err e => Err e
  end.

(** A computation run with fuel returns [a]: from some amount of fuel on
    its result is [Ok a]. *)
Definition returns {A : Type} (f : nat → res A) (a : A) : Prop :=
  ∃ N, ∀ k, f (N + k) = Ok a.

(** ** [std::string] *)

Module StdString.

Definition LF : ascii := "010"%char.
Definition CR : ascii := "013"%char.
Definition TAB : ascii := "009"%char.
Definition NUL : ascii := "000"%char.

(** One-character strings and the line ends the code writes as escapes. *)
Definition str (c : ascii) : string := String c "".
Definition crlf : string := String CR (String LF "").

(** The first [n] characters, and what is left after them. *)
Fixpoint take (n : nat) (s : string) : string :=
  match n, s with
  | S n', String c s' => String c (take n' s')
  | _, _ => ""
  end.

Fixpoint drop (n : nat) (s : string) : string :=
  match n, s with
  | S n', String _ s' => drop n' s'
  | _, _ => s
  end.

(** [s.substr(pos, n)]: [n] is clamped to what is there; a position past
    the end throws. *)
Definition substr (s : string) (pos n : nat) : res string :=
  if decide (pos ≤ String.length s) then Ok (take n (drop pos s))
  else Err out_of_range.

(** [s.substr(pos)], the count defaulting to [npos]. *)
Definition substr_from (s : string) (pos : nat) : res string :=
  if decide (pos ≤ String.length s) then Ok (drop pos s)
  else Err out_of_range.

(** [s.replace(pos, n, t)]. *)
Definition replace (s : string) (pos n : nat) (t : string) : res string :=
  if decide (pos ≤ String.length s)
  then Ok (take pos s +:+ t +:+ drop (pos + n) s)
  else Err out_of_range.

(** [s.erase(pos, n)]; [n = None] is the default count [npos]. *)
Definition erase (s : string) (pos : nat) (n : option nat) : res string :=
  if decide (pos ≤ String.length s)
  then Ok (match n with
           | Some k => take pos s +:+ drop (pos + k) s
           | None => take pos s
           end)
  else Err out_of_range.

Fixpoint starts_with (p s : string) : bool :=
  match p, s with
  | "", _ => true
  | String a p', String b s' => Ascii.eqb a b && starts_with p' s'
  | String _ _, "" => false
  end.

(** Offset of the first occurrence of [needle] in [s]. *)
Fixpoint find_first (needle s : string) {struct s} : option nat :=
  if starts_with needle s then Some 0
  else match s with
       | "" => None
       | String _ s' => S <$> find_first needle s'
       end.

(** [s.find(needle, pos)]; [None] is [std::string::npos].  A start
    position past the end finds nothing and does not throw. *)
Definition find (s needle : string) (pos : nat) : option nat :=
  if decide (pos ≤ String.length s)
  then (fun i => pos + i) <$> find_first needle (drop pos s)
  else None.

(** [npos + 1] on [size_t] wraps around to [0]. *)
Definition npos_succ (p : option nat) : nat :=
  match p with
  | Some i => S i
  | None => 0
  end.

Fixpoint mem (c : ascii) (cs : string) : bool :=
  match cs with
  | "" => false
  | String d cs' => Ascii.eqb c d || mem c cs'
  end.

(** [s.find_first_not_of(cs)]. *)
Fixpoint find_first_not_of (s cs : string) : option nat :=
  match s with
  | "" => None
  | String c s' =>
      if mem c cs then S <$> find_first_not_of s' cs else Some 0
  end.

(** [s.find_last_not_of(cs)]. *)
Fixpoint find_last_not_of (s cs : string) : option nat :=
  match s with
  | "" => None
  | String c s' =>
      match find_last_not_of s' cs with
      | Some i => Some (S i)
      | None => if mem c cs then None else Some 0
      end
  end.

(** [s.back()] of a non-empty string. *)
Fixpoint back (s : string) : option ascii :=
  match s with
  | "" => None
  | String c "" => Some c
  | String _ s' => back s'
  end.

(** [s.pop_back()]. *)
Fixpoint pop_back (s : string) : string :=
  match s with
  | "" => ""
  | String _ "" => ""
  | String c s' => String c (pop_back s')
  end.

(** [operator<<] of an [int] and of a [size_t] on an output stream. *)
Definition of_int (z : Z) : string := NilZero.string_of_int (Z.to_int z).
Definition of_size (n : nat) : string := NilZero.string_of_uint (Nat.to_uint n).

(** Reading a decimal number back. *)
Definition to_size (s : string) : option nat :=
  Nat.of_uint <$> NilZero.uint_of_string s.

(** The lines a fresh [std::istringstream] over [s] hands out to
    successive [std::getline(stream, line, delim)] calls: every piece
    closed by the delimiter, and a last unclosed piece when it is not
    empty.  The call after the last of them fails. *)
Fixpoint getlines (delim : ascii) (s : string) : list string :=
  match s with
  | "" => []
  | String c s' =>
      if Ascii.eqb c delim then "" :: getlines delim s'
      else match getlines delim s' with
           | [] => [str c]
           | l :: ls => String c l :: ls
           end
  end.

(** [std::isspace] in the "C" locale. *)
Definition isspace (c : ascii) : bool :=
  mem c (String " "%char (String TAB (String LF
          (String "011"%char (String "012"%char (String CR "")))))).

(** [stream >> word]: skip leading white space, then read up to the next
    white space.  [None] when the stream ends before a character of the
    word is read; the target is left as it was then. *)
Fixpoint skipws (s : string) : string :=
  match s with
  | String c s' => if isspace c then skipws s' else s
  | "" => ""
  end.

Fixpoint read_word (s : string) : string * string :=
  match s with
  | "" => ("", "")
  | String c s' =>
      if isspace c then ("", s)
      else let '(w, r) := read_word s' in (String c w, r)
  end.

Definition extract_word (s : string) : option (string * string) :=
  match skipws s with
  | "" => None
  | t => Some (read_word t)
  end.

(** No character of [s] is white space: [stream >> word] reads [s] as one
    word. *)
Fixpoint is_word (s : string) : bool :=
  match s with
  | "" => true
  | String c s' => negb (isspace c) && is_word s'
  end.

(** The string a [const char*] buffer converts to: up to the first NUL. *)
Fixpoint c_str (s : string) : string :=
  match s with
  | "" => ""
  | String c s' => if Ascii.eqb c NUL then "" else String c (c_str s')
  end.

(** How often the character [c] occurs in [s]. *)
Fixpoint count_char (c : ascii) (s : string) : nat :=
  match s with
  | "" => 0
  | String d s' => (if Ascii.eqb d c then 1 else 0) + count_char c s'
  end.

(** How often [needle] occurs in [s], counting every start position. *)
Fixpoint count_occurrences (needle s : string) : nat :=
  match s with
  | "" => 0
  | String _ s' =>
      (if starts_with needle s then 1 else 0) + count_occurrences needle s'
  end.

(** The literals of the source that contain double quotes are written
    here with single quotes in their place; [dq] puts the double quotes
    back.  None of these literals has a single quote of its own. *)
Fixpoint dq (s : string) : string :=
  match s with
  | "" => ""
  | String c s' =>
      String (if Ascii.eqb c "'"%char then "034"%char else c) (dq s')
  end.

End StdString.


(** ** [LessonLoader]: catalog, ordering, navigation, markdown rendering *)

Module LessonLoader.
Import StdString.

Record Lesson : Type := {
  title : string;
  content : string;
  htmlContent : string;
  tags : list string
}.

(** A value-initialised [Lesson], what [std::map::operator[]] inserts for a
    key that is not there. *)
Definition Lesson_default : Lesson :=
  {| title := ""; content := ""; htmlContent := ""; tags := [] |}.

(** [struct Module]. *)
Record ModuleRec : Type := {
  name : string;
  lessons : list string;
  lessonData : gmap string Lesson
}.

Definition Module_default : ModuleRec :=
  {| name := ""; lessons := []; lessonData := ∅ |}.

(** The members [lessonsDirectory_], [modules_] and [moduleOrder_]. *)
Record State : Type := {
  lessonsDirectory_ : string;
  modules_ : gmap string ModuleRec;
  moduleOrder_ : list string
}.

(** [std::find(v.begin(), v.end(), x)] as the distance from [begin()];
    [None] is [end()]. *)
Fixpoint std_find (v : list string) (x : string) : option nat :=
  match v with
  | [] => None
  | y :: v' => if decide (y = x) then Some 0 else S <$> std_find v' x
  end.

Definition getLessonContent (st : State) (module lessonName : string) : string :=
  match modules_ st !! module with
  | None => "<h2>Module Not Found</h2><p>This module is not available.</p>"
  | Some m =>
      match lessonData m !! lessonName with
      | None => "<h2>Lesson Not Found</h2><p>This lesson is not available.</p>"
      | Some l => htmlContent l
      end
  end.

Definition getModule (st : State) (moduleName : string) : ModuleRec :=
  match modules_ st !! moduleName with
  | Some m => m
  | None => Module_default
  end.

Definition getAllModules (st : State) : gmap string ModuleRec := modules_ st.

Definition getLessonTitle (lessonName : string) : string :=
  let titleMap : gmap string string := list_to_map [
    ("introduction", "Introduction");
    ("sockets", "Socket Programming");
    ("http-basics", "HTTP Protocol Basics");
    ("threading", "Multi-threading & Concurrency");
    ("server-class", "Server Class Architecture");
    ("route-handling", "Route Handling & Middleware");
    ("request-parsing", "Request Parsing & Validation");
    ("response-generation", "Response Generation & Headers");
    ("database-integration", "Database Integration");
    ("authentication", "Authentication & Security");
    ("error-handling", "Error Handling & Logging");
    ("performance", "Performance Optimization");
    ("production-setup", "Production Setup");
    ("monitoring", "Monitoring & Observability");
    ("scaling", "Scaling & Load Balancing");
    ("security", "Security Best Practices")
  ] in
  match titleMap !! lessonName with
  | Some t => t
  | None => lessonName
  end.

Definition getModuleTitle (moduleName : string) : string :=
  let titleMap : gmap string string := list_to_map [
    ("fundamentals", "Fundamentals");
    ("building-blocks", "Building Blocks");
    ("advanced-features", "Advanced Features");
    ("deployment", "Deployment & Production")
  ] in
  match titleMap !! moduleName with
  | Some t => t
  | None => moduleName
  end.

(** *** Previous and next lesson *)

Definition getPreviousNextLesson (st : State) (module currentLesson : string)
  : string * string :=
  match modules_ st !! module with
  | None => ("", "")
  | Some m =>
      match std_find (lessons m) currentLesson with
      | None => ("", "")
      | Some i =>
          let prev :=
            if decide (i ≠ 0) then default "" (lessons m !! (i - 1)) else "" in
          let next :=
            if decide (i + 1 ≠ length (lessons m))
            then default "" (lessons m !! (i + 1)) else "" in
          (prev, next)
      end
  end.

(** *** Navigation *)

Definition generateLessonNavigation (st : State) (module currentLesson : string)
  : string :=
  let nav := "" in
  let nav := nav +:+ dq "<div class='course-navigation'>" in
  let nav := nav +:+ dq "<div class='nav-header'>" in
  let nav := nav +:+ "<h2>🚀 C++ Server Development Course</h2>" in
  let nav := nav +:+ dq "<div class='breadcrumb'>" in
  let nav := nav +:+ dq "<a href='/'>Home</a> → " in
  let nav := nav +:+ dq "<a href='/#course-overview'>Course</a> → " in
  let nav := nav +:+ dq "<span class='current-module'>" +:+ module +:+ "</span>" in
  let nav := nav +:+ "</div>" in
  let nav := nav +:+ "</div>" in
  let nav := nav +:+ dq "<div class='module-tabs'>" in
  let nav := nav +:+ "<ul>" in
  let nav :=
    foldl (fun nav moduleName =>
      match modules_ st !! moduleName with
      | Some m =>
          let activeClass :=
            if decide (moduleName = module) then dq " class='active'" else "" in
          let moduleTitle := getModuleTitle moduleName in
          let firstLesson :=
            match lessons m with
            | [] => "introduction"
            | l :: _ => l
            end in
          nav +:+ "<li" +:+ activeClass +:+ dq "><a href='/course/"
              +:+ moduleName +:+ "/" +:+ firstLesson +:+ dq "'>"
              +:+ moduleTitle +:+ "</a></li>"
      | None => nav
      end) nav (moduleOrder_ st) in
  let nav := nav +:+ "</ul></div>" in
  let nav := nav +:+ dq "<div class='module-navigation'>" in
  let nav := nav +:+ "<h3>Module: " +:+ getModuleTitle module +:+ "</h3>" in
  let nav := nav +:+ dq "<ul class='lesson-list'>" in
  let nav :=
    match modules_ st !! module with
    | Some m =>
        foldl (fun nav lessonName =>
          let activeClass :=
            if decide (lessonName = currentLesson)
            then dq " class='active'" else "" in
          let lessonTitle := getLessonTitle lessonName in
          nav +:+ "<li" +:+ activeClass +:+ dq "><a href='/course/"
              +:+ module +:+ "/" +:+ lessonName +:+ dq "'>"
              +:+ lessonTitle +:+ "</a></li>") nav (lessons m)
    | None => nav
    end in
  let nav := nav +:+ "</ul></div>" in
  let nav := nav +:+ dq "<div class='lesson-navigation'>" in
  let prevNext := getPreviousNextLesson st module currentLesson in
  let nav :=
    if decide (prevNext.1 ≠ "")
    then nav +:+ dq "<a href='/course/" +:+ module +:+ "/" +:+ prevNext.1
             +:+ dq "' class='nav-btn prev-btn'>← Previous</a>"
    else nav in
  let nav :=
    if decide (prevNext.2 ≠ "")
    then nav +:+ dq "<a href='/course/" +:+ module +:+ "/" +:+ prevNext.2
             +:+ dq "' class='nav-btn next-btn'>Next →</a>"
    else nav in
  let nav := nav +:+ "</div>" in
  let nav := nav +:+ "</div>" in
  nav.

(** *** Ordering of lessons and modules *)

(** The table [lessonOrder] of [sortLessonsInModule]. *)
Definition lessonOrder : gmap string (list string) := list_to_map [
  ("fundamentals",
    ["introduction"; "sockets"; "http-basics"; "threading"]);
  ("building-blocks",
    ["server-class"; "route-handling"; "request-parsing"; "response-generation"]);
  ("advanced-features",
    ["database-integration"; "authentication"; "error-handling"; "performance"]);
  ("deployment",
    ["production-setup"; "monitoring"; "scaling"; "security"])
].

(** [m[k]] on a [std::map<std::string, Lesson>]: the value, and the map
    with a default entry added when the key was not there. *)
Definition lessonData_at (m : gmap string Lesson) (k : string)
  : Lesson * gmap string Lesson :=
  match m !! k with
  | Some l => (l, m)
  | None => (Lesson_default, <[k := Lesson_default]> m)
  end.

(** The state of the two loops: [sortedLessons], [sortedLessonData] and
    [module.lessonData]. *)
Definition sort_state : Type :=
  list string * gmap string Lesson * gmap string Lesson.

Definition sort_push (s : sort_state) (lessonName : string) : sort_state :=
  let '(sortedLessons, sortedLessonData, data) := s in
  let '(l, data') := lessonData_at data lessonName in
  (sortedLessons ++ [lessonName], <[lessonName := l]> sortedLessonData, data').

Definition sortLessonsInModule (module : ModuleRec) : ModuleRec :=
  match lessonOrder !! name module with
  | Some desiredOrder =>
      let s : sort_state := ([], ∅, lessonData module) in
      let s :=
        foldl (fun s lessonName =>
          match std_find (lessons module) lessonName with
          | Some _ => sort_push s lessonName
          | None => s
          end) s desiredOrder in
      let s :=
        foldl (fun s lessonName =>
          match std_find s.1.1 lessonName with
          | None => sort_push s lessonName
          | Some _ => s
          end) s (lessons module) in
      {| name := name module; lessons := s.1.1; lessonData := s.1.2 |}
  | None => module
  end.

(** What the two loops of [sortLessonsInModule] maintain, for the lesson
    records [data0] the module had on entry: the new record map holds
    exactly the names placed so far, each with the record [data0] had, or a
    default one; and reading [module.lessonData] with [operator[]] has not
    changed what a later read returns. *)
Definition sort_inv (data0 : gmap string Lesson) (s : sort_state) : Prop :=
  (∀ x, s.1.2 !! x
        = if decide (x ∈ s.1.1)
          then Some (default Lesson_default (data0 !! x)) else None)
  ∧ (∀ x, default Lesson_default (s.2 !! x)
          = default Lesson_default (data0 !! x)).

(** The keys of a [std::map<std::string, T>] in the order a range-for
    visits them: ascending by [std::string::operator<]. *)
Definition std_map_keys {A : Type} (m : gmap string A) : list string :=
  merge_sort String.le (map_to_list m).*1.

Definition sortModulesInOrder (st : State) : State :=
  let desiredOrder :=
    ["fundamentals"; "building-blocks"; "advanced-features"; "deployment"] in
  let moduleOrder : list string := [] in
  let moduleOrder :=
    foldl (fun order moduleName =>
      match modules_ st !! moduleName with
      | Some _ => order ++ [moduleName]
      | None => order
      end) moduleOrder desiredOrder in
  let moduleOrder :=
    foldl (fun order moduleName =>
      match std_find order moduleName with
      | None => order ++ [moduleName]
      | Some _ => order
      end) moduleOrder (std_map_keys (modules_ st)) in
  {| lessonsDirectory_ := lessonsDirectory_ st;
     modules_ := modules_ st;
     moduleOrder_ := moduleOrder |}.

(** *** Markdown rendering *)

(** A [std::regex] as the code constructs it: the pattern and whether
    [std::regex::multiline] is given. *)
Record regex : Type := {
  pattern : string;
  multiline : bool
}.

Section Markdown.

(** [std::regex_replace(text, re, fmt)] of the C++ standard library.  The
    renderer only hands it the text and takes back the text it returns. *)
Variable regex_replace : string → regex → string → string.

Definition processHeaders (markdown : string) : string :=
  let html := markdown in
  let h1Regex := {| pattern := "^#\s+(.+)$"; multiline := true |} in
  let html := regex_replace html h1Regex "<h1>$1</h1>" in
  let h2Regex := {| pattern := "^##\s+(.+)$"; multiline := true |} in
  let html := regex_replace html h2Regex "<h2>$1</h2>" in
  let h3Regex := {| pattern := "^###\s+(.+)$"; multiline := true |} in
  let html := regex_replace html h3Regex "<h3>$1</h3>" in
  let h4Regex := {| pattern := "^####\s+(.+)$"; multiline := true |} in
  let html := regex_replace html h4Regex "<h4>$1</h4>" in
  html.

Definition processLists (markdown : string) : string :=
  let html := markdown in
  let ulRegex := {| pattern := "^-\s+(.+)$"; multiline := true |} in
  let html := regex_replace html ulRegex "<li>$1</li>" in
  let ulWrapRegex := {| pattern := "(<li>.*?</li>\s*)+"; multiline := false |} in
  let html := regex_replace html ulWrapRegex "<ul>$&</ul>" in
  let olRegex := {| pattern := "^\d+\.\s+(.+)$"; multiline := true |} in
  let html := regex_replace html olRegex "<li>$1</li>" in
  html.

Definition processLinks (markdown : string) : string :=
  let html := markdown in
  let linkRegex :=
    {| pattern := "\[([^\]]+)\]\(([^)]+)\)"; multiline := false |} in
  let html := regex_replace html linkRegex (dq "<a href='$2'>$1</a>") in
  html.

(** The pair of calls [s.erase(0, s.find_first_not_of(cs))] and
    [s.erase(s.find_last_not_of(cs) + 1)] the code trims with. *)
Definition trim (s cs : string) : res string :=
  s ← erase s 0 (find_first_not_of s cs);
  erase s (npos_succ (find_last_not_of s cs)) None.

Definition backticks3 : string := "```".
Definition blanks : string := String " " (String TAB "").
Definition whites : string :=
  String " " (String TAB (String CR (String LF ""))).

(** One round of a scanning [while] loop over the text and the cursor:
    the loop is left ([Break], by its condition or by [break]) or goes
    round again ([Continue], also for [continue]). *)
Inductive loop_step : Type :=
| Break (html : string)
| Continue (html : string) (pos : nat).

Fixpoint while_loop (body : string → nat → res loop_step) (fuel : nat)
    (html : string) (pos : nat) : res string :=
  match fuel with
  | 0 => Err out_of_fuel
  | S fuel' =>
      r ← body html pos;
      match r with
      | Break html => Ok html
      | Continue html pos => while_loop body fuel' html pos
      end
  end.

(** A round of a scanning loop that ran on the text after [before], as it
    reads on the whole text: the text and the cursor are both moved right
    by [before]. *)
Definition frame_step (before : string) (r : loop_step) : loop_step :=
  match r with
  | Break html => Break (before +:+ html)
  | Continue html pos => Continue (before +:+ html) (String.length before + pos)
  end.

(** The first [while] loop of [processCodeBlocks]: fenced blocks. *)
Definition codeBlocks_body (html : string) (pos : nat) : res loop_step :=
  match find html backticks3 pos with
  | None => Ok (Break html)
  | Some start =>
      match find html backticks3 (start + 3) with
      | None => Ok (Break html)
      | Some end_ =>
          let langStart := start + 3 in
          let newlinePos := find html (str LF) langStart in
          '(language, codeContent) ←
            match newlinePos with
            | Some nl =>
                if decide (nl < end_) then
                  language ← substr html langStart (nl - langStart);
                  language ← trim language blanks;
                  codeContent ← substr html (nl + 1) (end_ - nl - 1);
                  Ok (language, codeContent)
                else
                  codeContent ← substr html langStart (end_ - langStart);
                  Ok ("", codeContent)
            | None =>
                codeContent ← substr html langStart (end_ - langStart);
                Ok ("", codeContent)
            end;
          codeContent ← trim codeContent whites;
          let codeHtml :=
            if decide (language = "cpp" ∨ language = "c++")
            then dq "<div class='code-example'><pre><code class='language-cpp'>"
                   +:+ codeContent +:+ "</code></pre></div>"
            else dq "<div class='code-example'><pre><code>"
                   +:+ codeContent +:+ "</code></pre></div>" in
          html ← replace html start (end_ - start + 3) codeHtml;
          Ok (Continue html (start + String.length codeHtml))
      end
  end.

(** The test [pos > 0 && html.substr(pos - 1, 6) == "</code>"]. *)
Definition after_code_close (html : string) (pos : nat) : res bool :=
  if decide (0 < pos) then
    t ← substr html (pos - 1) 6;
    Ok (bool_decide (t = "</code>"))
  else Ok false.

(** The second [while] loop of [processCodeBlocks]: inline code. *)
Definition inlineCode_body (html : string) (pos : nat) : res loop_step :=
  match find html "`" pos with
  | None => Ok (Break html)
  | Some pos =>
      skip ← after_code_close html pos;
      if skip : bool then Ok (Continue html (pos + 1))
      else
        match find html "`" (pos + 1) with
        | None => Ok (Break html)
        | Some end_ =>
            code ← substr html (pos + 1) (end_ - pos - 1);
            let codeHtml := "<code>" +:+ code +:+ "</code>" in
            html ← replace html pos (end_ - pos + 1) codeHtml;
            Ok (Continue html (pos + String.length codeHtml))
        end
  end.

Definition processCodeBlocks (fuel : nat) (markdown : string) : res string :=
  let html := markdown in
  html ← while_loop codeBlocks_body fuel html 0;
  while_loop inlineCode_body fuel html 0.

(** The [while] loop of [processBoldText]. *)
Definition boldText_body (html : string) (pos : nat) : res loop_step :=
  match find html "**" pos with
  | None => Ok (Break html)
  | Some start =>
      match find html "**" (start + 2) with
      | None => Ok (Break html)
      | Some end_ =>
          boldText ← substr html (start + 2) (end_ - start - 2);
          html ← replace html start (end_ - start + 2)
                   ("<strong>" +:+ boldText +:+ "</strong>");
          Ok (Continue html (start + 8 + String.length boldText))
      end
  end.

Definition processBoldText (fuel : nat) (markdown : string) : res string :=
  while_loop boldText_body fuel markdown 0.

(** The inner [while] loop of [processTableRow], on one cell. *)
Definition cellBold_body (cell : string) (start : nat) : res loop_step :=
  match find cell "**" start with
  | None => Ok (Break cell)
  | Some start =>
      match find cell "**" (start + 2) with
      | Some end_ =>
          boldText ← substr cell (start + 2) (end_ - start - 2);
          cell ← replace cell start (end_ - start + 2)
                   ("<strong>" +:+ boldText +:+ "</strong>");
          Ok (Continue cell (start + (8 + String.length boldText)))
      | None => Ok (Break cell)
      end
  end.

(** The body of the cell loop of [processTableRow], after the first
    piece is skipped. *)
Definition processCell (fuel : nat) (result cell : string) : res string :=
  cell ← trim cell blanks;
  cell ←
    match find cell "**" 0 with
    | Some _ => while_loop cellBold_body fuel cell 0
    | None => Ok cell
    end;
  Ok (result +:+ "<td>" +:+ cell +:+ "</td>").

Definition processTableRow (fuel : nat) (row : string) : res string :=
  let result := "<tr>" in
  result ←
    match getlines "|" row with
    | [] => Ok result
    | _ :: cells =>
        foldl (fun r cell => result ← r; processCell fuel result cell)
              (Ok result) cells
    end;
  Ok (result +:+ "</tr>").

Definition isTableRow (currentLine : string) : bool :=
  match currentLine with
  | "" => false
  | String front _ =>
      Ascii.eqb front "|" && bool_decide (back currentLine = Some "|"%char)
  end.

(** The [std::all_of] test on the next line. *)
Fixpoint isSeparator (nextLine : string) : bool :=
  match nextLine with
  | "" => true
  | String c s' =>
      (Ascii.eqb c "|" || Ascii.eqb c "-" || Ascii.eqb c " ")
      && isSeparator s'
  end.

(** The [for] loop of [processTables] over the lines from index [i] on,
    with the local [inTable] and the text written to [result] so far.  A
    separator line after a row is stepped over together with the row. *)
Fixpoint tables_loop (fuel : nat) (lines : list string) (inTable : bool)
    (result : string) : res (bool * string) :=
  match lines with
  | [] => Ok (inTable, result)
  | currentLine :: rest =>
      if isTableRow currentLine then
        let result :=
          if inTable then result
          else result +:+ dq "<div class='table-container'><table class='course-table'>" in
        processedRow ← processTableRow fuel currentLine;
        let result := result +:+ processedRow in
        match rest with
        | nextLine :: rest' =>
            if isSeparator nextLine then tables_loop fuel rest' true result
            else tables_loop fuel rest true result
        | [] => tables_loop fuel rest true result
        end
      else
        let result := if inTable then result +:+ "</table></div>" else result in
        tables_loop fuel rest false (result +:+ currentLine +:+ str LF)
  end.

Definition processTables (fuel : nat) (markdown : string) : res string :=
  let lines := getlines LF markdown in
  '(inTable, result) ← tables_loop fuel lines false "";
  Ok (if inTable : bool then result +:+ "</table></div>" else result).

Definition markdownToHtml (fuel : nat) (markdown : string) : res string :=
  let html := markdown in
  let html := processHeaders html in
  html ← processCodeBlocks fuel html;
  html ← processBoldText fuel html;
  let html := processLists html in
  let html := processLinks html in
  processTables fuel html.

End Markdown.

(** *** The renderer when a regex call hands back no text

    The functions of the renderer that call [std::regex_replace], with
    the call as the library has it: it need not hand back a text.  The
    matcher recurses on the text it is given, and a long text can use up
    the stack; the call can also throw [std::regex_error].  [None] stands
    for both, and nothing in the renderer catches it. *)

Module RegexLimits.

Section RegexMarkdown.

Variable regex_replace : string → regex → string → option string.

Definition regex_call (text : string) (re : regex) (fmt : string)
  : res string :=
  match regex_replace text re fmt with
  | Some text => Ok text
  | None => Err regex_failure
  end.

Definition processHeaders (markdown : string) : res string :=
  let html := markdown in
  let h1Regex := {| pattern := "^#\s+(.+)$"; multiline := true |} in
  html ← regex_call html h1Regex "<h1>$1</h1>";
  let h2Regex := {| pattern := "^##\s+(.+)$"; multiline := true |} in
  html ← regex_call html h2Regex "<h2>$1</h2>";
  let h3Regex := {| pattern := "^###\s+(.+)$"; multiline := true |} in
  html ← regex_call html h3Regex "<h3>$1</h3>";
  let h4Regex := {| pattern := "^####\s+(.+)$"; multiline := true |} in
  html ← regex_call html h4Regex "<h4>$1</h4>";
  Ok html.

Definition processLists (markdown : string) : res string :=
  let html := markdown in
  let ulRegex := {| pattern := "^-\s+(.+)$"; multiline := true |} in
  html ← regex_call html ulRegex "<li>$1</li>";
  let ulWrapRegex := {| pattern := "(<li>.*?</li>\s*)+"; multiline := false |} in
  html ← regex_call html ulWrapRegex "<ul>$&</ul>";
  let olRegex := {| pattern := "^\d+\.\s+(.+)$"; multiline := true |} in
  html ← regex_call html olRegex "<li>$1</li>";
  Ok html.

Definition processLinks (markdown : string) : res string :=
  let html := markdown in
  let linkRegex :=
    {| pattern := "\[([^\]]+)\]\(([^)]+)\)"; multiline := false |} in
  html ← regex_call html linkRegex (dq "<a href='$2'>$1</a>");
  Ok html.

Definition markdownToHtml (fuel : nat) (markdown : string) : res string :=
  let html := markdown in
  html ← processHeaders html;
  html ← processCodeBlocks fuel html;
  html ← processBoldText fuel html;
  html ← processLists html;
  html ← processLinks html;
  processTables fuel html.


End RegexMarkdown.

End RegexLimits.

(** *** Escaping *)

(** The entries of a [std::map<std::string, T>] in the order a range-for
    visits them. *)
Definition std_map_items {A : Type} (m : gmap string A) : list (string * A) :=
  omap (fun k => (fun a => (k, a)) <$> m !! k) (std_map_keys m).

(** The table [replacements] of [escapeHtml]. *)
Definition replacements : gmap string string := list_to_map [
  ("&", "&amp;");
  ("<", "&lt;");
  (">", "&gt;");
  (dq "'", "&quot;");
  ("'", "&#39;")
].

(** The [while] loop of [escapeHtml] for one entry of the table. *)
Definition escape_body (from to html : string) (pos : nat) : res loop_step :=
  match find html from pos with
  | None => Ok (Break html)
  | Some pos =>
      html ← replace html pos (String.length from) to;
      Ok (Continue html (pos + String.length to))
  end.

Definition escapeHtml (fuel : nat) (text : string) : res string :=
  let html := text in
  foldl (fun html '(from, to) =>
           html ← html; while_loop (escape_body from to) fuel html 0)
        (Ok html) (std_map_items replacements).

(** A text rewritten character by character. *)
Fixpoint map_chars (f : ascii → string) (s : string) : string :=
  match s with
  | "" => ""
  | String c s' => f c +:+ map_chars f s'
  end.

(** What [escapeHtml] makes of one character. *)
Definition escaped (c : ascii) : string :=
  if Ascii.eqb c "034" then "&amp;quot;"
  else if Ascii.eqb c "&" then "&amp;"
  else if Ascii.eqb c "'" then "&#39;"
  else if Ascii.eqb c "<" then "&lt;"
  else if Ascii.eqb c ">" then "&gt;"
  else str c.

(** The cells of a rendered row, each in its [<td>] element. *)
Fixpoint tds (cells : list string) : string :=
  match cells with
  | [] => ""
  | cell :: cells' => "<td>" +:+ cell +:+ "</td>" +:+ tds cells'
  end.

(** *** Loading the lessons *)

(** What the code reads from a [std::filesystem::directory_entry]. *)
Record dir_entry : Type := {
  entry_is_directory : bool;
  entry_path : string;
  entry_filename : string;
  entry_extension : string;
  entry_stem : string
}.

(** The lesson names a module directory gives: the stems of its entries
    with the extension [".md"], in the order the directory is iterated. *)
Definition discovered (lessonEntries : list dir_entry) : list string :=
  entry_stem <$> filter (fun e => entry_extension e = ".md") lessonEntries.



Section Loading.

Variable regex_replace : string → regex → string → string.

(** [std::regex_search(text, match, re)]: the sub-matches of the first
    match, number 0 being the whole match; [None] when there is none. *)
Variable regex_search : string → regex → option (list string).

(** The matches a [std::sregex_iterator] over the text runs through, each
    with its sub-matches. *)
Variable regex_matches : string → regex → list (list string).

(** The files the process can open, by path, with their content, and the
    directories it can list, by path, with their entries in the order a
    [directory_iterator] gives them. *)
Variable files : gmap string string.
Variable directories : gmap string (list dir_entry).

Definition extractTitle (markdown : string) : string :=
  let titleRegex := {| pattern := "^#\s+(.+)$"; multiline := true |} in
  match regex_search markdown titleRegex with
  | Some match_ => default "" (match_ !! 1)
  | None => "Untitled Lesson"
  end.

Definition extractTags (markdown : string) : list string :=
  let tagRegex := {| pattern := "#(\w+)"; multiline := false |} in
  foldl (fun tags match_ => tags ++ [default "" (match_ !! 1)])
        [] (regex_matches markdown tagRegex).

(** [parseMarkdownFile]: the returned flag and the [lesson] parameter as
    it is left. *)
Definition parseMarkdownFile (filePath : string) (lesson : Lesson)
  : bool * Lesson :=
  match files !! filePath with
  | None => (false, lesson)
  | Some text =>
      (true, {| title := extractTitle text;
                content := text;
                htmlContent := htmlContent lesson;
                tags := extractTags text |})
  end.

(** The body of the inner loop of [loadAllLessons], on the local
    [module]. *)
Definition loadLessonEntry (fuel : nat) (module : ModuleRec)
    (lessonEntry : dir_entry) : res ModuleRec :=
  if decide (entry_extension lessonEntry = ".md") then
    let lessonName := entry_stem lessonEntry in
    let module :=
      {| name := name module;
         lessons := lessons module ++ [lessonName];
         lessonData := lessonData module |} in
    let '(parsed, lesson) :=
      parseMarkdownFile (entry_path lessonEntry) Lesson_default in
    if parsed : bool then
      html ← markdownToHtml regex_replace fuel (content lesson);
      let lesson :=
        {| title := title lesson; content := content lesson;
           htmlContent := html; tags := tags lesson |} in
      Ok {| name := name module;
            lessons := lessons module;
            lessonData := <[lessonName := lesson]> (lessonData module) |}
    else Ok module
  else Ok module.

(** The body of the outer loop for an entry that is a directory. *)
Definition loadModuleEntry (fuel : nat) (moduleEntry : dir_entry)
  : res ModuleRec :=
  let moduleName := entry_filename moduleEntry in
  let module := {| name := moduleName; lessons := []; lessonData := ∅ |} in
  match directories !! entry_path moduleEntry with
  | None => Err filesystem_error
  | Some lessonEntries =>
      module ←
        foldl (fun module lessonEntry =>
                 module ← module; loadLessonEntry fuel module lessonEntry)
              (Ok module) lessonEntries;
      Ok (sortLessonsInModule module)
  end.

(** The outer loop of [loadAllLessons].  The flag tells whether the loop
    came to its end; it is [false] when an exception left it, and the
    state is then the one reached before. *)
Fixpoint loadModules (fuel : nat) (moduleEntries : list dir_entry)
    (st : State) : res (State * bool) :=
  match moduleEntries with
  | [] => Ok (st, true)
  | moduleEntry :: rest =>
      if entry_is_directory moduleEntry then
        match loadModuleEntry fuel moduleEntry with
        | Ok module =>
            loadModules fuel rest
              {| lessonsDirectory_ := lessonsDirectory_ st;
                 modules_ :=
                   <[entry_filename moduleEntry := module]> (modules_ st);
                 moduleOrder_ := moduleOrder_ st |}
        | Err out_of_fuel => Err out_of_fuel
        | Err _ => Ok (st, false)
        end
      else loadModules fuel rest st
  end.

(** [loadAllLessons]: the returned flag and the loader as it is left.  An
    exception inside the [try] block is caught and gives [false]. *)
Definition loadAllLessons (fuel : nat) (st : State) : res (bool * State) :=
  let lessonsPath := lessonsDirectory_ st in
  if decide (directories !! lessonsPath = None ∧ files !! lessonsPath = None)
  then Ok (false, st)
  else
    match directories !! lessonsPath with
    | None => Ok (false, st)
    | Some moduleEntries =>
        '(st, finished) ← loadModules fuel moduleEntries st;
        if finished : bool then Ok (true, sortModulesInOrder st)
        else Ok (false, st)
    end.


End Loading.

End LessonLoader.

(** ** [HttpServer]: request parsing, routing, response framing *)

Module HttpServer.
Import StdString.

(** [RouteHandler]: from the body and the headers to the response body. *)
Definition RouteHandler : Type := string → gmap string string → string.

(** The members the request path reads. *)
Record Server : Type := {
  routes_ : gmap string (gmap string RouteHandler);
  courseModules_ : gmap string (list string);
  lessonLoader_ : LessonLoader.State
}.

Definition addRoute (srv : Server) (method path : string)
    (handler : RouteHandler) : Server :=
  {| routes_ :=
       <[method := <[path := handler]> (default ∅ (routes_ srv !! method))]>
         (routes_ srv);
     courseModules_ := courseModules_ srv;
     lessonLoader_ := lessonLoader_ srv |}.

(** *** Request parsing *)

(** [lineStream >> method >> path] on the first line.  A target keeps its
    old value when its extraction fails. *)
Definition parse_request_line (line method path : string) : string * string :=
  match extract_word line with
  | None => (method, path)
  | Some (m, rest) =>
      match extract_word rest with
      | None => (m, path)
      | Some (p, _) => (m, p)
      end
  end.

(** The header loop, on the lines the stream still holds.  It returns the
    headers and the lines left for the body loop. *)
Fixpoint parse_headers (lines : list string) (headers : gmap string string)
  : res (gmap string string * list string) :=
  match lines with
  | [] => Ok (headers, [])
  | line :: rest =>
      if decide (line = str CR) then Ok (headers, rest)
      else if decide (line = "" ∨ line = str CR) then Ok (headers, rest)
      else
        match find line ":" 0 with
        | Some colonPos =>
            key ← substr line 0 colonPos;
            value ← substr_from line (colonPos + 1);
            let value :=
              if decide (value ≠ "" ∧ back value = Some CR)
              then pop_back value else value in
            parse_headers rest (<[key := value]> headers)
        | None => parse_headers rest headers
        end
  end.

(** [parseHttpRequest]: the returned body together with the three
    reference parameters [method], [path] and [headers] as they are left. *)
Definition parseHttpRequest (request method path : string)
    (headers : gmap string string)
  : res (string * string * string * gmap string string) :=
  let stream := getlines LF request in
  let '(method, path, stream) :=
    match stream with
    | line :: stream' =>
        let '(m, p) := parse_request_line line method path in (m, p, stream')
    | [] => (method, path, [])
    end in
  '(headers, stream) ← parse_headers stream headers;
  let body := foldl (fun body line => body +:+ (line +:+ str LF)) "" stream in
  Ok (body, method, path, headers).

(** The header mapping in the words of the specification, with the value
    taken as the code takes it (the text after the first colon, less one
    trailing carriage return): the lines after the request line up to the
    first blank line, each split on its first colon, stored in order so
    that a later line overwrites an earlier one of the same name. *)
Fixpoint split_first_colon (line : string) : option (string * string) :=
  match line with
  | "" => None
  | String c rest =>
      if Ascii.eqb c ":" then Some ("", rest)
      else '(key, value) ← split_first_colon rest; Some (String c key, value)
  end.

Fixpoint strip_one_cr (value : string) : string :=
  match value with
  | "" => ""
  | String c "" => if Ascii.eqb c CR then "" else value
  | String c rest => String c (strip_one_cr rest)
  end.

Fixpoint until_blank (lines : list string) : list string :=
  match lines with
  | [] => []
  | line :: rest =>
      if decide (line = "" ∨ line = str CR) then []
      else line :: until_blank rest
  end.

Definition spec_header_lines (request : string) : list string :=
  until_blank (tail (getlines LF request)).

Definition spec_store (headers : gmap string string) (line : string)
  : gmap string string :=
  match split_first_colon line with
  | Some (key, value) => <[key := strip_one_cr value]> headers
  | None => headers
  end.

Definition spec_headers (request : string) (headers : gmap string string)
  : gmap string string :=
  foldl spec_store headers (spec_header_lines request).

(** *** Response framing *)

Definition createHttpResponse (statusCode : Z) (contentType body : string)
  : string :=
  let statusText :=
    if decide (statusCode = 200%Z) then "OK"
    else if decide (statusCode = 404%Z) then "Not Found"
    else if decide (statusCode = 405%Z) then "Method Not Allowed"
    else "Internal Server Error" in
  let response := "" in
  let response :=
    response +:+ "HTTP/1.1 " +:+ of_int statusCode +:+ " " +:+ statusText +:+ crlf in
  let response := response +:+ "Content-Type: " +:+ contentType +:+ crlf in
  let response :=
    response +:+ "Content-Length: " +:+ of_size (String.length body) +:+ crlf in
  let response := response +:+ "Access-Control-Allow-Origin: *" +:+ crlf in
  let response := response +:+ "Connection: close" +:+ crlf in
  let response := response +:+ crlf in
  let response := response +:+ body in
  response.

(** *** URL decoding *)

Section UrlDecoding.

(** The [int] that [iss >> std::hex >> value] leaves in [value] for a
    stream over the given characters; it is [0] when nothing can be read. *)
Variable read_hex : string → Z.

(** [static_cast<char>(value)]. *)
Definition char_of_int (value : Z) : ascii :=
  ascii_of_N (Z.to_N (value mod 256)).

(** One round of the [for] loop of [urlDecode], at index [i]. *)
Definition urlDecode_step (s result : string) (i : nat) : res string :=
  match String.get i s with
  | None => Err out_of_range
  | Some c =>
      if decide (c = "%"%char ∧ i + 2 < String.length s) then
        hex ← substr s (i + 1) 2;
        Ok (result +:+ str (char_of_int (read_hex hex)))
      else if decide (c = "+"%char) then Ok (result +:+ " ")
      else Ok (result +:+ str c)
  end.

Definition urlDecode (s : string) : res string :=
  foldl (fun result i => result ← result; urlDecode_step s result i)
        (Ok "") (seq 0 (String.length s)).

End UrlDecoding.

Definition getMimeType (path : string) : string :=
  if decide (find path ".html" 0 ≠ None) then "text/html"
  else if decide (find path ".css" 0 ≠ None) then "text/css"
  else if decide (find path ".js" 0 ≠ None) then "application/javascript"
  else if decide (find path ".json" 0 ≠ None) then "application/json"
  else "text/plain".

(** *** Pages *)

Definition generateHTML (title content : string) : string :=
  "<!DOCTYPE html>"
  +:+ dq "<html lang='en'>"
  +:+ "<head>"
  +:+ dq "<meta charset='UTF-8'>"
  +:+ dq "<meta name='viewport' content='width=device-width, initial-scale=1.0'>"
  +:+ "<title>" +:+ title +:+ "</title>"
  +:+ dq "<link rel='stylesheet' href='/css/style.css'>"
  +:+ dq "<link rel='stylesheet' href='https://cdnjs.cloudflare.com/ajax/libs/prism/1.29.0/themes/prism.min.css'>"
  +:+ "</head>"
  +:+ "<body>"
  +:+ dq "<nav class='navbar'>"
  +:+ dq "<div class='nav-container'>"
  +:+ dq "<h1 class='nav-title'>ðŸš€ C++ Server Development</h1>"
  +:+ dq "<ul class='nav-menu'>"
  +:+ dq "<li><a href='/'>Home</a></li>"
  +:+ dq "<li><a href='/course/fundamentals/introduction'>Course</a></li>"
  +:+ dq "<li><a href='/api/users'>API</a></li>"
  +:+ dq "<li><a href='/health'>Health</a></li>"
  +:+ "</ul>"
  +:+ "</div>"
  +:+ "</nav>"
  +:+ dq "<main class='main-content'>"
  +:+ content
  +:+ "</main>"
  +:+ dq "<footer class='footer'>"
  +:+ "<p>&copy; 2024 C++ Server Development Course. Built with C++!</p>"
  +:+ "</footer>"
  +:+ dq "<script src='https://cdnjs.cloudflare.com/ajax/libs/prism/1.29.0/components/prism-core.min.js'></script>"
  +:+ dq "<script src='https://cdnjs.cloudflare.com/ajax/libs/prism/1.29.0/plugins/autoloader/prism-autoloader.min.js'></script>"
  +:+ dq "<script src='/js/app.js'></script>"
  +:+ "</body>"
  +:+ "</html>".

Definition generateCoursePage (srv : Server) (module lesson : string) : string :=
  let content := LessonLoader.getLessonContent (lessonLoader_ srv) module lesson in
  (* [inl] is an early [return], [inr] the content to go on with *)
  let content : string + string :=
    if decide (find content "Lesson Not Found" 0 ≠ None
               ∨ find content "Module Not Found" 0 ≠ None) then
      match courseModules_ srv !! module with
      | None =>
          inl (generateHTML "Module Not Found"
                 "<h2>Module Not Found</h2><p>The requested module does not exist.</p>")
      | Some moduleLessons =>
          match LessonLoader.std_find moduleLessons lesson with
          | None =>
              inl (generateHTML "Lesson Not Found"
                     "<h2>Lesson Not Found</h2><p>The requested lesson does not exist.</p>")
          | Some _ =>
              inr ("<h2>" +:+ lesson +:+ "</h2><p>Lesson content is not available.</p>")
          end
      end
    else inr content in
  match content with
  | inl page => page
  | inr content =>
      let navigation :=
        LessonLoader.generateLessonNavigation (lessonLoader_ srv) module lesson in
      let navigation :=
        if decide (navigation = "") then
          match courseModules_ srv !! module with
          | Some moduleLessons =>
              let nav := dq "<div class='course-navigation'>" in
              let nav := nav +:+ "<h2>Module: " +:+ module +:+ "</h2>" in
              let nav := nav +:+ dq "<ul class='lesson-list'>" in
              let nav :=
                foldl (fun nav lessonName =>
                  let activeClass :=
                    if decide (lessonName = lesson)
                    then dq " class='active'" else "" in
                  nav +:+ "<li" +:+ activeClass +:+ dq "><a href='/course/"
                      +:+ module +:+ "/" +:+ lessonName +:+ dq "'>"
                      +:+ lessonName +:+ "</a></li>") nav moduleLessons in
              nav +:+ "</ul></div>"
          | None => navigation
          end
        else navigation in
      let fullContent :=
        navigation +:+ dq "<div class='lesson-content'>" +:+ content +:+ "</div>" in
      generateHTML ("C++ Server Development - " +:+ module +:+ " - " +:+ lesson)
                   fullContent
  end.

Section Serving.

(** The files the process can open, by path, with their content. *)
Variable files : gmap string string.

Definition fileExists (filePath : string) : bool :=
  bool_decide (is_Some (files !! filePath)).

Definition readFileContent (filePath : string) : string :=
  match files !! filePath with
  | Some text => text
  | None => "File not found"
  end.

Definition serveStaticFile (path : string) : string :=
  let filePath := "../static" +:+ path in
  if fileExists filePath then readFileContent filePath
  else "File not found".

(** *** Dispatch *)

(** The three locals [statusCode], [contentType] and [responseBody] of
    [handleClient] when the response is created. *)
Record Reply : Type := {
  statusCode : Z;
  contentType : string;
  responseBody : string
}.

(** The routing block of [handleClient], from the parsed request to the
    arguments of [createHttpResponse]. *)
Definition dispatch (srv : Server) (method path body : string)
    (headers : gmap string string) : res Reply :=
  let responseBody := "" in
  let contentType := "text/plain" in
  let statusCode : Z := 200%Z in
  if decide (find path "/course/" 0 = Some 0) then
    coursePath ← substr_from path 8;
    match find coursePath "/" 0 with
    | Some slashPos =>
        module ← substr coursePath 0 slashPos;
        lesson ← substr_from coursePath (slashPos + 1);
        Ok {| statusCode := statusCode;
              contentType := "text/html";
              responseBody := generateCoursePage srv module lesson |}
    | None =>
        Ok {| statusCode := 400%Z;
              contentType := contentType;
              responseBody := "Invalid course path" |}
    end
  else if decide (find path "/css/" 0 = Some 0 ∨ find path "/js/" 0 = Some 0) then
    let responseBody := serveStaticFile path in
    let contentType := getMimeType path in
    Ok {| statusCode :=
            if decide (responseBody = "File not found") then 404%Z else statusCode;
          contentType := contentType;
          responseBody := responseBody |}
  else
    match routes_ srv !! method with
    | Some methodRoutes =>
        match methodRoutes !! path with
        | Some handler =>
            let responseBody := handler body headers in
            if decide (path = "/") then
              Ok {| statusCode := statusCode;
                    contentType := "text/html";
                    responseBody :=
                      generateHTML "C++ Server Development Course" responseBody |}
            else if decide (path = "/health" ∨ find path "/api/" 0 = Some 0) then
              Ok {| statusCode := statusCode;
                    contentType := "application/json";
                    responseBody := responseBody |}
            else
              Ok {| statusCode := statusCode;
                    contentType := contentType;
                    responseBody := responseBody |}
        | None =>
            Ok {| statusCode := 404%Z;
                  contentType := contentType;
                  responseBody := "Not Found" |}
        end
    | None =>
        Ok {| statusCode := 405%Z;
              contentType := contentType;
              responseBody := "Method Not Allowed" |}
    end.

(** The request path is one of the two kinds the route table is not asked
    for: [path.find(...) == 0] holds for one of the three prefixes. *)
Definition bypasses_table (path : string) : Prop :=
  find path "/course/" 0 = Some 0
  ∨ find path "/css/" 0 = Some 0
  ∨ find path "/js/" 0 = Some 0.

(** [handleClient] on the bytes one [recv] into the 4096-byte buffer
    delivers: the bytes sent back, or nothing when none were read. *)
Definition handleClient (srv : Server) (received : string)
  : res (option string) :=
  let buffer := take 4095 received in
  if decide (0 < String.length buffer) then
    '(body, method, path, headers) ← parseHttpRequest (c_str buffer) "" "" ∅;
    reply ← dispatch srv method path body headers;
    Ok (Some (createHttpResponse (statusCode reply) (contentType reply)
                                 (responseBody reply)))
  else Ok None.

End Serving.

(** *** Start-up *)

Section Startup.

Variable regex_replace : string → LessonLoader.regex → string → string.
Variable regex_search : string → LessonLoader.regex → option (list string).
Variable regex_matches : string → LessonLoader.regex → list (list string).
Variable files : gmap string string.
Variable directories : gmap string (list LessonLoader.dir_entry).

(** The fallback table of [initializeCourseContent]. *)
Definition fallbackCourseModules : gmap string (list string) := list_to_map [
  ("fundamentals",
    ["introduction"; "sockets"; "http-basics"; "threading"]);
  ("building-blocks",
    ["server-class"; "route-handling"; "request-parsing"; "response-generation"]);
  ("advanced-features",
    ["database-integration"; "authentication"; "error-handling"; "performance"]);
  ("deployment",
    ["production-setup"; "monitoring"; "scaling"; "security"])
].

Definition initializeCourseContent (fuel : nat) (srv : Server) : res Server :=
  '(loaded, loader) ←
    LessonLoader.loadAllLessons regex_replace regex_search regex_matches
      files directories fuel (lessonLoader_ srv);
  if loaded : bool then
    let modules := LessonLoader.getAllModules loader in
    Ok {| routes_ := routes_ srv;
          courseModules_ :=
            foldl (fun courseModules '(moduleName, module) =>
                     <[moduleName := LessonLoader.lessons module]> courseModules)
                  (courseModules_ srv) (LessonLoader.std_map_items modules);
          lessonLoader_ := loader |}
  else
    Ok {| routes_ := routes_ srv;
          courseModules_ := fallbackCourseModules;
          lessonLoader_ := loader |}.

End Startup.

(** *** [main]: the handlers and the routes *)

Section Main.

(** The seconds since the epoch the system clock shows when the health
    handler runs. *)
Variable seconds_since_epoch : Z.

Definition handleRoot : RouteHandler := fun body headers =>
  dq "<div class='hero-section'>"
  +:+ "<h1>🚀 Learn C++ Server Development</h1>"
  +:+ dq "<p class='hero-subtitle'>Build production-ready HTTP servers from scratch using only C++ and system libraries</p>"
  +:+ dq "<div class='hero-buttons'>"
  +:+ dq "<a href='/course/fundamentals/introduction' class='btn btn-primary'>Start Learning</a>"
  +:+ dq "<a href='/api/users' class='btn btn-secondary'>View API</a>"
  +:+ "</div>"
  +:+ "</div>"
  +:+ dq "<div class='features-grid'>"
  +:+ dq "<div class='feature-card'>"
  +:+ "<h3>🎯 Hands-On Learning</h3>"
  +:+ "<p>Build a real HTTP server step by step with interactive examples</p>"
  +:+ "</div>"
  +:+ dq "<div class='feature-card'>"
  +:+ "<h3>⚡ Modern C++</h3>"
  +:+ "<p>Learn C++17/20 features like smart pointers, std::function, and threading</p>"
  +:+ "</div>"
  +:+ dq "<div class='feature-card'>"
  +:+ "<h3>🌐 Network Programming</h3>"
  +:+ "<p>Master socket programming, HTTP protocol, and server architecture</p>"
  +:+ "</div>"
  +:+ dq "<div class='feature-card'>"
  +:+ "<h3>🚀 Production Ready</h3>"
  +:+ "<p>Build scalable, maintainable servers suitable for real-world use</p>"
  +:+ "</div>"
  +:+ "</div>"
  +:+ dq "<div class='course-overview'>"
  +:+ "<h2>Course Modules</h2>"
  +:+ dq "<div class='module-list'>"
  +:+ dq "<div class='module-item'>"
  +:+ "<h3>1. Fundamentals</h3>"
  +:+ "<p>Socket programming, HTTP basics, threading concepts</p>"
  +:+ dq "<a href='/course/fundamentals/introduction' class='module-link'>Start Module →</a>"
  +:+ "</div>"
  +:+ dq "<div class='module-item'>"
  +:+ "<h3>2. Building Blocks</h3>"
  +:+ "<p>Server class design, route handling, request parsing</p>"
  +:+ dq "<a href='/course/building-blocks/server-class' class='module-link'>Start Module →</a>"
  +:+ "</div>"
  +:+ dq "<div class='module-item'>"
  +:+ "<h3>3. Advanced Features</h3>"
  +:+ "<p>Database integration, authentication, error handling</p>"
  +:+ dq "<a href='/course/advanced-features/database-integration' class='module-link'>Start Module →</a>"
  +:+ "</div>"
  +:+ dq "<div class='module-item'>"
  +:+ "<h3>4. Deployment</h3>"
  +:+ "<p>Production setup, monitoring, scaling, security</p>"
  +:+ dq "<a href='/course/deployment/production-setup' class='module-link'>Start Module →</a>"
  +:+ "</div>"
  +:+ "</div>"
  +:+ "</div>".

Definition handleHealth : RouteHandler := fun body headers =>
  "{"
  +:+ dq "'status': 'healthy',"
  +:+ dq "'timestamp': "
  +:+ of_int seconds_since_epoch
  +:+ ","
  +:+ dq "'uptime': 'running',"
  +:+ dq "'version': '1.0.0',"
  +:+ dq "'course': 'C++ Server Development',"
  +:+ dq "'modules': 4,"
  +:+ dq "'lessons': 16"
  +:+ "}".

Definition handleUsers : RouteHandler := fun body headers =>
  "{"
  +:+ dq "'success': true,"
  +:+ dq "'count': 3,"
  +:+ dq "'users': ["
  +:+ dq "{'id': '1', 'name': 'John Doe', 'email': 'john@example.com', 'age': 30},"
  +:+ dq "{'id': '2', 'name': 'Jane Smith', 'email': 'jane@example.com', 'age': 25},"
  +:+ dq "{'id': '3', 'name': 'Bob Johnson', 'email': 'bob@example.com', 'age': 35}"
  +:+ "]"
  +:+ "}".

Definition handleUserById : RouteHandler := fun body headers =>
  "{"
  +:+ dq "'success': true,"
  +:+ dq "'user': {'id': '1', 'name': 'John Doe', 'email': 'john@example.com', 'age': 30}"
  +:+ "}".

(** The [addRoute] calls of [main]. *)
Definition main_routes (server : Server) : Server :=
  let server := addRoute server "GET" "/" handleRoot in
  let server := addRoute server "GET" "/health" handleHealth in
  let server := addRoute server "GET" "/api/users" handleUsers in
  let server := addRoute server "GET" "/api/users/1" handleUserById in
  let server := addRoute server "GET" "/api/users/2" handleUserById in
  let server := addRoute server "GET" "/api/users/3" handleUserById in
  server.

End Main.

End HttpServer.

(** * Facts about the string primitives *)

Section StdStringFacts.
Import StdString.

(** ** Lengths and concatenation *)

Lemma str_app_nil_l (s : string) : "" +:+ s = s.
Proof. reflexivity. Qed.

Lemma str_app_cons (c : ascii) (s t : string) :
  String c s +:+ t = String c (s +:+ t).
Proof. reflexivity. Qed.

Lemma str_app_str (c : ascii) (s : string) : str c +:+ s = String c s.
Proof. reflexivity. Qed.

Lemma str_app_nil_r (s : string) : s +:+ "" = s.
Proof. induction s as [|c s IH]; [done|]. by rewrite str_app_cons, IH. Qed.

Lemma str_app_assoc (s t u : string) : (s +:+ t) +:+ u = s +:+ t +:+ u.
Proof.
  induction s as [|c s IH]; [done|]. by rewrite !str_app_cons, IH.
Qed.

Lemma str_length_app (s t : string) :
  String.length (s +:+ t) = String.length s + String.length t.
Proof.
  induction s as [|c s IH]; [done|]. rewrite str_app_cons. simpl. by rewrite IH.
Qed.

Lemma str_length_take (n : nat) (s : string) :
  String.length (take n s) = n `min` String.length s.
Proof.
  revert s; induction n as [|n IH]; intros [|c s]; simpl; try done.
  by rewrite IH.
Qed.

Lemma str_length_drop (n : nat) (s : string) :
  String.length (drop n s) = String.length s - n.
Proof.
  revert s; induction n as [|n IH]; intros [|c s]; simpl; try done.
Qed.

Lemma str_take_drop (n : nat) (s : string) : take n s +:+ drop n s = s.
Proof.
  revert s; induction n as [|n IH]; intros [|c s]; simpl; try done.
  by rewrite str_app_cons, IH.
Qed.

Lemma str_drop_drop (n m : nat) (s : string) : drop n (drop m s) = drop (m + n) s.
Proof.
  revert s; induction m as [|m IH]; intros s; simpl; [done|].
  destruct s as [|c s]; [by destruct n|]. apply IH.
Qed.

Lemma str_drop_app_length (s t : string) : drop (String.length s) (s +:+ t) = t.
Proof. induction s as [|c s IH]; [done|]. by rewrite str_app_cons. Qed.

Lemma str_take_app_length (s t : string) : take (String.length s) (s +:+ t) = s.
Proof.
  induction s as [|c s IH]; [by destruct t|]. rewrite str_app_cons. simpl.
  by rewrite IH.
Qed.

Lemma str_drop_all (n : nat) (s : string) :
  String.length s ≤ n → drop n s = "".
Proof.
  revert s; induction n as [|n IH]; intros [|c s]; simpl; try done; [lia|].
  intros ?. apply IH. lia.
Qed.

(** ** Searching *)

Lemma starts_with_app (p s : string) : starts_with p (p +:+ s) = true.
Proof.
  induction p as [|c p IH]; [done|]. rewrite str_app_cons. simpl.
  by rewrite Ascii.eqb_refl.
Qed.

Lemma starts_with_spec (p s : string) :
  starts_with p s = true ↔ ∃ t, s = p +:+ t.
Proof.
  split.
  - revert s; induction p as [|a p IH]; intros s H; [by exists s|].
    destruct s as [|b s]; [done|]. simpl in H.
    apply andb_true_iff in H as [Hab Hp]. apply Ascii.eqb_eq in Hab as ->.
    destruct (IH _ Hp) as [t ->]. by exists t.
  - intros [t ->]. apply starts_with_app.
Qed.

Lemma starts_with_length (p s : string) :
  starts_with p s = true → String.length p ≤ String.length s.
Proof.
  intros [t ->]%starts_with_spec. rewrite str_length_app. lia.
Qed.

(** A hit of [find_first] is an occurrence, it lies inside the string, and
    nothing before it is one. *)
Lemma find_first_Some (needle s : string) (i : nat) :
  find_first needle s = Some i →
  starts_with needle (drop i s) = true
  ∧ i + String.length needle ≤ String.length s
  ∧ ∀ j, j < i → starts_with needle (drop j s) = false.
Proof.
  revert i; induction s as [|c s IH]; intros i; simpl.
  - destruct (starts_with needle "") eqn:E; [|done].
    intros [= <-]. split; [done|]. split; [|lia].
    apply starts_with_length in E. simpl in *. lia.
  - destruct (starts_with needle (String c s)) eqn:E.
    + intros [= <-]. split; [done|]. split; [|lia].
      apply starts_with_length in E. simpl in *. lia.
    + destruct (find_first needle s) as [k|] eqn:Ek; [|done].
      intros [= <-]. destruct (IH k eq_refl) as (H1 & H2 & H3).
      split; [done|]. split; [simpl; lia|].
      intros [|j] Hj; [done|]. apply H3. lia.
Qed.

Lemma find_first_None (needle s : string) (j : nat) :
  find_first needle s = None → starts_with needle (drop j s) = false.
Proof.
  revert j; induction s as [|c s IH]; intros j; simpl.
  - destruct (starts_with needle "") eqn:E; [done|]. by destruct j.
  - destruct (starts_with needle (String c s)) eqn:E; [done|].
    destruct (find_first needle s) eqn:Ek; [done|].
    intros _. destruct j as [|j]; [done|]. by apply IH.
Qed.

Lemma find_Some (s needle : string) (pos i : nat) :
  find s needle pos = Some i →
  pos ≤ i ∧ i + String.length needle ≤ String.length s
  ∧ starts_with needle (drop i s) = true.
Proof.
  unfold find. case_decide as Hp; [|done].
  destruct (find_first needle (drop pos s)) as [k|] eqn:E; [|done].
  intros [= <-]. apply find_first_Some in E as (H1 & H2 & _).
  rewrite str_length_drop in H2. rewrite str_drop_drop in H1. repeat split; [lia..|done].
Qed.

Lemma find_None (s needle : string) (j : nat) :
  find s needle 0 = None → starts_with needle (drop j s) = false.
Proof.
  unfold find. case_decide as Hp; [|lia]. simpl.
  destruct (find_first needle s) eqn:E; [done|].
  intros _. by apply find_first_None.
Qed.

(** [s.find(p) == 0] says that [s] begins with [p]. *)
Lemma find_0_starts_with (s p : string) :
  find s p 0 = Some 0 ↔ starts_with p s = true.
Proof.
  unfold find. case_decide as Hp; [|lia]. simpl. split.
  - destruct (find_first p s) as [i|] eqn:E; [|done].
    intros [= Hi]. assert (i = 0) as -> by lia.
    by apply find_first_Some in E as (H & _).
  - intros H. destruct s; simpl; by rewrite H.
Qed.

(** ** The string members do not throw inside the text *)

Lemma replace_Ok (s : string) (pos n : nat) (t : string) :
  pos ≤ String.length s →
  replace s pos n t = Ok (take pos s +:+ t +:+ drop (pos + n) s).
Proof. intros H. unfold replace. by rewrite decide_True. Qed.

Lemma find_last_not_of_lt (s cs : string) (i : nat) :
  find_last_not_of s cs = Some i → i < String.length s.
Proof.
  revert i; induction s as [|c s IH]; intros i; [done|]. simpl.
  destruct (find_last_not_of s cs) as [j|].
  - intros [= <-]. specialize (IH j eq_refl). lia.
  - destruct (mem c cs); [done|]. intros [= <-]. lia.
Qed.

Lemma substr_from_Ok (s : string) (pos : nat) :
  pos ≤ String.length s → substr_from s pos = Ok (drop pos s).
Proof. intros H. unfold substr_from. by rewrite decide_True. Qed.

Lemma substr_Ok (s : string) (pos n : nat) :
  pos ≤ String.length s → substr s pos n = Ok (take n (drop pos s)).
Proof. intros H. unfold substr. by rewrite decide_True. Qed.

(** A hit of [find] splits the string around the needle. *)
Lemma find_split (s needle : string) (pos i : nat) :
  find s needle pos = Some i →
  s = take i s +:+ needle +:+ drop (i + String.length needle) s.
Proof.
  intros (_ & _ & [u Hu]%starts_with_spec)%find_Some.
  transitivity (take i s +:+ drop i s); [by rewrite str_take_drop|].
  f_equal. rewrite <- str_drop_drop, Hu. by rewrite str_drop_app_length.
Qed.

(** ** Counting a character *)

Lemma count_char_app (c : ascii) (s t : string) :
  count_char c (s +:+ t) = count_char c s + count_char c t.
Proof.
  induction s as [|d s IH]; [done|]. rewrite str_app_cons. simpl.
  rewrite IH. lia.
Qed.

Lemma count_char_drop (c : ascii) (n : nat) (s : string) :
  count_char c (drop n s) ≤ count_char c s.
Proof.
  revert s; induction n as [|n IH]; intros [|d s]; simpl; try lia.
  specialize (IH s). lia.
Qed.

Lemma count_char_drop_le (c : ascii) (n m : nat) (s : string) :
  n ≤ m → count_char c (drop m s) ≤ count_char c (drop n s).
Proof.
  intros H. replace m with (n + (m - n)) by lia.
  rewrite <- str_drop_drop. apply count_char_drop.
Qed.

(** ** Lines of a stream *)

Lemma getlines_line (delim : ascii) (line rest : string) :
  mem delim line = false →
  getlines delim (line +:+ String delim rest) = line :: getlines delim rest.
Proof.
  induction line as [|c line IH]; intros Hmem.
  - rewrite str_app_nil_l. simpl. by rewrite Ascii.eqb_refl.
  - simpl in Hmem. apply orb_false_iff in Hmem as [Hc Hmem].
    rewrite str_app_cons. simpl. rewrite Ascii.eqb_sym, Hc.
    by rewrite IH.
Qed.

Lemma getlines_last (delim : ascii) (line : string) :
  mem delim line = false → line ≠ "" → getlines delim line = [line].
Proof.
  induction line as [|c line IH]; intros Hmem Hne; [done|].
  simpl in Hmem. apply orb_false_iff in Hmem as [Hc Hmem].
  simpl. rewrite Ascii.eqb_sym, Hc.
  destruct line as [|d line]; [done|]. by rewrite IH.
Qed.

(** ** Decimal output *)

Lemma to_size_of_size (n : nat) : to_size (of_size n) = Some n.
Proof.
  unfold to_size, of_size. rewrite NilZero.usu.
  - simpl. by rewrite Unsigned.of_to.
  - intros H. pose proof (Unsigned.of_to n) as Hn. rewrite H in Hn.
    simpl in Hn. subst n. discriminate H.
Qed.

End StdStringFacts.

(** * [HttpServer]: content types and response framing *)

Section HttpServerFraming.
Import StdString HttpServer.

Lemma starts_with_json_js (t : string) :
  starts_with ".json" t = true → starts_with ".js" t = true.
Proof.
  intros [u ->]%starts_with_spec. apply starts_with_spec.
  by exists ("on" +:+ u).
Qed.

Lemma find_json_js (path : string) :
  find path ".json" 0 ≠ None → find path ".js" 0 ≠ None.
Proof.
  intros Hjson Hjs. destruct (find path ".json" 0) as [i|] eqn:E; [|done].
  apply find_Some in E as (_ & _ & E). apply starts_with_json_js in E.
  by rewrite (find_None _ _ i Hjs) in E.
Qed.

(** C6.  [getMimeType] tests [".js"] before [".json"], and every path that
    contains [".json"] contains [".js"]: a [.json] asset is served as
    [application/javascript], and whatever the path, the result is one of
    the four other content types, never [application/json]. *)
Theorem getMimeType_json_is_javascript :
  getMimeType "/js/data.json" = "application/javascript"
  ∧ ∀ path,
      getMimeType path
      ∈ ["text/html"; "text/css"; "application/javascript"; "text/plain"].
Proof.
  split; [by vm_compute|].
  intros path. unfold getMimeType.
  repeat case_decide; try (by repeat constructor).
  by destruct (find_json_js path).
Qed.

(** C2.  For every status code, content type and body, the response is
    the status line, the [Content-Type] line, a [Content-Length] line, the
    two fixed header lines, the blank line and then the body as it was
    given, and the number on the [Content-Length] line reads back as the
    length of that body. *)
Theorem createHttpResponse_content_length
    (statusCode : Z) (contentType body : string) :
  ∃ statusLine value,
    createHttpResponse statusCode contentType body
    = statusLine +:+ crlf
      +:+ "Content-Type: " +:+ contentType +:+ crlf
      +:+ "Content-Length: " +:+ value +:+ crlf
      +:+ "Access-Control-Allow-Origin: *" +:+ crlf
      +:+ "Connection: close" +:+ crlf
      +:+ crlf +:+ body
    ∧ to_size value = Some (String.length body).
Proof.
  exists ("HTTP/1.1 " +:+ of_int statusCode +:+ " "
          +:+ (if decide (statusCode = 200%Z) then "OK"
               else if decide (statusCode = 404%Z) then "Not Found"
               else if decide (statusCode = 405%Z) then "Method Not Allowed"
               else "Internal Server Error")),
         (of_size (String.length body)).
  split; [|apply to_size_of_size].
  unfold createHttpResponse. rewrite str_app_nil_l.
  by rewrite !str_app_assoc.
Qed.

End HttpServerFraming.

(** * [HttpServer]: routing *)

Section HttpServerRouting.
Import StdString HttpServer.

Variable files : gmap string string.
Variable srv : Server.

(** C1, as the code has it.  Off the two prefixes the method is looked up
    first: a method with no route at all gives 405 whatever the path, and a
    method that has routes gives 404 for a path that is not among them,
    whether or not another method has that path.  A route that is found
    gives 200. *)
Theorem dispatch_table_lookup (method path body : string)
    (headers : gmap string string) :
  ¬ bypasses_table path →
  (routes_ srv !! method = None →
   dispatch files srv method path body headers
   = Ok {| statusCode := 405; contentType := "text/plain";
           responseBody := "Method Not Allowed" |})
  ∧ (∀ methodRoutes,
        routes_ srv !! method = Some methodRoutes →
        methodRoutes !! path = None →
        dispatch files srv method path body headers
        = Ok {| statusCode := 404; contentType := "text/plain";
                responseBody := "Not Found" |})
  ∧ (∀ methodRoutes handler,
        routes_ srv !! method = Some methodRoutes →
        methodRoutes !! path = Some handler →
        ∃ reply, dispatch files srv method path body headers = Ok reply
                 ∧ statusCode reply = 200%Z).
Proof.
  intros Hno. unfold bypasses_table in Hno. unfold dispatch.
  rewrite decide_False by tauto.
  destruct (decide (find path "/css/" 0 = Some 0 ∨ find path "/js/" 0 = Some 0))
    as [Hs|Hs]; [tauto|].
  split; [by intros ->|]. split.
  - intros methodRoutes H1 H2. rewrite H1. simpl.
    unfold RouteHandler in *. by rewrite H2.
  - intros methodRoutes handler H1 H2. rewrite H1. simpl.
    unfold RouteHandler in *. rewrite H2. repeat case_decide; eauto.
Qed.

(** C10, as the code has it.  On a path with the content prefix or a
    static prefix the method is never read: the reply is the same whatever
    the method is, and it is never 405.  A course path is cut at the first
    slash after the prefix: the text before it is the module, the text
    after it the lesson, and the reply is the page the course page
    generator makes for them; a course path with no such slash is answered
    400 and the generator is not asked.  A static path gets the reply of
    the static file server. *)
Theorem dispatch_prefix_ignores_method (path body : string)
    (headers : gmap string string) :
  bypasses_table path →
  ∃ reply,
    (∀ method, dispatch files srv method path body headers = Ok reply)
    ∧ statusCode reply ≠ 405%Z
    ∧ reply
      = if decide (find path "/course/" 0 = Some 0) then
          let coursePath := drop 8 path in
          match find coursePath "/" 0 with
          | Some slashPos =>
              {| statusCode := 200; contentType := "text/html";
                 responseBody :=
                   generateCoursePage srv (take slashPos coursePath)
                     (drop (slashPos + 1) coursePath) |}
          | None =>
              {| statusCode := 400; contentType := "text/plain";
                 responseBody := "Invalid course path" |}
          end
        else
          {| statusCode :=
               if decide (serveStaticFile files path = "File not found")
               then 404 else 200;
             contentType := getMimeType path;
             responseBody := serveStaticFile files path |}.
Proof.
  intros Hpre. unfold dispatch.
  destruct (decide (find path "/course/" 0 = Some 0)) as [Hc|Hc].
  - pose proof Hc as [t ->]%find_0_starts_with%starts_with_spec.
    rewrite substr_from_Ok by (rewrite str_length_app; simpl; lia).
    change 8 with (String.length "/course/"). rewrite str_drop_app_length.
    cbn [mbind res_bind]. cbv zeta.
    destruct (find t "/" 0) as [i|] eqn:Ei.
    + pose proof Ei as (_ & Hlen & _)%find_Some. simpl in Hlen.
      rewrite substr_Ok, substr_from_Ok by lia. cbn [mbind res_bind drop].
      eexists. split; [done|]. split; [done|]. done.
    + eexists. split; [done|]. split; [done|]. done.
  - destruct (decide (find path "/css/" 0 = Some 0 ∨ find path "/js/" 0 = Some 0))
      as [Hs|Hs]; [|exfalso; unfold bypasses_table in Hpre; tauto].
    eexists. split; [done|]. split; [|done]. simpl. by case_decide.
Qed.

(** Every course page is the site frame around some content. *)
Lemma generateCoursePage_framed (module lesson : string) :
  ∃ title content,
    generateCoursePage srv module lesson = generateHTML title content.
Proof.
  unfold generateCoursePage. cbv zeta.
  destruct (decide _) as [?|?];
    [destruct (courseModules_ srv !! module) as [moduleLessons|];
       [destruct (LessonLoader.std_find moduleLessons lesson)|]|];
    eauto.
Qed.

End HttpServerRouting.

(** The table lookup at a request for a path that is not registered, with
    a method that has routes. *)
Lemma dispatch_table_lookup_witness :
  HttpServer.dispatch ∅
    (HttpServer.addRoute
       {| HttpServer.routes_ := ∅; HttpServer.courseModules_ := ∅;
          HttpServer.lessonLoader_ :=
            {| LessonLoader.lessonsDirectory_ := "lessons";
                 LessonLoader.modules_ := ∅;
                 LessonLoader.moduleOrder_ := [] |} |}
       "GET" "/health" (fun _ _ => "ok"))
    "GET" "/Health" "" ∅
  = Ok {| HttpServer.statusCode := 404; HttpServer.contentType := "text/plain";
          HttpServer.responseBody := "Not Found" |}.
Proof.
  refine (proj1 (proj2 (dispatch_table_lookup ∅ _ "GET" "/Health" "" ∅ _))
            {["/health" := fun _ _ => "ok"]} _ _).
  - unfold HttpServer.bypasses_table. vm_compute.
    intros [H|[H|H]]; discriminate H.
  - vm_compute. reflexivity.
  - vm_compute. reflexivity.
Defined.

(** A request with an unusual method for a lesson. *)
Lemma dispatch_prefix_ignores_method_witness :
  let srv :=
    {| HttpServer.routes_ := ∅; HttpServer.courseModules_ := ∅;
       HttpServer.lessonLoader_ :=
         {| LessonLoader.lessonsDirectory_ := "lessons";
            LessonLoader.modules_ := ∅;
            LessonLoader.moduleOrder_ := [] |} |} in
  ∃ reply,
    (∀ method,
        HttpServer.dispatch ∅ srv method "/course/fundamentals/sockets" "" ∅
        = Ok reply)
    ∧ reply
      = {| HttpServer.statusCode := 200;
           HttpServer.contentType := "text/html";
           HttpServer.responseBody :=
             HttpServer.generateCoursePage srv "fundamentals" "sockets" |}.
Proof.
  intros srv.
  destruct (dispatch_prefix_ignores_method ∅ srv
              "/course/fundamentals/sockets" "" ∅) as (reply & H1 & _ & H3).
  - left. vm_compute. reflexivity.
  - exists reply. split; [exact H1|]. rewrite H3. reflexivity.
Defined.

(** C10, as stated, fails on a course path that names no lesson: a DELETE
    for ["/course/fundamentals"] is answered 400 with a fixed text.  That
    reply is not a page of the course page generator, whatever module and
    lesson it is asked for, and not the reply of the static file server. *)
Lemma course_path_without_lesson_is_400 :
  let srv :=
    {| HttpServer.routes_ := ∅; HttpServer.courseModules_ := ∅;
       HttpServer.lessonLoader_ :=
         {| LessonLoader.lessonsDirectory_ := "lessons";
            LessonLoader.modules_ := ∅;
            LessonLoader.moduleOrder_ := [] |} |} in
  let reply :=
    {| HttpServer.statusCode := 400; HttpServer.contentType := "text/plain";
       HttpServer.responseBody := "Invalid course path" |} in
  HttpServer.bypasses_table "/course/fundamentals"
  ∧ HttpServer.dispatch ∅ srv "DELETE" "/course/fundamentals" "" ∅ = Ok reply
  ∧ (∀ module lesson,
       HttpServer.responseBody reply
       ≠ HttpServer.generateCoursePage srv module lesson)
  ∧ HttpServer.responseBody reply
    ≠ HttpServer.serveStaticFile ∅ "/course/fundamentals".
Proof.
  intros srv reply. split; [left; vm_compute; reflexivity|].
  split; [vm_compute; reflexivity|]. split.
  - intros module lesson H.
    assert (∀ title content,
      HttpServer.generateHTML title content ≠ "Invalid course path") as Hpage.
    { intros title content. unfold HttpServer.generateHTML.
      rewrite str_app_cons. discriminate. }
    destruct (generateCoursePage_framed srv module lesson)
      as (title & content & Hframe).
    rewrite Hframe in H. by apply (Hpage title content).
  - vm_compute. discriminate.
Qed.

(** C1, as stated, fails on a table with two methods.  ["/health"] is
    registered under GET only and POST has a route of its own: a POST for
    ["/health"] is answered 404, not 405.  No method has ["/nowhere"], and
    DELETE has no route: a DELETE for ["/nowhere"] is answered 405, not
    404. *)
Lemma dispatch_404_405_counterexample :
  let srv :=
    HttpServer.addRoute
      (HttpServer.addRoute
         {| HttpServer.routes_ := ∅; HttpServer.courseModules_ := ∅;
            HttpServer.lessonLoader_ :=
              {| LessonLoader.lessonsDirectory_ := "lessons";
                 LessonLoader.modules_ := ∅;
                 LessonLoader.moduleOrder_ := [] |} |}
         "GET" "/health" (fun _ _ => "ok"))
      "POST" "/api/users" (fun _ _ => "ok") in
  (¬ HttpServer.bypasses_table "/health"
   ∧ (∃ rs, HttpServer.routes_ srv !! "GET" = Some rs ∧ is_Some (rs !! "/health"))
   ∧ (∃ rs, HttpServer.routes_ srv !! "POST" = Some rs ∧ rs !! "/health" = None)
   ∧ ∃ reply, HttpServer.dispatch ∅ srv "POST" "/health" "" ∅ = Ok reply
              ∧ HttpServer.statusCode reply = 404%Z
              ∧ HttpServer.statusCode reply ≠ 405%Z)
  ∧ (¬ HttpServer.bypasses_table "/nowhere"
     ∧ (∀ m rs, HttpServer.routes_ srv !! m = Some rs → rs !! "/nowhere" = None)
     ∧ ∃ reply, HttpServer.dispatch ∅ srv "DELETE" "/nowhere" "" ∅ = Ok reply
                ∧ HttpServer.statusCode reply = 405%Z
                ∧ HttpServer.statusCode reply ≠ 404%Z).
Proof.
  intros srv. split.
  - split; [vm_compute; intros [H|[H|H]]; discriminate H|].
    split.
    { exists {["/health" := fun _ _ => "ok"]}.
      split; [vm_compute; reflexivity|]. eexists. vm_compute. reflexivity. }
    split.
    { exists {["/api/users" := fun _ _ => "ok"]}.
      split; vm_compute; reflexivity. }
    eexists. split; [by vm_compute|]. by split.
  - split; [vm_compute; intros [H|[H|H]]; discriminate H|].
    split.
    + intros m rs. unfold srv, HttpServer.addRoute. simpl.
      rewrite lookup_insert. case_decide as E1.
      * intros [= <-]. by vm_compute.
      * rewrite lookup_insert. case_decide as E2; [|by rewrite lookup_empty].
        intros [= <-]. by vm_compute.
    + eexists. split; [by vm_compute|]. by split.
Qed.

(** * [LessonLoader]: lesson order and previous/next links *)

Section LessonOrdering.
Import StdString LessonLoader.

(** ** [std::find] on a vector of names *)

Lemma std_find_None (v : list string) (x : string) :
  std_find v x = None ↔ x ∉ v.
Proof.
  induction v as [|y v IH]; simpl.
  - split; [intros _; apply not_elem_of_nil|done].
  - case_decide as E.
    + subst y. split; [done|]. intros H. destruct H. apply list_elem_of_here.
    + destruct (std_find v x) eqn:Ev; simpl.
      * split; [done|]. intros H. exfalso. apply not_elem_of_cons in H as [_ H].
        by apply IH in H.
      * split; [|done]. intros _. apply not_elem_of_cons. split; [done|].
        by apply IH.
Qed.

Lemma std_find_Some_elem (v : list string) (x : string) (i : nat) :
  std_find v x = Some i → x ∈ v.
Proof.
  intros H. destruct (decide (x ∈ v)) as [|Hn]; [done|].
  apply std_find_None in Hn. congruence.
Qed.

(** The position found is that of the first occurrence. *)
Lemma std_find_first (before after : list string) (x : string) :
  x ∉ before → std_find (before ++ x :: after) x = Some (length before).
Proof.
  induction before as [|y before IH]; simpl; intros Hx.
  - by rewrite decide_True.
  - apply not_elem_of_cons in Hx as [Hxy Hx].
    rewrite decide_False by done. by rewrite IH.
Qed.

(** ** Previous and next *)

Lemma lookup_before_last (before after : list string) (x : string) :
  before ≠ [] →
  default "" ((before ++ x :: after) !! (length before - 1))
  = default "" (last before).
Proof.
  intros Hne. rewrite lookup_app_l.
  - by rewrite last_lookup, Nat.sub_1_r.
  - destruct before; [done|]. simpl. lia.
Qed.

Lemma lookup_after_head (before after : list string) (x : string) :
  default "" ((before ++ x :: after) !! (length before + 1))
  = default "" (head after).
Proof.
  rewrite lookup_app_r by lia.
  replace (length before + 1 - length before) with 1 by lia.
  simpl. by rewrite head_lookup.
Qed.

(** C8.  The pair is read off the first position of the current lesson in
    the module's list: the name just before it and the name just after it,
    each empty when there is none.  So the first lesson has no previous
    link and the last lesson no next link, and an unknown module or an
    unknown lesson gives two empty links. *)
Theorem getPreviousNextLesson_position (st : State)
    (module currentLesson : string) :
  (modules_ st !! module = None →
   getPreviousNextLesson st module currentLesson = ("", ""))
  ∧ ∀ m, modules_ st !! module = Some m →
      (currentLesson ∉ lessons m →
       getPreviousNextLesson st module currentLesson = ("", ""))
      ∧ (∀ before after,
            lessons m = before ++ currentLesson :: after →
            currentLesson ∉ before →
            getPreviousNextLesson st module currentLesson
            = (default "" (last before), default "" (head after)))
      ∧ (∀ after,
            lessons m = currentLesson :: after →
            (getPreviousNextLesson st module currentLesson).1 = "")
      ∧ (∀ before,
            lessons m = before ++ [currentLesson] →
            currentLesson ∉ before →
            (getPreviousNextLesson st module currentLesson).2 = "").
Proof.
  unfold getPreviousNextLesson. split; [by intros ->|].
  intros m ->.
  assert (∀ before after,
    lessons m = before ++ currentLesson :: after → currentLesson ∉ before →
    match std_find (lessons m) currentLesson with
    | Some i =>
        (if decide (i ≠ 0) then default "" (lessons m !! (i - 1)) else "",
         if decide (i + 1 ≠ length (lessons m))
         then default "" (lessons m !! (i + 1)) else "")
    | None => ("", "")
    end = (default "" (last before), default "" (head after))) as Hpos.
  { intros before after Hl Hx. rewrite Hl, std_find_first by done. f_equal.
    - case_decide as E.
      + apply lookup_before_last. by destruct before.
      + by destruct before.
    - case_decide as E; [apply lookup_after_head|].
      rewrite length_app in E. simpl in E. destruct after; [done|simpl in E; lia]. }
  split; [|split; [|split]].
  - intros Hx%std_find_None. by rewrite Hx.
  - exact Hpos.
  - intros after Hl. rewrite (Hpos [] after Hl); [done|apply not_elem_of_nil].
  - intros before Hl Hx. by rewrite (Hpos before [] Hl Hx).
Qed.

(** ** Ordering the lessons of a module *)

Lemma sort_push_names (s : sort_state) (x : string) :
  (sort_push s x).1.1 = s.1.1 ++ [x].
Proof.
  destruct s as [[sortedLessons sortedLessonData] data]. unfold sort_push.
  by destruct (lessonData_at data x).
Qed.

(** The first loop: the catalog names that were discovered, in catalog
    order. *)
Lemma sort_loop_catalog (discovered desiredOrder : list string) (s : sort_state) :
  (foldl (fun s lessonName =>
            match std_find discovered lessonName with
            | Some _ => sort_push s lessonName
            | None => s
            end) s desiredOrder).1.1
  = s.1.1 ++ filter (fun x => x ∈ discovered) desiredOrder.
Proof.
  revert s; induction desiredOrder as [|x order IH]; intros s; simpl.
  - by rewrite app_nil_r.
  - rewrite IH. destruct (std_find discovered x) as [i|] eqn:E.
    + rewrite sort_push_names, filter_cons_True by eauto using std_find_Some_elem.
      by rewrite <- app_assoc.
    + by rewrite filter_cons_False by by apply std_find_None.
Qed.

Lemma filter_not_elem_of_snoc (sorted rest : list string) (x : string) :
  x ∉ rest →
  filter (fun y => y ∉ sorted ++ [x]) rest = filter (fun y => y ∉ sorted) rest.
Proof.
  induction rest as [|y rest IH]; [done|]. intros Hx.
  apply not_elem_of_cons in Hx as [Hxy Hx].
  destruct (decide (y ∈ sorted)) as [Hy|Hy].
  - rewrite !filter_cons_False; [by apply IH| |]; intros H; apply H.
    + done.
    + apply elem_of_app. by left.
  - rewrite !filter_cons_True; [by rewrite IH|done|].
    intros [H|H%list_elem_of_singleton]%elem_of_app; [done|]. by subst.
Qed.





End LessonOrdering.

(** The middle lesson of a three-lesson module. *)
Lemma getPreviousNextLesson_position_witness :
  LessonLoader.getPreviousNextLesson
    {| LessonLoader.lessonsDirectory_ := "lessons";
       LessonLoader.modules_ :=
         {["fundamentals" :=
             {| LessonLoader.name := "fundamentals";
                LessonLoader.lessons := ["introduction"; "sockets"; "threading"];
                LessonLoader.lessonData := ∅ |}]};
       LessonLoader.moduleOrder_ := ["fundamentals"] |}
    "fundamentals" "sockets"
  = ("introduction", "threading").
Proof.
  refine (proj1 (proj2 (proj2 (getPreviousNextLesson_position _
            "fundamentals" "sockets")
            {| LessonLoader.name := "fundamentals";
               LessonLoader.lessons := ["introduction"; "sockets"; "threading"];
               LessonLoader.lessonData := ∅ |} _))
            ["introduction"] ["threading"] _ _).
  - vm_compute. reflexivity.
  - reflexivity.
  - apply (bool_decide_unpack _). vm_compute. exact I.
Defined.


(** * [HttpServer]: the header mapping *)

Section HttpServerParsing.
Import StdString HttpServer.

(** [line.find(':')] and the two [substr] calls split the line on its
    first colon. *)
Lemma find_first_colon (line : string) :
  match find_first ":" line with
  | Some i => split_first_colon line = Some (take i line, drop (S i) line)
  | None => split_first_colon line = None
  end.
Proof.
  induction line as [|c line IH]; [done|].
  cbn [find_first split_first_colon starts_with].
  rewrite (Ascii.eqb_sym ":" c). destruct (Ascii.eqb c ":"); [by destruct line|].
  simpl. destruct (find_first ":" line) as [i|]; simpl.
  - by rewrite IH.
  - by rewrite IH.
Qed.

Lemma find_colon (line : string) :
  find line ":" 0 = find_first ":" line.
Proof.
  unfold find. rewrite decide_True by lia. simpl.
  by destruct (find_first ":" line).
Qed.

(** The [back]/[pop_back] pair removes one trailing carriage return. *)
Lemma pop_back_cr (value : string) :
  (if decide (value ≠ "" ∧ back value = Some CR) then pop_back value else value)
  = strip_one_cr value.
Proof.
  induction value as [|c value IH]; [by case_decide|].
  destruct value as [|d value].
  - simpl. destruct (Ascii.eqb c CR) eqn:E.
    + apply Ascii.eqb_eq in E as ->. by rewrite decide_True.
    + apply Ascii.eqb_neq in E. rewrite decide_False; [done|].
      intros [_ [= ?]]. done.
  - change (strip_one_cr (String c (String d value)))
      with (String c (strip_one_cr (String d value))).
    rewrite <- IH.
    change (back (String c (String d value))) with (back (String d value)).
    change (pop_back (String c (String d value)))
      with (String c (pop_back (String d value))).
    destruct (decide (String d value ≠ "" ∧ back (String d value) = Some CR))
      as [[_ Hb]|Hb].
    + by rewrite decide_True.
    + rewrite decide_False; [done|]. intros [_ H]. by apply Hb.
Qed.

(** The header loop stores what the specification's reading stores. *)
Lemma parse_headers_spec (lines : list string) (headers : gmap string string) :
  ∃ rest,
    parse_headers lines headers
    = Ok (foldl spec_store headers (until_blank lines), rest).
Proof.
  revert headers; induction lines as [|line lines IH]; intros headers.
  - by exists [].
  - cbn [parse_headers until_blank].
    destruct (decide (line = str CR)) as [->|Hcr].
    { exists lines. by rewrite decide_True by by right. }
    destruct (decide (line = "" ∨ line = str CR)) as [|Hblank]; [by exists lines|].
    cbn [foldl]. unfold spec_store at 2.
    rewrite find_colon. pose proof (find_first_colon line) as Hsplit.
    destruct (find_first ":" line) as [i|] eqn:Ei.
    + rewrite Hsplit. apply find_first_Some in Ei as (_ & Hlen & _).
      simpl in Hlen. unfold substr, substr_from.
      rewrite !decide_True by lia. cbn [mbind res_bind drop].
      rewrite pop_back_cr, Nat.add_1_r. apply IH.
    + rewrite Hsplit. apply IH.
Qed.

(** A stored header stays as it is while no later line has its name. *)
Lemma spec_store_later (after : list string) (headers : gmap string string)
    (key stored : string) :
  headers !! key = Some stored →
  (∀ later, later ∈ after → ∀ value', split_first_colon later ≠ Some (key, value')) →
  foldl spec_store headers after !! key = Some stored.
Proof.
  revert headers; induction after as [|line after IH]; intros headers Hk Hafter.
  - done.
  - cbn [foldl]. apply IH.
    + unfold spec_store.
      destruct (split_first_colon line) as [[k v]|] eqn:E; [|done].
      rewrite lookup_insert_ne; [done|]. intros ->.
      by apply (Hafter line (list_elem_of_here _ _) v).
    + intros later Hl. apply Hafter. by right.
Qed.

(** C3, as the code has it.  The header mapping [parseHttpRequest] leaves
    is the one the specification describes, with the value being the text
    after the first colon less one trailing carriage return, its leading
    spaces kept: the lines after the request line up to the first blank
    line are split on the first colon and stored in order, so the last line
    with a given name decides its value. *)
Theorem parseHttpRequest_headers (request method path : string)
    (headers : gmap string string) :
  (∃ body method' path',
      parseHttpRequest request method path headers
      = Ok (body, method', path', spec_headers request headers))
  ∧ ∀ before line after key value,
      spec_header_lines request = before ++ line :: after →
      split_first_colon line = Some (key, value) →
      (∀ later, later ∈ after →
         ∀ value', split_first_colon later ≠ Some (key, value')) →
      spec_headers request headers !! key = Some (strip_one_cr value).
Proof.
  split.
  - unfold parseHttpRequest, spec_headers, spec_header_lines.
    destruct (getlines LF request) as [|line stream]; [by eexists _, _, _|].
    destruct (parse_request_line line method path) as [m p].
    destruct (parse_headers_spec stream headers) as [rest ->].
    by eexists _, _, _.
  - intros before line after key value Hlines Hsplit Hafter.
    unfold spec_headers. rewrite Hlines, foldl_app. cbn [foldl].
    apply spec_store_later; [|done].
    unfold spec_store at 1. rewrite Hsplit. apply lookup_insert_eq.
Qed.

End HttpServerParsing.

(** A request that gives [Host] twice: the second value is the one kept,
    with the space after the colon. *)
Lemma parseHttpRequest_headers_witness :
  HttpServer.spec_headers
    ("GET / HTTP/1.1" +:+ StdString.crlf +:+ "Host: a" +:+ StdString.crlf
     +:+ "Host: b" +:+ StdString.crlf +:+ StdString.crlf) ∅ !! "Host"
  = Some " b".
Proof.
  refine (proj2 (parseHttpRequest_headers _ "" "" ∅)
            ["Host: a" +:+ StdString.str StdString.CR]
            ("Host: b" +:+ StdString.str StdString.CR) [] "Host"
            (" b" +:+ StdString.str StdString.CR) _ _ _).
  - vm_compute. reflexivity.
  - vm_compute. reflexivity.
  - intros later Hlater. exfalso. revert Hlater. apply not_elem_of_nil.
Defined.

(** C3, as stated, fails: the value of [Host: example.org] is stored with
    its leading space. *)
Lemma parseHttpRequest_keeps_leading_space :
  ∃ body method path headers,
    HttpServer.parseHttpRequest
      ("GET / HTTP/1.1" +:+ StdString.crlf +:+ "Host: example.org"
       +:+ StdString.crlf +:+ StdString.crlf) "" "" ∅
    = Ok (body, method, path, headers)
    ∧ headers !! "Host" = Some " example.org"
    ∧ headers !! "Host" ≠ Some "example.org".
Proof.
  eexists _, _, _, _. split; [vm_compute; reflexivity|].
  split; [vm_compute; reflexivity|]. vm_compute. discriminate.
Qed.

(** * [LessonLoader]: the scanning loops of the renderer return *)

Section Returning.
Import StdString LessonLoader.

(** ** Computations with fuel *)

Lemma returns_ret {A : Type} (a : A) : returns (fun _ => Ok a) a.
Proof. by exists 0. Qed.

Lemma returns_bind {A B : Type} (f : nat → res A) (g : A → nat → res B)
    (a : A) (b : B) :
  returns f a → returns (g a) b →
  returns (fun fuel => x ← f fuel; g x fuel) b.
Proof.
  intros [N1 H1] [N2 H2]. exists (N1 + N2). intros k.
  rewrite <- Nat.add_assoc, H1. cbn [mbind res_bind].
  replace (N1 + (N2 + k)) with (N2 + (N1 + k)) by lia. apply H2.
Qed.

Lemma returns_ext {A : Type} (f g : nat → res A) (a : A) :
  (∀ fuel, f fuel = g fuel) → returns f a → returns g a.
Proof. intros Hfg [N H]. exists N. intros k. by rewrite <- Hfg. Qed.

(** A [while] loop whose body never throws and lowers a measure each time
    it goes round returns. *)
Lemma while_loop_returns (body : string → nat → res loop_step)
    (measure : string → nat → nat) :
  (∀ html pos, ∃ r, body html pos = Ok r
     ∧ ∀ html' pos', r = Continue html' pos' →
         measure html' pos' < measure html pos) →
  ∀ html pos, ∃ out, returns (fun fuel => while_loop body fuel html pos) out.
Proof.
  intros Hbody html pos.
  assert (∀ n html pos, measure html pos < n →
            ∃ out, ∀ k, while_loop body (n + k) html pos = Ok out) as Hn.
  { clear html pos. induction n as [|n IH]; intros html pos Hlt; [lia|].
    destruct (Hbody html pos) as (r & Hr & Hdec).
    destruct r as [out|html' pos'].
    - exists out. intros k. cbn [Nat.add while_loop]. by rewrite Hr.
    - destruct (IH html' pos') as [out Hout].
      { specialize (Hdec html' pos' eq_refl). lia. }
      exists out. intros k. cbn [Nat.add while_loop]. rewrite Hr. apply Hout. }
  destruct (Hn (S (measure html pos)) html pos) as [out Hout]; [lia|].
  exists out. by exists (S (measure html pos)).
Qed.

Lemma while_loop_ext (body1 body2 : string → nat → res loop_step) :
  (∀ html pos, body1 html pos = body2 html pos) →
  ∀ fuel html pos,
    while_loop body1 fuel html pos = while_loop body2 fuel html pos.
Proof.
  intros Hb. induction fuel as [|fuel IH]; intros html pos; [done|].
  cbn [while_loop]. rewrite Hb. destruct (body2 html pos) as [[?|??]|]; cbn; auto.
Qed.

(** ** Trimming does not throw *)

Lemma trim_Ok (s cs : string) : ∃ t, trim s cs = Ok t.
Proof.
  unfold trim, erase. rewrite decide_True by lia. cbn [mbind res_bind].
  set (s1 := match find_first_not_of s cs with
             | Some k => take 0 s +:+ drop (0 + k) s
             | None => take 0 s
             end).
  rewrite decide_True; [by eexists|].
  destruct (find_last_not_of s1 cs) as [i|] eqn:E; simpl; [|lia].
  apply find_last_not_of_lt in E. lia.
Qed.

(** ** The loop bodies *)

(** The guard of the inline pass compares at most six characters with the
    seven of the closing tag: inside the text it is never true. *)
Lemma after_code_close_false (html : string) (pos : nat) :
  pos ≤ String.length html → after_code_close html pos = Ok false.
Proof.
  intros Hpos. unfold after_code_close. case_decide; [|done].
  rewrite substr_Ok by lia. cbn [mbind res_bind].
  rewrite bool_decide_eq_false_2; [done|]. intros Heq.
  apply (f_equal String.length) in Heq. rewrite str_length_take in Heq.
  change (String.length "</code>") with 7 in Heq. lia.
Qed.



(** The bold loop steps back into the text it has written: its cursor
    lands on the closing tag.  What goes down each round is the number of
    asterisks from the cursor on. *)
Lemma boldText_body_step (html : string) (pos : nat) :
  ∃ r, boldText_body html pos = Ok r
    ∧ ∀ html' pos', r = Continue html' pos' →
        count_char "*" (drop pos' html') < count_char "*" (drop pos html).
Proof.
  unfold boldText_body.
  destruct (find html "**" pos) as [start|] eqn:E1; [|by eexists; split].
  destruct (find html "**" (start + 2)) as [end_|] eqn:E2;
    [|by eexists; split].
  apply find_Some in E1 as (Hs1 & Hs2 & _).
  apply find_Some in E2 as (He1 & He2 & [u Hu]%starts_with_spec).
  simpl in Hs2, He2.
  rewrite substr_Ok by lia. cbn [mbind res_bind].
  rewrite replace_Ok by lia. cbn [mbind res_bind].
  eexists. split; [done|]. intros html' pos' [= <- <-].
  set (boldText := take (end_ - start - 2) (drop (start + 2) html)).
  assert (String.length boldText = end_ - start - 2) as Hlen.
  { unfold boldText. rewrite str_length_take, str_length_drop. lia. }
  rewrite <- !str_app_assoc.
  rewrite (str_app_assoc _ "</strong>").
  replace (start + 8 + String.length boldText)
    with (String.length ((take start html +:+ "<strong>") +:+ boldText)).
  2:{ rewrite !str_length_app, str_length_take. simpl. lia. }
  rewrite str_drop_app_length, count_char_app.
  replace (start + (end_ - start + 2)) with (end_ + 2) by lia.
  rewrite <- str_drop_drop, Hu.
  change (drop 2 ("**" +:+ u)) with u.
  pose proof (count_char_drop_le "*" pos end_ html ltac:(lia)) as Hle.
  rewrite Hu in Hle. change (count_char "*" ("**" +:+ u))
    with (S (S (count_char "*" u))) in Hle.
  change (count_char "*" "</strong>") with 0. lia.
Qed.

Lemma cellBold_body_boldText (cell : string) (start : nat) :
  cellBold_body cell start = boldText_body cell start.
Proof.
  unfold cellBold_body, boldText_body.
  destruct (find cell "**" start) as [s|]; [|done].
  destruct (find cell "**" (s + 2)) as [e|]; [|done].
  destruct (substr cell (s + 2) (e - s - 2)) as [boldText|]; [|done].
  cbn [mbind res_bind]. by rewrite Nat.add_assoc.
Qed.

(** ** The passes with loops *)


Lemma processBoldText_returns (markdown : string) :
  ∃ out, returns (fun fuel => processBoldText fuel markdown) out.
Proof.
  apply (while_loop_returns boldText_body
           (fun html pos => count_char "*" (drop pos html))
           boldText_body_step).
Qed.

Lemma cellBold_returns (cell : string) :
  ∃ out, returns (fun fuel => while_loop cellBold_body fuel cell 0) out.
Proof.
  destruct (processBoldText_returns cell) as [out H]. exists out.
  apply (returns_ext (fun fuel => processBoldText fuel cell)); [|done].
  intros fuel. unfold processBoldText. symmetry.
  apply while_loop_ext, cellBold_body_boldText.
Qed.

End Returning.

(** * [LessonLoader]: tables, inline code and the whole renderer *)

Section Rendering.
Import StdString LessonLoader.

Lemma returns_inj {A : Type} (f : nat → res A) (a b : A) :
  returns f a → returns f b → a = b.
Proof.
  intros [N1 H1] [N2 H2]. specialize (H1 N2). specialize (H2 N1).
  rewrite Nat.add_comm in H2. congruence.
Qed.

(** ** Rows *)

Lemma processCell_returns (result cell : string) :
  ∃ text,
    returns (fun fuel => processCell fuel result cell)
            (result +:+ "<td>" +:+ text +:+ "</td>").
Proof.
  unfold processCell. destruct (trim_Ok cell blanks) as [t ->].
  cbn [mbind res_bind]. destruct (find t "**" 0).
  - destruct (cellBold_returns t) as [text H]. exists text.
    apply (returns_bind _
             (fun cell _ => Ok (result +:+ "<td>" +:+ cell +:+ "</td>")) _ _ H).
    apply returns_ret.
  - exists t. cbn [mbind res_bind]. apply returns_ret.
Qed.

Lemma cells_fold_returns (cells : list string) (accf : nat → res string)
    (acc : string) :
  returns accf acc →
  ∃ texts,
    returns (fun fuel =>
               foldl (fun r cell => result ← r; processCell fuel result cell)
                     (accf fuel) cells)
            (acc +:+ tds texts).
Proof.
  revert accf acc; induction cells as [|cell cells IH]; intros accf acc Hacc.
  - exists []. cbn [foldl tds]. by rewrite str_app_nil_r.
  - destruct (processCell_returns acc cell) as [text Hcell].
    destruct (IH (fun fuel => result ← accf fuel; processCell fuel result cell)
                 (acc +:+ "<td>" +:+ text +:+ "</td>")) as [texts H].
    { exact (returns_bind accf (fun result fuel => processCell fuel result cell)
               _ _ Hacc Hcell). }
    exists (text :: texts). cbn [foldl tds].
    by rewrite !str_app_assoc in H.
Qed.

(** A row is rendered as one [<tr>] of [<td>] cells. *)
Lemma processTableRow_returns (row : string) :
  ∃ texts,
    returns (fun fuel => processTableRow fuel row)
            ("<tr>" +:+ tds texts +:+ "</tr>").
Proof.
  unfold processTableRow. destruct (getlines "|" row) as [|first cells].
  - exists []. cbn [mbind res_bind]. apply returns_ret.
  - destruct (cells_fold_returns cells (fun _ => Ok "<tr>") "<tr>"
                (returns_ret _)) as [texts H].
    exists texts.
    apply (returns_bind _ (fun result _ => Ok (result +:+ "</tr>")) _ _ H).
    rewrite str_app_assoc. apply returns_ret.
Qed.

(** ** Tables *)



Lemma isSeparator_no_LF (line : string) :
  isSeparator line = true → mem LF line = false.
Proof.
  induction line as [|c line IH]; [done|]. simpl.
  intros [Hc Hline]%andb_true_iff. rewrite (IH Hline), orb_false_r.
  apply orb_true_iff in Hc as [[Hc|Hc]%orb_true_iff|Hc];
    apply Ascii.eqb_eq in Hc; by subst c.
Qed.

Lemma isTableRow_nonempty (line : string) :
  isTableRow line = true → line ≠ "".
Proof. by destruct line. Qed.

(** C5, as the code has it.  A header row, a separator line and a data
    row render to one table with two rows, the header row and the data
    row, each a [<tr>] of [<td>] cells; the separator line leaves no row. *)
Theorem processTables_three_line_table (header separator row trailer : string) :
  isTableRow header = true →
  isSeparator separator = true →
  isTableRow row = true →
  mem LF header = false →
  mem LF row = false →
  trailer = "" ∨ trailer = str LF →
  ∃ headerCells rowCells,
    returns (fun fuel => processTableRow fuel header)
            ("<tr>" +:+ tds headerCells +:+ "</tr>")
    ∧ returns (fun fuel => processTableRow fuel row)
              ("<tr>" +:+ tds rowCells +:+ "</tr>")
    ∧ returns (fun fuel =>
                 processTables fuel
                   (header +:+ str LF +:+ separator +:+ str LF +:+ row +:+ trailer))
              (dq "<div class='table-container'><table class='course-table'>"
               +:+ ("<tr>" +:+ tds headerCells +:+ "</tr>")
               +:+ ("<tr>" +:+ tds rowCells +:+ "</tr>")
               +:+ "</table></div>").
Proof.
  intros Hh Hs Hr Hhl Hrl Htrailer.
  destruct (processTableRow_returns header) as [headerCells Hhead].
  destruct (processTableRow_returns row) as [rowCells Hrow].
  exists headerCells, rowCells. split; [done|]. split; [done|].
  destruct Hhead as [N1 H1], Hrow as [N2 H2]. exists (N1 + N2). intros k.
  unfold processTables.
  assert (getlines LF (header +:+ str LF +:+ separator +:+ str LF +:+ row +:+ trailer)
          = [header; separator; row]) as ->.
  { rewrite !str_app_str, getlines_line by done.
    rewrite getlines_line by by apply isSeparator_no_LF.
    f_equal. f_equal. destruct Htrailer as [->| ->].
    - rewrite str_app_nil_r. apply getlines_last; [done|].
      by apply isTableRow_nonempty.
    - unfold str. by rewrite getlines_line. }
  cbn [tables_loop]. rewrite Hh, Hs, Hr.
  rewrite <- Nat.add_assoc, H1. cbn [mbind res_bind].
  replace (N1 + (N2 + k)) with (N2 + (N1 + k)) by lia. rewrite H2.
  cbn [mbind res_bind]. by rewrite !str_app_assoc.
Qed.

(** The table of the specification's example. *)
Lemma processTables_three_line_table_witness :
  ∃ headerCells rowCells,
    returns (fun fuel =>
               LessonLoader.processTables fuel
                 ("| A | B |" +:+ StdString.str StdString.LF
                  +:+ "|---|---|" +:+ StdString.str StdString.LF
                  +:+ "| 1 | 2 |" +:+ ""))
            (StdString.dq "<div class='table-container'><table class='course-table'>"
             +:+ ("<tr>" +:+ LessonLoader.tds headerCells +:+ "</tr>")
             +:+ ("<tr>" +:+ LessonLoader.tds rowCells +:+ "</tr>")
             +:+ "</table></div>").
Proof.
  destruct (processTables_three_line_table "| A | B |" "|---|---|" "| 1 | 2 |" "")
    as (headerCells & rowCells & _ & _ & H).
  - reflexivity.
  - reflexivity.
  - reflexivity.
  - reflexivity.
  - reflexivity.
  - left. reflexivity.
  - exists headerCells, rowCells. exact H.
Defined.

(** C5, as stated, fails: the table of the example has two [<tr>] rows,
    not one. *)
Lemma three_line_table_has_two_rows :
  ∃ out,
    returns (fun fuel =>
               LessonLoader.processTables fuel
                 ("| A | B |" +:+ StdString.str StdString.LF
                  +:+ "|---|---|" +:+ StdString.str StdString.LF
                  +:+ "| 1 | 2 |"))
            out
    ∧ out = StdString.dq "<div class='table-container'><table class='course-table'>"
            +:+ "<tr><td>A</td><td>B</td></tr>"
            +:+ "<tr><td>1</td><td>2</td></tr>"
            +:+ "</table></div>"
    ∧ StdString.count_occurrences "<table" out = 1
    ∧ StdString.count_occurrences "<tr>" out = 2
    ∧ StdString.count_occurrences "<tr>" out ≠ 1.
Proof.
  eexists. split; [exists 0; intros k; reflexivity|].
  split; [reflexivity|]. split; [reflexivity|]. split; [reflexivity|].
  vm_compute. discriminate.
Qed.

(** ** Inline code *)

(** C4.  The test the inline pass makes before it converts a span can
    never succeed: it compares at most six characters with the
    seven-character closing tag.  So no round of the loop steps over a
    span: a round that goes on has replaced the two backticks of a span by
    the two tags, eleven characters more.  A span right after a closing tag
    is converted like any other, both after the [</code>] the pass has just
    written and after one that stands in the text. *)
Theorem inline_code_after_close_tag_converted :
  (∀ html pos, after_code_close html pos = Ok false
               ∨ after_code_close html pos = Err out_of_range)
  ∧ (∀ html pos,
        match inlineCode_body html pos with
        | Ok (Continue html' _) =>
            String.length html' = String.length html + 11
        | _ => True
        end)
  ∧ returns (fun fuel => processCodeBlocks fuel "`a``b`")
            "<code>a</code><code>b</code>"
  ∧ returns (fun fuel => processCodeBlocks fuel "</code>`x`")
            "</code><code>x</code>".
Proof.
  split; [|split].
  - intros html pos. unfold after_code_close, substr.
    repeat case_decide; cbn [mbind res_bind]; auto.
    left. rewrite bool_decide_eq_false_2; [done|]. intros Heq.
    apply (f_equal String.length) in Heq. rewrite str_length_take in Heq.
    change (String.length "</code>") with 7 in Heq. lia.
  - intros html pos. unfold inlineCode_body.
    destruct (find html "`" pos) as [start|] eqn:E1; [|done].
    apply find_Some in E1 as (_ & Hs & _). simpl in Hs.
    rewrite after_code_close_false by lia. cbn [mbind res_bind].
    destruct (find html "`" (start + 1)) as [end_|] eqn:E2; [|done].
    apply find_Some in E2 as (He1 & He2 & _). simpl in He2.
    rewrite substr_Ok by lia. cbn [mbind res_bind].
    rewrite replace_Ok by lia. cbn [mbind res_bind].
    rewrite !str_length_app, !str_length_take, !str_length_drop.
    cbn [String.length]. lia.
  - split; exists 3; intros k; reflexivity.
Qed.

(** ** The renderer *)



End Rendering.

(** * [LessonLoader]: the lesson lists after loading *)

Section LoadingLessons.
Import StdString LessonLoader.

Variable regex_replace : string → regex → string → string.
Variable regex_search : string → regex → option (list string).
Variable regex_matches : string → regex → list (list string).
Variable files : gmap string string.
Variable directories : gmap string (list dir_entry).







End LoadingLessons.

(** * [HttpServer]: registering routes and answering a connection *)

Section HttpServerRegistering.
Import StdString HttpServer.

Variable files : gmap string string.

(** [addRoute] writes [routes_[method][path]]: the route just added is the
    one found for its method and path, whatever was registered there
    before, and every other method and path finds what it found before. *)
Theorem addRoute_lookup (srv : Server) (method path : string)
    (handler : RouteHandler) (method' path' : string) :
  routes_ (addRoute srv method path handler) !! method'
    ≫= (fun methodRoutes => methodRoutes !! path')
  = if decide (method' = method ∧ path' = path) then Some handler
    else routes_ srv !! method' ≫= (fun methodRoutes => methodRoutes !! path').
Proof.
  unfold addRoute. cbn [routes_].
  destruct (decide (method' = method)) as [->|Hm].
  - rewrite lookup_insert_eq. cbn [mbind option_bind].
    destruct (decide (path' = path)) as [->|Hp].
    + rewrite decide_True by done. apply lookup_insert_eq.
    + rewrite decide_False by tauto. rewrite lookup_insert_ne by done.
      by destruct (routes_ srv !! method).
  - rewrite decide_False by tauto. by rewrite lookup_insert_ne.
Qed.

(** Registering a second handler for the same method and path replaces
    the first: the table is the one the second registration alone gives. *)
Lemma addRoute_last_wins (srv : Server) (method path : string)
    (first second : RouteHandler) :
  addRoute (addRoute srv method path first) method path second
  = addRoute srv method path second.
Proof.
  unfold addRoute. cbn [routes_ courseModules_ lessonLoader_]. f_equal.
  rewrite lookup_insert_eq. cbn [default]. unfold RouteHandler in *.
  rewrite insert_insert_eq. unfold id. by rewrite insert_insert_eq.
Qed.

(** A request for a route that was registered, off the two prefixes, is
    answered 200 with what the handler returns, wrapped in the page frame
    for the path ["/"], and with the content type the path decides. *)
Theorem addRoute_dispatch (srv : Server) (method path : string)
    (handler : RouteHandler) (body : string) (headers : gmap string string) :
  ¬ bypasses_table path →
  dispatch files (addRoute srv method path handler) method path body headers
  = Ok {| statusCode := 200;
          contentType :=
            if decide (path = "/") then "text/html"
            else if decide (path = "/health" ∨ find path "/api/" 0 = Some 0)
                 then "application/json" else "text/plain";
          responseBody :=
            if decide (path = "/")
            then generateHTML "C++ Server Development Course"
                   (handler body headers)
            else handler body headers |}.
Proof.
  intros Hno. unfold bypasses_table in Hno. unfold dispatch.
  rewrite decide_False by tauto.
  destruct (decide (find path "/css/" 0 = Some 0 ∨ find path "/js/" 0 = Some 0))
    as [Hs|Hs]; [tauto|].
  unfold addRoute. cbn [routes_]. rewrite lookup_insert_eq.
  unfold RouteHandler in *. rewrite lookup_insert_eq.
  by repeat case_decide.
Qed.

End HttpServerRegistering.

(** A health route registered on a server without routes. *)
Lemma addRoute_dispatch_witness :
  HttpServer.dispatch ∅
    (HttpServer.addRoute
       {| HttpServer.routes_ := ∅; HttpServer.courseModules_ := ∅;
          HttpServer.lessonLoader_ :=
            {| LessonLoader.lessonsDirectory_ := "lessons";
               LessonLoader.modules_ := ∅;
               LessonLoader.moduleOrder_ := [] |} |}
       "GET" "/health" (fun _ _ => "{}"))
    "GET" "/health" "" ∅
  = Ok {| HttpServer.statusCode := 200;
          HttpServer.contentType := "application/json";
          HttpServer.responseBody := "{}" |}.
Proof.
  refine (addRoute_dispatch ∅ _ "GET" "/health" (fun _ _ => "{}") "" ∅ _).
  unfold HttpServer.bypasses_table. vm_compute.
  intros [H|[H|H]]; discriminate H.
Defined.

Section HttpServerAnswering.
Import StdString HttpServer.

Variable files : gmap string string.
Variable srv : Server.

Lemma parseHttpRequest_Ok (request method path : string)
    (headers : gmap string string) :
  ∃ parsed, parseHttpRequest request method path headers = Ok parsed.
Proof.
  unfold parseHttpRequest.
  destruct (getlines LF request) as [|line stream].
  - by eexists.
  - destruct (parse_request_line line method path) as [m p].
    destruct (parse_headers_spec stream headers) as [rest ->]. by eexists.
Qed.

Lemma dispatch_Ok (method path body : string) (headers : gmap string string) :
  ∃ reply, dispatch files srv method path body headers = Ok reply.
Proof.
  unfold dispatch.
  destruct (decide (find path "/course/" 0 = Some 0)) as [Hc|Hc].
  - pose proof Hc as [t ->]%find_0_starts_with%starts_with_spec.
    rewrite substr_from_Ok by (rewrite str_length_app; simpl; lia).
    change 8 with (String.length "/course/"). rewrite str_drop_app_length.
    cbn [mbind res_bind].
    destruct (find t "/" 0) as [i|] eqn:Ei; [|by eexists].
    apply find_Some in Ei as (_ & Hlen & _). simpl in Hlen.
    rewrite substr_Ok by lia. cbn [mbind res_bind].
    rewrite substr_from_Ok by lia. by eexists.
  - case_decide; [by eexists|].
    destruct (routes_ srv !! method) as [methodRoutes|]; [|by eexists].
    destruct (methodRoutes !! path); [|by eexists].
    repeat case_decide; by eexists.
Qed.

Lemma take_nonempty (n : nat) (s : string) :
  0 < n → s ≠ "" → 0 < String.length (take n s).
Proof.
  intros Hn Hs. destruct s; [done|]. destruct n; [lia|]. simpl. lia.
Qed.

(** [handleClient] does not throw, whatever bytes it reads.  It sends
    nothing when no byte was read, and otherwise one response: a status
    line, the content type, a [Content-Length] that is the length of the
    body, the two fixed header lines, the blank line and the body. *)
Theorem handleClient_answers (received : string) :
  (received = "" ∧ handleClient files srv received = Ok None)
  ∨ (received ≠ ""
     ∧ ∃ statusLine contentType body,
         handleClient files srv received
         = Ok (Some (statusLine +:+ crlf
                     +:+ "Content-Type: " +:+ contentType +:+ crlf
                     +:+ "Content-Length: " +:+ of_size (String.length body)
                     +:+ crlf
                     +:+ "Access-Control-Allow-Origin: *" +:+ crlf
                     +:+ "Connection: close" +:+ crlf
                     +:+ crlf +:+ body))).
Proof.
  destruct (decide (received = "")) as [->|Hne]; [by left|]. right.
  split; [done|]. unfold handleClient.
  rewrite decide_True by by apply take_nonempty; [lia|].
  destruct (parseHttpRequest_Ok (c_str (take 4095 received)) "" "" ∅)
    as [[[[body method] path] headers] ->].
  cbn [mbind res_bind].
  destruct (dispatch_Ok method path body headers) as [reply ->].
  cbn [mbind res_bind].
  exists ("HTTP/1.1 " +:+ of_int (statusCode reply) +:+ " "
          +:+ (if decide (statusCode reply = 200%Z) then "OK"
               else if decide (statusCode reply = 404%Z) then "Not Found"
               else if decide (statusCode reply = 405%Z)
                    then "Method Not Allowed"
                    else "Internal Server Error")),
         (contentType reply), (responseBody reply).
  unfold createHttpResponse. rewrite str_app_nil_l.
  by rewrite !str_app_assoc.
Qed.

Lemma take_take (n : nat) (s : string) : take n (take n s) = take n s.
Proof.
  revert s; induction n as [|n IH]; intros [|c s]; simpl; try done.
  by rewrite IH.
Qed.

Lemma c_str_take_nul (n : nat) (a b : string) :
  mem NUL a = false → c_str (take n (a +:+ String NUL b)) = take n a.
Proof.
  revert n; induction a as [|c a IH]; intros n Hmem.
  - rewrite str_app_nil_l. by destruct n.
  - cbn [mem] in Hmem. apply orb_false_iff in Hmem as [Hc Hmem].
    rewrite str_app_cons. destruct n; [done|]. cbn [take c_str].
    rewrite Ascii.eqb_sym, Hc. by rewrite IH.
Qed.

(** One [recv] into the buffer is all [handleClient] looks at: the bytes
    after the first 4095 make no difference, and neither do the bytes
    after the first NUL, where the buffer ends as a C string. *)
Theorem handleClient_one_buffer (received : string) :
  handleClient files srv received
  = handleClient files srv (take 4095 received)
  ∧ ∀ before after after',
      mem NUL before = false →
      received = before +:+ String NUL after →
      handleClient files srv received
      = handleClient files srv (before +:+ String NUL after').
Proof.
  split.
  - unfold handleClient. by rewrite take_take.
  - intros before after after' Hnul ->. unfold handleClient.
    rewrite !c_str_take_nul by done.
    rewrite !decide_True; [done| |]; apply take_nonempty; try lia;
      by destruct before.
Qed.

End HttpServerAnswering.

(** A request line with two bytes after a NUL. *)
Lemma handleClient_one_buffer_witness :
  HttpServer.handleClient ∅
    {| HttpServer.routes_ := ∅; HttpServer.courseModules_ := ∅;
       HttpServer.lessonLoader_ :=
         {| LessonLoader.lessonsDirectory_ := "lessons";
            LessonLoader.modules_ := ∅;
            LessonLoader.moduleOrder_ := [] |} |}
    ("GET /x" +:+ String StdString.NUL "ab")
  = HttpServer.handleClient ∅
      {| HttpServer.routes_ := ∅; HttpServer.courseModules_ := ∅;
         HttpServer.lessonLoader_ :=
           {| LessonLoader.lessonsDirectory_ := "lessons";
              LessonLoader.modules_ := ∅;
              LessonLoader.moduleOrder_ := [] |} |}
      ("GET /x" +:+ String StdString.NUL "").
Proof.
  refine (proj2 (handleClient_one_buffer ∅ _ _) "GET /x" "ab" "" _ _).
  - reflexivity.
  - reflexivity.
Defined.

(** * [LessonLoader]: what ordering keeps, and the links between lessons *)

Section LessonOrderingMore.
Import StdString LessonLoader.

(** ** [std::find] and positions *)

Lemma std_find_Some_lookup (v : list string) (x : string) (i : nat) :
  std_find v x = Some i → v !! i = Some x.
Proof.
  revert i; induction v as [|y v IH]; intros i; [done|]. simpl.
  case_decide as E; [by intros [= <-]; subst|].
  destruct (std_find v x) as [j|]; [|done]. intros [= <-]. by apply IH.
Qed.

Lemma std_find_NoDup (v : list string) (x : string) (i : nat) :
  NoDup v → v !! i = Some x → std_find v x = Some i.
Proof.
  intros Hnd Hi.
  destruct (std_find v x) as [j|] eqn:Ej.
  - f_equal. apply std_find_Some_lookup in Ej.
    by apply (NoDup_lookup v j i x).
  - apply std_find_None in Ej. destruct Ej. by apply list_elem_of_lookup_2 in Hi.
Qed.

(** In a module whose lesson names are all different, the previous and
    the next link undo each other: the lesson a page names as next names
    that page as previous, and the other way round. *)
Theorem getPreviousNextLesson_inverse (st : State) (module : string)
    (m : ModuleRec) (lesson other : string) :
  modules_ st !! module = Some m →
  NoDup (lessons m) →
  other ≠ "" →
  ((getPreviousNextLesson st module lesson).2 = other →
   (getPreviousNextLesson st module other).1 = lesson)
  ∧ ((getPreviousNextLesson st module lesson).1 = other →
     (getPreviousNextLesson st module other).2 = lesson).
Proof.
  intros Hm Hnd Hother. unfold getPreviousNextLesson. rewrite Hm.
  destruct (std_find (lessons m) lesson) as [i|] eqn:Ei; [|by split].
  apply std_find_Some_lookup in Ei. split; cbn [fst snd].
  - case_decide as Hlast; [|done].
    destruct (lessons m !! (i + 1)) as [y|] eqn:Ey; [|done].
    simpl. intros ->.
    rewrite (std_find_NoDup _ _ (i + 1)) by done.
    rewrite decide_True by lia. cbn [fst].
    replace (i + 1 - 1) with i by lia. by rewrite Ei.
  - case_decide as Hfirst; [|done].
    destruct (lessons m !! (i - 1)) as [y|] eqn:Ey; [|done].
    simpl. intros ->.
    rewrite (std_find_NoDup _ _ (i - 1)) by done.
    apply lookup_lt_Some in Ei as Hlt.
    rewrite (decide_True (P := i - 1 + 1 ≠ length (lessons m))) by lia.
    cbn [snd]. replace (i - 1 + 1) with i by lia. by rewrite Ei.
Qed.

(** ** What [sortLessonsInModule] keeps *)

Lemma lessonOrder_NoDup (moduleName : string) (desiredOrder : list string) :
  lessonOrder !! moduleName = Some desiredOrder → NoDup desiredOrder.
Proof.
  assert (map_Forall (fun _ desiredOrder => NoDup desiredOrder) lessonOrder)
    as Hall.
  { apply (bool_decide_unpack _). vm_compute. exact I. }
  apply Hall.
Qed.

(** The second loop without any assumption on the list it runs over. *)
Lemma sort_loop_rest_names (rest : list string) (s : sort_state) :
  let sorted :=
    (foldl (fun s lessonName =>
              match std_find s.1.1 lessonName with
              | None => sort_push s lessonName
              | Some _ => s
              end) s rest).1.1 in
  (∀ x, x ∈ sorted ↔ x ∈ s.1.1 ∨ x ∈ rest)
  ∧ (NoDup s.1.1 → NoDup sorted).
Proof.
  revert s; induction rest as [|y rest IH]; intros s; cbn [foldl].
  - split; [|done]. intros x. rewrite elem_of_nil. tauto.
  - destruct (std_find s.1.1 y) as [i|] eqn:E.
    + destruct (IH s) as [Hel Hnd]. split; [|done].
      intros x. rewrite Hel, elem_of_cons.
      apply std_find_Some_elem in E. split; [tauto|].
      intros [?|[->|?]]; tauto.
    + apply std_find_None in E.
      destruct (IH (sort_push s y)) as [Hel Hnd].
      rewrite sort_push_names in Hel, Hnd. split.
      * intros x. rewrite Hel, elem_of_app, list_elem_of_singleton, elem_of_cons.
        tauto.
      * intros Hs. apply Hnd. apply NoDup_app. split; [done|].
        split; [|apply NoDup_singleton].
        intros x Hx ->%list_elem_of_singleton. done.
Qed.

(** Ordering loses no lesson and invents none: the ordered list has the
    names of the discovered list, and when those are all different it is a
    rearrangement of it. *)
Theorem sortLessonsInModule_same_lessons (module : ModuleRec) :
  (∀ x, x ∈ lessons (sortLessonsInModule module) ↔ x ∈ lessons module)
  ∧ (NoDup (lessons module) →
     lessons (sortLessonsInModule module) ≡ₚ lessons module).
Proof.
  assert (∀ x, x ∈ lessons (sortLessonsInModule module) ↔ x ∈ lessons module)
    as Hel.
  { unfold sortLessonsInModule.
    destruct (lessonOrder !! name module) as [desiredOrder|]; [|done].
    cbn [lessons]. intros x.
    match goal with
    | |- context [foldl ?f ?s (lessons module)] =>
        destruct (sort_loop_rest_names (lessons module) s) as [Hel _]
    end.
    cbn zeta in Hel. rewrite Hel, sort_loop_catalog. cbn [fst app].
    rewrite list_elem_of_filter. tauto. }
  split; [done|]. intros Hnd. apply NoDup_Permutation; [|done|done].
  unfold sortLessonsInModule.
  destruct (lessonOrder !! name module) as [desiredOrder|] eqn:E; [|done].
  cbn [lessons].
  match goal with
  | |- context [foldl ?f ?s (lessons module)] =>
      destruct (sort_loop_rest_names (lessons module) s) as [_ Hkeep]
  end.
  apply Hkeep. rewrite sort_loop_catalog. cbn [fst app].
  apply NoDup_filter. by apply (lessonOrder_NoDup (name module)).
Qed.

End LessonOrderingMore.

Lemma getPreviousNextLesson_inverse_witness :
  (LessonLoader.getPreviousNextLesson
     {| LessonLoader.lessonsDirectory_ := "lessons";
        LessonLoader.modules_ :=
          {["fundamentals" :=
              {| LessonLoader.name := "fundamentals";
                 LessonLoader.lessons := ["introduction"; "sockets"; "threading"];
                 LessonLoader.lessonData := ∅ |}]};
        LessonLoader.moduleOrder_ := ["fundamentals"] |}
     "fundamentals" "threading").1
  = "sockets".
Proof.
  refine (proj1 (getPreviousNextLesson_inverse _ "fundamentals"
            {| LessonLoader.name := "fundamentals";
               LessonLoader.lessons := ["introduction"; "sockets"; "threading"];
               LessonLoader.lessonData := ∅ |}
            "sockets" "threading" _ _ _) _).
  - vm_compute. reflexivity.
  - apply (bool_decide_unpack _). vm_compute. exact I.
  - apply (bool_decide_unpack _). vm_compute. exact I.
  - vm_compute. reflexivity.
Defined.

Lemma sortLessonsInModule_same_lessons_witness :
  LessonLoader.lessons
    (LessonLoader.sortLessonsInModule
       {| LessonLoader.name := "fundamentals";
          LessonLoader.lessons := ["sockets"; "zeta"; "introduction"];
          LessonLoader.lessonData := ∅ |})
  ≡ₚ ["sockets"; "zeta"; "introduction"].
Proof.
  refine (proj2 (sortLessonsInModule_same_lessons
            {| LessonLoader.name := "fundamentals";
               LessonLoader.lessons := ["sockets"; "zeta"; "introduction"];
               LessonLoader.lessonData := ∅ |}) _).
  apply (bool_decide_unpack _). vm_compute. exact I.
Defined.

(** * [LessonLoader]: the lesson records and the module order *)

Section LessonRecords.
Import StdString LessonLoader.

Lemma sort_push_inv (data0 : gmap string Lesson) (s : sort_state) (y : string) :
  sort_inv data0 s → sort_inv data0 (sort_push s y).
Proof.
  destruct s as [[sorted sdata] data]. intros [Hs Hd]. cbn [fst snd] in *.
  unfold sort_push, lessonData_at.
  assert (default Lesson_default (data !! y)
          = default Lesson_default (data0 !! y)) as Hy by apply Hd.
  destruct (data !! y) as [l|] eqn:E; cbn [default from_option id] in Hy;
    split; cbn [fst snd]; intros x.
  - destruct (decide (x = y)) as [->|Hne].
    + rewrite lookup_insert_eq, decide_True; [by rewrite <- Hy|].
      apply elem_of_app; right; by apply list_elem_of_singleton.
    + rewrite lookup_insert_ne, Hs by done.
      destruct (decide (x ∈ sorted)) as [Hx|Hx].
      * rewrite decide_True; [done|]. apply elem_of_app; by left.
      * rewrite decide_False; [done|].
        intros [?|?%list_elem_of_singleton]%elem_of_app; done.
  - apply Hd.
  - destruct (decide (x = y)) as [->|Hne].
    + rewrite lookup_insert_eq, decide_True; [by rewrite <- Hy|].
      apply elem_of_app; right; by apply list_elem_of_singleton.
    + rewrite lookup_insert_ne, Hs by done.
      destruct (decide (x ∈ sorted)) as [Hx|Hx].
      * rewrite decide_True; [done|]. apply elem_of_app; by left.
      * rewrite decide_False; [done|].
        intros [?|?%list_elem_of_singleton]%elem_of_app; done.
  - destruct (decide (x = y)) as [->|Hne].
    + by rewrite lookup_insert_eq.
    + rewrite lookup_insert_ne by done. apply Hd.
Qed.

Lemma sort_loop_inv (data0 : gmap string Lesson)
    (guard : sort_state → string → bool) (l : list string) (s : sort_state) :
  sort_inv data0 s →
  sort_inv data0
    (foldl (fun s lessonName =>
              if guard s lessonName then sort_push s lessonName else s) s l).
Proof.
  revert s; induction l as [|y l IH]; intros s Hs; [done|]. cbn [foldl].
  apply IH. destruct (guard s y); [by apply sort_push_inv|done].
Qed.

Lemma sortLessonsInModule_inv (module : ModuleRec) (desiredOrder : list string) :
  sort_inv (lessonData module)
    (foldl (fun s lessonName =>
              match std_find s.1.1 lessonName with
              | None => sort_push s lessonName
              | Some _ => s
              end)
       (foldl (fun s lessonName =>
                 match std_find (lessons module) lessonName with
                 | Some _ => sort_push s lessonName
                 | None => s
                 end) ([], ∅, lessonData module) desiredOrder)
       (lessons module)).
Proof.
  pose proof (sort_loop_inv (lessonData module)
    (fun s lessonName => bool_decide (std_find s.1.1 lessonName = None))) as H2.
  pose proof (sort_loop_inv (lessonData module)
    (fun s lessonName =>
       bool_decide (is_Some (std_find (lessons module) lessonName)))) as H1.
  assert (∀ l s,
    foldl (fun s lessonName =>
             if bool_decide (std_find s.1.1 lessonName = None)
             then sort_push s lessonName else s) s l
    = foldl (fun s lessonName =>
               match std_find s.1.1 lessonName with
               | None => sort_push s lessonName
               | Some _ => s
               end) s l) as E2.
  { induction l as [|y l IH]; intros s; [done|]. cbn [foldl]. rewrite <- IH.
    by destruct (std_find s.1.1 y). }
  assert (∀ l s,
    foldl (fun s lessonName =>
             if bool_decide (is_Some (std_find (lessons module) lessonName))
             then sort_push s lessonName else s) s l
    = foldl (fun s lessonName =>
               match std_find (lessons module) lessonName with
               | Some _ => sort_push s lessonName
               | None => s
               end) s l) as E1.
  { induction l as [|y l IH]; intros s; [done|]. cbn [foldl]. rewrite <- IH.
    destruct (std_find (lessons module) y) eqn:E; [|done].
    by rewrite bool_decide_eq_true_2. }
  rewrite <- E2, <- E1. apply H2, H1. split; cbn [fst snd]; intros x; [|done].
  rewrite lookup_empty, decide_False; [done|]. apply not_elem_of_nil.
Qed.

Lemma sortLessonsInModule_elem (module : ModuleRec) (x : string) :
  x ∈ lessons (sortLessonsInModule module) ↔ x ∈ lessons module.
Proof.
  unfold sortLessonsInModule.
  destruct (lessonOrder !! name module) as [desiredOrder|]; [|done].
  cbn [lessons].
  match goal with
  | |- context [foldl ?f ?s (lessons module)] =>
      destruct (sort_loop_rest_names (lessons module) s) as [Hel _]
  end.
  cbn zeta in Hel. rewrite Hel, sort_loop_catalog. cbn [fst app].
  rewrite list_elem_of_filter. tauto.
Qed.

(** For a module of the catalog, the lesson records after ordering are
    keyed by exactly the lesson names of the module: a name whose file was
    parsed keeps its record, a listed name without a record gets a default
    (empty) one, and a record whose name is not listed is dropped.  A module
    outside the catalog keeps its records as they are. *)
Theorem sortLessonsInModule_lessonData (module : ModuleRec) (x : string) :
  lessonData (sortLessonsInModule module) !! x
  = match lessonOrder !! name module with
    | Some _ =>
        if decide (x ∈ lessons module)
        then Some (default Lesson_default (lessonData module !! x))
        else None
    | None => lessonData module !! x
    end.
Proof.
  pose proof (sortLessonsInModule_elem module x) as Hel.
  unfold sortLessonsInModule in *.
  destruct (lessonOrder !! name module) as [desiredOrder|]; [|done].
  cbn [lessons lessonData] in *.
  destruct (sortLessonsInModule_inv module desiredOrder) as [Hs _].
  rewrite Hs. destruct (decide (x ∈ lessons module)) as [Hx|Hx].
  - rewrite decide_True; [done|]. by apply Hel.
  - rewrite decide_False; [done|]. by rewrite Hel.
Qed.

(** ** [sortModulesInOrder] *)

Lemma filter_ext_elem (P1 P2 : string → Prop)
    `{!∀ x, Decision (P1 x)} `{!∀ x, Decision (P2 x)} (l : list string) :
  (∀ x, x ∈ l → (P1 x ↔ P2 x)) → filter P1 l = filter P2 l.
Proof.
  induction l as [|y l IH]; [done|]. intros Hext.
  assert (P1 y ↔ P2 y) as Hy by (apply Hext; left).
  assert (filter P1 l = filter P2 l) as Hl
    by (apply IH; intros; apply Hext; by right).
  destruct (decide (P1 y)) as [Hp|Hp].
  - rewrite !filter_cons_True by tauto. by rewrite Hl.
  - rewrite !filter_cons_False by tauto. done.
Qed.

Lemma order_loop_known {A : Type} (modules : gmap string A)
    (desiredOrder order : list string) :
  foldl (fun order moduleName =>
           match modules !! moduleName with
           | Some _ => order ++ [moduleName]
           | None => order
           end) order desiredOrder
  = order ++ filter (fun moduleName => is_Some (modules !! moduleName)) desiredOrder.
Proof.
  revert order; induction desiredOrder as [|y l IH]; intros order; cbn [foldl].
  - by rewrite app_nil_r.
  - rewrite IH. destruct (modules !! y) as [m|] eqn:E.
    + rewrite filter_cons_True by (by rewrite E). by rewrite <- app_assoc.
    + rewrite filter_cons_False; [done|]. rewrite E. by intros [? ?].
Qed.

Lemma order_loop_rest (keys order : list string) :
  NoDup keys →
  foldl (fun order moduleName =>
           match std_find order moduleName with
           | None => order ++ [moduleName]
           | Some _ => order
           end) order keys
  = order ++ filter (fun moduleName => moduleName ∉ order) keys.
Proof.
  revert order; induction keys as [|x rest IH]; intros order Hnd; cbn [foldl].
  - by rewrite app_nil_r.
  - apply NoDup_cons in Hnd as [Hx Hnd]. rewrite IH by done.
    destruct (std_find order x) as [i|] eqn:E.
    + by rewrite filter_cons_False
        by (intros H; apply H; eauto using std_find_Some_elem).
    + apply std_find_None in E. rewrite filter_cons_True by done.
      rewrite filter_not_elem_of_snoc by done. by rewrite <- app_assoc.
Qed.

Lemma std_map_keys_elem {A : Type} (m : gmap string A) (k : string) :
  k ∈ std_map_keys m ↔ is_Some (m !! k).
Proof.
  unfold std_map_keys. rewrite merge_sort_Permutation.
  rewrite list_elem_of_fmap. split.
  - intros [[k' a] [-> H]]. apply elem_of_map_to_list in H. by exists a.
  - intros [a H]. exists (k, a). split; [done|]. by apply elem_of_map_to_list.
Qed.

Lemma std_map_keys_NoDup {A : Type} (m : gmap string A) :
  NoDup (std_map_keys m).
Proof.
  unfold std_map_keys. rewrite merge_sort_Permutation.
  apply NoDup_fst_map_to_list.
Qed.

(** The module order after [sortModulesInOrder]: first the catalog's four
    modules, those that were loaded, in the catalog's order; then every other
    loaded module in the order of the module map, by name.  It lists each
    loaded module exactly once and nothing else, and the modules themselves
    are not touched. *)
Theorem sortModulesInOrder_order (st : State) :
  let desiredOrder :=
    ["fundamentals"; "building-blocks"; "advanced-features"; "deployment"] in
  let st' := sortModulesInOrder st in
  moduleOrder_ st'
  = filter (fun moduleName => is_Some (modules_ st !! moduleName)) desiredOrder
    ++ filter (fun moduleName => moduleName ∉ desiredOrder)
         (std_map_keys (modules_ st))
  ∧ NoDup (moduleOrder_ st')
  ∧ (∀ moduleName,
       moduleName ∈ moduleOrder_ st' ↔ is_Some (modules_ st !! moduleName))
  ∧ modules_ st' = modules_ st
  ∧ lessonsDirectory_ st' = lessonsDirectory_ st.
Proof.
  intros desiredOrder st'.
  assert (moduleOrder_ st'
    = filter (fun moduleName => is_Some (modules_ st !! moduleName)) desiredOrder
      ++ filter (fun moduleName => moduleName ∉ desiredOrder)
           (std_map_keys (modules_ st))) as Heq.
  { unfold st', sortModulesInOrder. cbn [moduleOrder_].
    rewrite order_loop_known, order_loop_rest by apply std_map_keys_NoDup.
    fold desiredOrder. cbn [app]. f_equal.
    apply filter_ext_elem. intros k Hk.
    apply std_map_keys_elem in Hk. rewrite list_elem_of_filter. tauto. }
  assert (NoDup desiredOrder) as Hnd.
  { apply (bool_decide_unpack _). vm_compute. exact I. }
  split; [done|]. split; [|split; [|done]].
  - rewrite Heq. apply NoDup_app. split; [by apply NoDup_filter|]. split.
    + intros k [_ H1]%list_elem_of_filter [H2 _]%list_elem_of_filter. done.
    + apply NoDup_filter, std_map_keys_NoDup.
  - intros k. rewrite Heq, elem_of_app, !list_elem_of_filter, std_map_keys_elem.
    destruct (decide (k ∈ desiredOrder)); tauto.
Qed.

End LessonRecords.

(** * [HttpServer::generateCoursePage]: the page of a lesson *)

Section CoursePages.
Import StdString HttpServer.

Lemma generateLessonNavigation_nonempty (st : LessonLoader.State)
    (module currentLesson : string) :
  LessonLoader.generateLessonNavigation st module currentLesson ≠ "".
Proof.
  unfold LessonLoader.generateLessonNavigation. cbv zeta.
  match goal with
  | |- ?nav +:+ "</div>" ≠ "" => generalize nav
  end.
  intros nav H. apply (f_equal String.length) in H.
  rewrite str_length_app in H. cbn [String.length] in H. lia.
Qed.

(** The page of a lesson the loader holds, whose rendered text mentions
    neither [Lesson Not Found] nor [Module Not Found]: the loader's
    navigation followed by the rendered lesson, in the site's frame.  The
    navigation the loader builds is never empty, so the fallback list built
    from [courseModules_] is never what such a page shows. *)
Theorem generateCoursePage_loaded (srv : Server) (module lesson : string)
    (m : LessonLoader.ModuleRec) (l : LessonLoader.Lesson) :
  LessonLoader.modules_ (lessonLoader_ srv) !! module = Some m →
  LessonLoader.lessonData m !! lesson = Some l →
  find (LessonLoader.htmlContent l) "Lesson Not Found" 0 = None →
  find (LessonLoader.htmlContent l) "Module Not Found" 0 = None →
  generateCoursePage srv module lesson
  = generateHTML ("C++ Server Development - " +:+ module +:+ " - " +:+ lesson)
      (LessonLoader.generateLessonNavigation (lessonLoader_ srv) module lesson
       +:+ dq "<div class='lesson-content'>"
       +:+ LessonLoader.htmlContent l +:+ "</div>").
Proof.
  intros Hm Hl H1 H2. unfold generateCoursePage, LessonLoader.getLessonContent.
  rewrite Hm, Hl. cbv zeta. rewrite decide_False by (rewrite H1, H2; tauto).
  rewrite decide_False by apply generateLessonNavigation_nonempty.
  by rewrite <- !str_app_assoc.
Qed.

Lemma generateCoursePage_by_table (srv : Server) (module lesson : string) :
  LessonLoader.modules_ (lessonLoader_ srv) !! module
    ≫= (fun m => LessonLoader.lessonData m !! lesson) = None →
  generateCoursePage srv module lesson
  = match courseModules_ srv !! module with
    | None =>
        generateHTML "Module Not Found"
          "<h2>Module Not Found</h2><p>The requested module does not exist.</p>"
    | Some moduleLessons =>
        if decide (lesson ∈ moduleLessons) then
          generateHTML
            ("C++ Server Development - " +:+ module +:+ " - " +:+ lesson)
            (LessonLoader.generateLessonNavigation (lessonLoader_ srv) module lesson
             +:+ dq "<div class='lesson-content'>"
             +:+ "<h2>" +:+ lesson
             +:+ "</h2><p>Lesson content is not available.</p>" +:+ "</div>")
        else
          generateHTML "Lesson Not Found"
            "<h2>Lesson Not Found</h2><p>The requested lesson does not exist.</p>"
    end.
Proof.
  intros Hmiss. unfold generateCoursePage.
  assert (find (LessonLoader.getLessonContent (lessonLoader_ srv) module lesson)
            "Lesson Not Found" 0 ≠ None
          ∨ find (LessonLoader.getLessonContent (lessonLoader_ srv) module lesson)
              "Module Not Found" 0 ≠ None) as Hfound.
  { unfold LessonLoader.getLessonContent.
    destruct (LessonLoader.modules_ (lessonLoader_ srv) !! module) as [m|];
      cbn [mbind option_bind] in Hmiss.
    - rewrite Hmiss. left. vm_compute. discriminate.
    - right. vm_compute. discriminate. }
  cbv zeta. rewrite decide_True by done.
  destruct (courseModules_ srv !! module) as [moduleLessons|]; [|done].
  destruct (LessonLoader.std_find moduleLessons lesson) as [i|] eqn:E.
  - rewrite (decide_True (P := lesson ∈ moduleLessons))
      by (eapply std_find_Some_elem; exact E).
    rewrite decide_False by apply generateLessonNavigation_nonempty.
    by rewrite <- !str_app_assoc.
  - apply std_find_None in E. by rewrite decide_False.
Qed.


(** The page of a lesson the loader does not hold (its module was not
    loaded, or the module has no record of that name) is decided by
    [courseModules_] alone: an unknown module gives the [Module Not Found]
    page, a known module that does not list the lesson gives the
    [Lesson Not Found] page, and a listed lesson gives the loader's
    navigation followed by a placeholder text. *)
Theorem generateCoursePage_not_loaded (srv : Server) (module lesson : string) :
  LessonLoader.modules_ (lessonLoader_ srv) !! module
    ≫= (fun m => LessonLoader.lessonData m !! lesson) = None →
  generateCoursePage srv module lesson
  = match courseModules_ srv !! module with
    | None =>
        generateHTML "Module Not Found"
          "<h2>Module Not Found</h2><p>The requested module does not exist.</p>"
    | Some moduleLessons =>
        if decide (lesson ∈ moduleLessons) then
          generateHTML
            ("C++ Server Development - " +:+ module +:+ " - " +:+ lesson)
            (LessonLoader.generateLessonNavigation (lessonLoader_ srv) module lesson
             +:+ dq "<div class='lesson-content'>"
             +:+ "<h2>" +:+ lesson
             +:+ "</h2><p>Lesson content is not available.</p>" +:+ "</div>")
        else
          generateHTML "Lesson Not Found"
            "<h2>Lesson Not Found</h2><p>The requested lesson does not exist.</p>"
    end.
Proof. apply generateCoursePage_by_table. Qed.

End CoursePages.

Lemma generateCoursePage_loaded_witness :
  let page := {| LessonLoader.title := "Sockets";
                 LessonLoader.content := "# Sockets";
                 LessonLoader.htmlContent := "<h1>Sockets</h1>";
                 LessonLoader.tags := [] |} in
  let m := {| LessonLoader.name := "fundamentals";
              LessonLoader.lessons := ["sockets"];
              LessonLoader.lessonData := {["sockets" := page]} |} in
  let srv := {| HttpServer.routes_ := ∅;
                HttpServer.courseModules_ := ∅;
                HttpServer.lessonLoader_ :=
                  {| LessonLoader.lessonsDirectory_ := "lessons";
                     LessonLoader.modules_ := {["fundamentals" := m]};
                     LessonLoader.moduleOrder_ := ["fundamentals"] |} |} in
  HttpServer.generateCoursePage srv "fundamentals" "sockets"
  = HttpServer.generateHTML
      ("C++ Server Development - " +:+ "fundamentals" +:+ " - " +:+ "sockets")
      (LessonLoader.generateLessonNavigation (HttpServer.lessonLoader_ srv)
         "fundamentals" "sockets"
       +:+ StdString.dq "<div class='lesson-content'>"
       +:+ "<h1>Sockets</h1>" +:+ "</div>").
Proof.
  intros page m srv.
  apply (generateCoursePage_loaded srv "fundamentals" "sockets" m page);
    vm_compute; reflexivity.
Defined.

Lemma generateCoursePage_not_loaded_witness :
  let srv := {| HttpServer.routes_ := ∅;
                HttpServer.courseModules_ :=
                  {["fundamentals" := ["introduction"; "sockets"]]};
                HttpServer.lessonLoader_ :=
                  {| LessonLoader.lessonsDirectory_ := "lessons";
                     LessonLoader.modules_ := ∅;
                     LessonLoader.moduleOrder_ := [] |} |} in
  HttpServer.generateCoursePage srv "fundamentals" "threads"
  = HttpServer.generateHTML "Lesson Not Found"
      "<h2>Lesson Not Found</h2><p>The requested lesson does not exist.</p>".
Proof.
  intros srv.
  rewrite (generateCoursePage_not_loaded srv "fundamentals" "threads")
    by (vm_compute; reflexivity).
  vm_compute; reflexivity.
Defined.

(** * The markdown loops on well-formed text *)

Section StdStringFraming.
Import StdString.

Lemma str_take_app_add (before s : string) (n : nat) :
  take (String.length before + n) (before +:+ s) = before +:+ take n s.
Proof.
  induction before as [|c before IH]; [by rewrite !str_app_nil_l|].
  rewrite !str_app_cons. simpl. by rewrite IH.
Qed.

Lemma str_drop_app_add (before s : string) (n : nat) :
  drop (String.length before + n) (before +:+ s) = drop n s.
Proof. by rewrite <- str_drop_drop, str_drop_app_length. Qed.

Lemma find_frame (before s needle : string) (pos : nat) :
  find (before +:+ s) needle (String.length before + pos)
  = (fun i => String.length before + i) <$> find s needle pos.
Proof.
  unfold find. rewrite str_length_app, str_drop_app_add.
  destruct (decide (pos ≤ String.length s)).
  - rewrite decide_True by lia.
    destruct (find_first needle (drop pos s)); simpl; [f_equal; lia|done].
  - by rewrite decide_False by lia.
Qed.

Lemma substr_frame (before s : string) (pos n : nat) :
  substr (before +:+ s) (String.length before + pos) n = substr s pos n.
Proof.
  unfold substr. rewrite str_length_app, str_drop_app_add.
  destruct (decide (pos ≤ String.length s)).
  - by rewrite decide_True by lia.
  - by rewrite decide_False by lia.
Qed.

Lemma replace_frame (before s : string) (pos n : nat) (t : string) :
  replace (before +:+ s) (String.length before + pos) n t
  = html ← replace s pos n t; Ok (before +:+ html).
Proof.
  unfold replace. rewrite str_length_app.
  destruct (decide (pos ≤ String.length s)).
  - rewrite decide_True by lia. cbn [mbind res_bind]. f_equal.
    rewrite <- Nat.add_assoc, str_take_app_add, str_drop_app_add.
    by rewrite str_app_assoc.
  - by rewrite decide_False by lia.
Qed.

Lemma mem_app (c : ascii) (s t : string) :
  mem c (s +:+ t) = mem c s || mem c t.
Proof.
  induction s as [|d s IH]; [by rewrite str_app_nil_l|].
  rewrite str_app_cons. simpl. by rewrite IH, orb_assoc.
Qed.

(** A needle is not found inside a text that lacks its first character. *)
Lemma find_first_skip (c : ascii) (needle before s : string) :
  mem c before = false →
  find_first (String c needle) (before +:+ s)
  = (fun i => String.length before + i) <$> find_first (String c needle) s.
Proof.
  induction before as [|d before IH]; intros Hmem.
  - rewrite str_app_nil_l. by destruct (find_first (String c needle) s).
  - simpl in Hmem. apply orb_false_iff in Hmem as [Hd Hmem].
    rewrite str_app_cons. cbn [find_first starts_with]. rewrite Hd.
    cbn [andb]. rewrite IH by done.
    by destruct (find_first (String c needle) s).
Qed.

Lemma find_skip (c : ascii) (needle before s : string) :
  mem c before = false →
  find (before +:+ s) (String c needle) 0
  = (fun i => String.length before + i) <$> find s (String c needle) 0.
Proof.
  intros Hmem. unfold find. rewrite !decide_True by lia. cbn [drop].
  rewrite find_first_skip by done.
  by destruct (find_first (String c needle) s).
Qed.

Lemma find_here (needle s : string) : find (needle +:+ s) needle 0 = Some 0.
Proof. apply find_0_starts_with, starts_with_app. Qed.

Lemma find_first_None_app (needle before s : string) :
  find_first needle (before +:+ s) = None → find_first needle s = None.
Proof.
  induction before as [|d before IH]; [by rewrite str_app_nil_l|].
  rewrite str_app_cons. cbn [find_first].
  destruct (starts_with needle (String d (before +:+ s))); [done|].
  destruct (find_first needle (before +:+ s)); [done|]. intros _. by apply IH.
Qed.

End StdStringFraming.

Section MarkdownFraming.
Import StdString LessonLoader.

(** A loop whose body reads the text only from the cursor on runs on
    [before +:+ html] from behind [before] as it runs on [html]. *)
Lemma while_loop_frame (body : string → nat → res loop_step) (before : string) :
  (∀ html pos, body (before +:+ html) (String.length before + pos)
               = r ← body html pos; Ok (frame_step before r)) →
  ∀ fuel html pos,
    while_loop body fuel (before +:+ html) (String.length before + pos)
    = out ← while_loop body fuel html pos; Ok (before +:+ out).
Proof.
  intros Hb. induction fuel as [|fuel IH]; intros html pos; [done|].
  cbn [while_loop]. rewrite Hb.
  destruct (body html pos) as [[h|h p]|e];
    cbn [mbind res_bind frame_step]; [done| |done].
  apply IH.
Qed.

Lemma while_loop_skip (body : string → nat → res loop_step) (before : string) :
  (∀ html pos, body (before +:+ html) (String.length before + pos)
               = r ← body html pos; Ok (frame_step before r)) →
  (∀ html, body (before +:+ html) 0
           = body (before +:+ html) (String.length before + 0)) →
  ∀ fuel html,
    while_loop body fuel (before +:+ html) 0
    = out ← while_loop body fuel html 0; Ok (before +:+ out).
Proof.
  intros Hb H0 fuel html. rewrite <- (while_loop_frame body before Hb).
  destruct fuel as [|fuel]; [done|]. cbn [while_loop]. by rewrite H0.
Qed.

(** ** Bold text *)

Lemma boldText_body_cursor (html : string) (pos pos' : nat) :
  find html "**" pos = find html "**" pos' →
  boldText_body html pos = boldText_body html pos'.
Proof. unfold boldText_body. by intros ->. Qed.

Lemma boldText_body_frame (before html : string) (pos : nat) :
  boldText_body (before +:+ html) (String.length before + pos)
  = r ← boldText_body html pos; Ok (frame_step before r).
Proof.
  unfold boldText_body. rewrite find_frame.
  destruct (find html "**" pos) as [start|]; [|done]. cbn [fmap option_fmap option_map].
  rewrite <- Nat.add_assoc, find_frame.
  destruct (find html "**" (start + 2)) as [end_|]; [|done].
  cbn [fmap option_fmap option_map].
  replace (String.length before + end_ - (String.length before + start) - 2)
    with (end_ - start - 2) by lia.
  replace (String.length before + end_ - (String.length before + start) + 2)
    with (end_ - start + 2) by lia.
  rewrite substr_frame.
  destruct (substr html (start + 2) (end_ - start - 2)) as [boldText|]; [|done].
  cbn [mbind res_bind]. rewrite replace_frame.
  destruct (replace html start (end_ - start + 2)
              ("<strong>" +:+ boldText +:+ "</strong>")) as [html'|]; [|done].
  cbn [mbind res_bind frame_step]. do 2 f_equal. lia.
Qed.

Lemma boldText_skip (before html : string) (fuel : nat) :
  mem "*" before = false →
  while_loop boldText_body fuel (before +:+ html) 0
  = out ← while_loop boldText_body fuel html 0; Ok (before +:+ out).
Proof.
  intros Hmem. apply while_loop_skip.
  - intros. apply boldText_body_frame.
  - intros h. apply boldText_body_cursor.
    by rewrite find_frame, find_skip.
Qed.

Lemma boldText_body_pair (boldText after : string) :
  mem "*" boldText = false →
  boldText_body ("**" +:+ boldText +:+ "**" +:+ after) 0
  = Ok (Continue ("<strong>" +:+ boldText +:+ "</strong>" +:+ after)
          (String.length ("<strong>" +:+ boldText) + 0)).
Proof.
  intros Hmem. unfold boldText_body. rewrite find_here.
  change (0 + 2) with (String.length "**" + 0). rewrite find_frame.
  rewrite find_skip, find_here by done. cbn [fmap option_fmap option_map].
  rewrite substr_frame, substr_Ok by lia. cbn [mbind res_bind drop].
  replace (String.length "**" + (String.length boldText + 0) - 0 - 2)
    with (String.length boldText) by (cbn [String.length]; lia).
  rewrite str_take_app_length, replace_Ok by lia.
  cbn [take mbind res_bind]. rewrite str_app_nil_l.
  replace (0 + (String.length "**" + (String.length boldText + 0) - 0 + 2))
    with (String.length "**" + (String.length boldText + String.length "**"))
    by (cbn [String.length]; lia).
  rewrite str_drop_app_add, <- str_drop_drop, !str_drop_app_length.
  rewrite !str_app_assoc, str_length_app. cbn [String.length]. do 2 f_equal. lia.
Qed.

Lemma processBoldText_pair_eq (fuel : nat) (before boldText after : string) :
  mem "*" before = false →
  mem "*" boldText = false →
  processBoldText (S fuel) (before +:+ "**" +:+ boldText +:+ "**" +:+ after)
  = out ← processBoldText fuel after;
    Ok (before +:+ "<strong>" +:+ boldText +:+ "</strong>" +:+ out).
Proof.
  intros Hbefore Hbold. unfold processBoldText.
  rewrite boldText_skip by done. cbn [while_loop].
  rewrite boldText_body_pair by done. cbn [mbind res_bind].
  rewrite <- (str_app_assoc "<strong>" boldText).
  rewrite while_loop_frame by (intros; apply boldText_body_frame).
  rewrite boldText_skip by done.
  destruct (while_loop boldText_body fuel after 0) as [out|]; [|done].
  cbn [mbind res_bind]. by rewrite !str_app_assoc.
Qed.

(** A pair of [**] markers around text without an asterisk, after text
    without an asterisk, becomes a [<strong>] element, and what follows is
    rendered as it would be on its own. *)
Theorem processBoldText_pair (before boldText after out : string) :
  mem "*" before = false →
  mem "*" boldText = false →
  returns (fun fuel => processBoldText fuel after) out →
  returns (fun fuel =>
             processBoldText fuel
               (before +:+ "**" +:+ boldText +:+ "**" +:+ after))
          (before +:+ "<strong>" +:+ boldText +:+ "</strong>" +:+ out).
Proof.
  intros Hbefore Hbold [N HN]. exists (S N). intros k.
  change (S N + k) with (S (N + k)).
  rewrite processBoldText_pair_eq by done. by rewrite HN.
Qed.

(** Text without a pair of asterisks is left as it is. *)
Lemma processBoldText_plain (text : string) :
  find text "**" 0 = None →
  returns (fun fuel => processBoldText fuel text) text.
Proof.
  intros Hnone. exists 1. intros k. unfold processBoldText.
  cbn [Nat.add while_loop]. unfold boldText_body. by rewrite Hnone.
Qed.

End MarkdownFraming.

Lemma processBoldText_pair_witness :
  returns (fun fuel => LessonLoader.processBoldText fuel "a **b** c")
          "a <strong>b</strong> c".
Proof.
  apply (processBoldText_pair "a " "b" " c" " c");
    [reflexivity|reflexivity|].
  apply processBoldText_plain. vm_compute. reflexivity.
Defined.

(** * Code spans and fenced blocks *)

Section MarkdownCode.
Import StdString LessonLoader.

Lemma while_loop_mono (body : string → nat → res loop_step)
    (fuel extra : nat) (html : string) (pos : nat) (out : string) :
  while_loop body fuel html pos = Ok out →
  while_loop body (fuel + extra) html pos = Ok out.
Proof.
  revert html pos; induction fuel as [|fuel IH]; intros html pos; [done|].
  cbn [while_loop Nat.add].
  destruct (body html pos) as [[h|h p]|e]; cbn [mbind res_bind]; [done| |done].
  apply IH.
Qed.

Lemma while_loop_break (body : string → nat → res loop_step)
    (fuel : nat) (html : string) (pos : nat) :
  body html pos = Ok (Break html) →
  while_loop body (S fuel) html pos = Ok html.
Proof. intros H. cbn [while_loop]. by rewrite H. Qed.

(** ** Inline code *)

Lemma inlineCode_body_cursor (html : string) (pos pos' : nat) :
  find html "`" pos = find html "`" pos' →
  inlineCode_body html pos = inlineCode_body html pos'.
Proof. unfold inlineCode_body. by intros ->. Qed.

Lemma inlineCode_body_frame (before html : string) (pos : nat) :
  inlineCode_body (before +:+ html) (String.length before + pos)
  = r ← inlineCode_body html pos; Ok (frame_step before r).
Proof.
  unfold inlineCode_body. rewrite find_frame.
  destruct (find html "`" pos) as [start|] eqn:E1; [|done].
  cbn [fmap option_fmap option_map].
  apply find_Some in E1 as (Hs1 & Hs2 & _). cbn [String.length] in Hs2.
  rewrite !after_code_close_false by (rewrite ?str_length_app; lia).
  cbn [mbind res_bind]. rewrite <- Nat.add_assoc, find_frame.
  destruct (find html "`" (start + 1)) as [end_|]; [|done].
  cbn [fmap option_fmap option_map].
  replace (String.length before + end_ - (String.length before + start) - 1)
    with (end_ - start - 1) by lia.
  replace (String.length before + end_ - (String.length before + start) + 1)
    with (end_ - start + 1) by lia.
  rewrite substr_frame.
  destruct (substr html (start + 1) (end_ - start - 1)) as [code|]; [|done].
  cbn [mbind res_bind]. rewrite replace_frame.
  destruct (replace html start (end_ - start + 1)
              ("<code>" +:+ code +:+ "</code>")) as [html'|]; [|done].
  cbn [mbind res_bind frame_step]. do 2 f_equal. lia.
Qed.

Lemma inlineCode_skip (before html : string) (fuel : nat) :
  mem "`" before = false →
  while_loop inlineCode_body fuel (before +:+ html) 0
  = out ← while_loop inlineCode_body fuel html 0; Ok (before +:+ out).
Proof.
  intros Hmem. apply while_loop_skip.
  - intros. apply inlineCode_body_frame.
  - intros h. apply inlineCode_body_cursor.
    by rewrite find_frame, find_skip.
Qed.

Lemma inlineCode_body_pair (code after : string) :
  mem "`" code = false →
  inlineCode_body ("`" +:+ code +:+ "`" +:+ after) 0
  = Ok (Continue ("<code>" +:+ code +:+ "</code>" +:+ after)
          (String.length ("<code>" +:+ code +:+ "</code>") + 0)).
Proof.
  intros Hmem. unfold inlineCode_body. rewrite find_here.
  rewrite after_code_close_false by lia. cbn [mbind res_bind].
  change (0 + 1) with (String.length "`" + 0). rewrite find_frame.
  rewrite find_skip, find_here by done. cbn [fmap option_fmap option_map].
  rewrite substr_frame, substr_Ok by lia. cbn [mbind res_bind drop].
  replace (String.length "`" + (String.length code + 0) - 0 - 1)
    with (String.length code) by (cbn [String.length]; lia).
  rewrite str_take_app_length, replace_Ok by lia.
  cbn [take mbind res_bind]. rewrite str_app_nil_l.
  replace (0 + (String.length "`" + (String.length code + 0) - 0 + 1))
    with (String.length "`" + (String.length code + String.length "`"))
    by (cbn [String.length]; lia).
  rewrite str_drop_app_add, <- str_drop_drop, !str_drop_app_length.
  rewrite !str_app_assoc. do 2 f_equal. lia.
Qed.

Lemma inlineCode_pair_eq (fuel : nat) (before code after : string) :
  mem "`" before = false →
  mem "`" code = false →
  while_loop inlineCode_body (S fuel)
    (before +:+ "`" +:+ code +:+ "`" +:+ after) 0
  = out ← while_loop inlineCode_body fuel after 0;
    Ok (before +:+ "<code>" +:+ code +:+ "</code>" +:+ out).
Proof.
  intros Hbefore Hcode.
  rewrite inlineCode_skip by done. cbn [while_loop].
  rewrite inlineCode_body_pair by done. cbn [mbind res_bind].
  rewrite <- (str_app_assoc code), <- (str_app_assoc "<code>").
  rewrite while_loop_frame by (intros; apply inlineCode_body_frame).
  destruct (while_loop inlineCode_body fuel after 0) as [out|]; [|done].
  cbn [mbind res_bind]. by rewrite !str_app_assoc.
Qed.

(** On text without a fence the first loop of [processCodeBlocks] changes
    nothing. *)
Lemma codeBlocks_no_fence (fuel : nat) (text : string) :
  find text backticks3 0 = None →
  while_loop codeBlocks_body (S fuel) text 0 = Ok text.
Proof.
  intros Hnone. apply while_loop_break. unfold codeBlocks_body.
  by rewrite Hnone.
Qed.

Lemma find_0_None_app (needle before s : string) :
  find (before +:+ s) needle 0 = None → find s needle 0 = None.
Proof.
  unfold find. rewrite !decide_True by lia. cbn [drop].
  destruct (find_first needle (before +:+ s)) eqn:E; [done|].
  apply find_first_None_app in E. by rewrite E.
Qed.

(** In text without a fence, a pair of backticks around text without a
    backtick, after text without a backtick, becomes a [<code>] element,
    and what follows is rendered as it would be on its own. *)
Theorem processCodeBlocks_inline (before code after out : string) :
  mem "`" before = false →
  mem "`" code = false →
  find (before +:+ "`" +:+ code +:+ "`" +:+ after) backticks3 0 = None →
  returns (fun fuel => processCodeBlocks fuel after) out →
  returns (fun fuel =>
             processCodeBlocks fuel
               (before +:+ "`" +:+ code +:+ "`" +:+ after))
          (before +:+ "<code>" +:+ code +:+ "</code>" +:+ out).
Proof.
  intros Hbefore Hcode Hnone [N HN].
  assert (find after backticks3 0 = None) as Hafter.
  { rewrite <- !str_app_assoc in Hnone. by apply find_0_None_app in Hnone. }
  destruct N as [|N]; [by specialize (HN 0)|].
  exists (S (S N)). intros k. specialize (HN k). revert HN.
  cbn [Nat.add]. unfold processCodeBlocks.
  rewrite !codeBlocks_no_fence by done. cbn [mbind res_bind].
  rewrite inlineCode_pair_eq by done. intros HN.
  by rewrite HN.
Qed.

End MarkdownCode.

Lemma processCodeBlocks_inline_witness :
  returns (fun fuel => LessonLoader.processCodeBlocks fuel "call `bind` first")
          "call <code>bind</code> first".
Proof.
  apply (processCodeBlocks_inline "call " "bind" " first" " first");
    [reflexivity|reflexivity|vm_compute; reflexivity|].
  exists 1. intros k. vm_compute. reflexivity.
Defined.

(** * Fenced code blocks *)

Section MarkdownFence.
Import StdString LessonLoader.

Ltac frame_nat n :=
  repeat match goal with
  | |- context [n + ?x + ?y] => rewrite <- (Nat.add_assoc n x y)
  | |- context [n + ?x - (n + ?y)] =>
      replace (n + x - (n + y)) with (x - y) by lia
  end.

(** Case analysis on every computation the goal binds. *)
Ltac res_cases :=
  repeat first
    [ rewrite replace_frame
    | progress cbn [mbind res_bind frame_step]
    | match goal with
      | |- context [?x ≫= _] =>
          lazymatch x with
          | Ok _ => fail
          | Err _ => fail
          | _ ≫= _ => fail
          | _ => destruct x as [?|?]
          end
      end ].

Lemma codeBlocks_body_cursor (html : string) (pos pos' : nat) :
  find html backticks3 pos = find html backticks3 pos' →
  codeBlocks_body html pos = codeBlocks_body html pos'.
Proof. unfold codeBlocks_body. by intros ->. Qed.

Lemma codeBlocks_body_frame (before html : string) (pos : nat) :
  codeBlocks_body (before +:+ html) (String.length before + pos)
  = r ← codeBlocks_body html pos; Ok (frame_step before r).
Proof.
  unfold codeBlocks_body. rewrite find_frame.
  destruct (find html backticks3 pos) as [start|]; [|done].
  cbn [fmap option_fmap option_map].
  frame_nat (String.length before). rewrite !find_frame.
  destruct (find html backticks3 (start + 3)) as [end_|]; [|done].
  cbn [fmap option_fmap option_map].
  frame_nat (String.length before).
  destruct (find html (str LF) (start + 3)) as [nl|];
    cbn [fmap option_fmap option_map];
    [destruct (decide (nl < end_));
       [rewrite decide_True by lia|rewrite decide_False by lia]|];
    frame_nat (String.length before); rewrite ?substr_frame;
    res_cases; try done; do 2 f_equal; lia.
Qed.

Lemma codeBlocks_skip (before html : string) (fuel : nat) :
  mem "`" before = false →
  while_loop codeBlocks_body fuel (before +:+ html) 0
  = out ← while_loop codeBlocks_body fuel html 0; Ok (before +:+ out).
Proof.
  intros Hmem. apply while_loop_skip.
  - intros. apply codeBlocks_body_frame.
  - intros h. apply codeBlocks_body_cursor.
    by rewrite find_frame, (find_skip "`" "``").
Qed.

Lemma find_after (c : ascii) (needle before skipped after : string) (pos : nat) :
  pos = String.length before →
  mem c skipped = false →
  find (before +:+ skipped +:+ String c needle +:+ after) (String c needle) pos
  = Some (pos + String.length skipped).
Proof.
  intros -> Hmem.
  rewrite <- (Nat.add_0_r (String.length before)) at 1.
  rewrite find_frame, find_skip, find_here by done.
  cbn [fmap option_fmap option_map]. f_equal. lia.
Qed.

Lemma substr_at (before wanted after : string) (pos n : nat) :
  pos = String.length before →
  n = String.length wanted →
  substr (before +:+ wanted +:+ after) pos n = Ok wanted.
Proof.
  intros -> ->. rewrite substr_Ok by (rewrite str_length_app; lia).
  by rewrite str_drop_app_length, str_take_app_length.
Qed.

Lemma replace_at_0 (replaced after : string) (n : nat) (t : string) :
  n = String.length replaced →
  replace (replaced +:+ after) 0 n t = Ok (t +:+ after).
Proof.
  intros ->. rewrite replace_Ok by lia. cbn [take Nat.add].
  by rewrite str_app_nil_l, str_drop_app_length.
Qed.

Lemma codeBlocks_body_fence (language codeContent after lang code : string) :
  mem "`" language = false →
  mem LF language = false →
  mem "`" codeContent = false →
  trim language blanks = Ok lang →
  trim codeContent whites = Ok code →
  let codeHtml :=
    (if decide (lang = "cpp" ∨ lang = "c++")
     then dq "<div class='code-example'><pre><code class='language-cpp'>"
     else dq "<div class='code-example'><pre><code>")
    +:+ code +:+ "</code></pre></div>" in
  codeBlocks_body
    (backticks3 +:+ language +:+ str LF +:+ codeContent +:+ backticks3 +:+ after) 0
  = Ok (Continue (codeHtml +:+ after) (String.length codeHtml + 0)).
Proof.
  intros Hlang Hnl Hcode Htl Htc codeHtml.
  set (text := backticks3 +:+ language +:+ str LF +:+ codeContent
               +:+ backticks3 +:+ after).
  assert (find text backticks3 0 = Some 0) as F1 by apply find_here.
  assert (find text backticks3 3
          = Some (3 + String.length (language +:+ str LF +:+ codeContent)))
    as F2.
  { unfold text.
    rewrite <- (str_app_assoc (str LF) codeContent), <- (str_app_assoc language).
    apply (find_after "`" "``"); [done|].
    by rewrite !mem_app, Hlang, Hcode. }
  assert (find text (str LF) 3 = Some (3 + String.length language)) as F3.
  { unfold text. by apply (find_after LF ""). }
  assert (∀ n, n = String.length language → substr text 3 n = Ok language)
    as F4.
  { intros n Hn. unfold text. by apply substr_at. }
  assert (∀ pos n, pos = 3 + String.length language + 1 →
                   n = String.length codeContent →
                   substr text pos n = Ok codeContent) as F5.
  { intros pos n Hpos Hn. unfold text.
    rewrite <- (str_app_assoc language (str LF)), <- (str_app_assoc backticks3).
    apply substr_at; [|done].
    rewrite !str_length_app. cbn [String.length backticks3 str]. lia. }
  assert (∀ n t, n = 3 + String.length (language +:+ str LF +:+ codeContent) + 3 →
                 replace text 0 n t = Ok (t +:+ after)) as F6.
  { intros n t Hn. unfold text.
    rewrite <- (str_app_assoc codeContent), <- (str_app_assoc (str LF)),
      <- (str_app_assoc language), <- (str_app_assoc backticks3).
    apply replace_at_0. rewrite Hn, !str_length_app.
    cbn [String.length backticks3 str]. lia. }
  unfold codeBlocks_body. rewrite F1. cbn [Nat.add]. rewrite F2, F3.
  rewrite decide_True
    by (rewrite !str_length_app; cbn [String.length str]; lia).
  rewrite F4 by lia. cbn [mbind res_bind]. rewrite Htl. cbn [mbind res_bind].
  rewrite F5 by (rewrite ?str_length_app; cbn [String.length str]; lia).
  cbn [mbind res_bind]. rewrite Htc. cbn [mbind res_bind].
  rewrite F6 by lia. cbn [mbind res_bind]. unfold codeHtml.
  destruct (decide (lang = "cpp" ∨ lang = "c++"));
    rewrite !str_app_assoc; do 2 f_equal; lia.
Qed.

Lemma while_loop_continue (body : string → nat → res loop_step)
    (fuel : nat) (html : string) (pos : nat) (html' : string) (pos' : nat) :
  body html pos = Ok (Continue html' pos') →
  while_loop body (S fuel) html pos = while_loop body fuel html' pos'.
Proof. intros H. cbn [while_loop]. by rewrite H. Qed.

Lemma mem_take (c : ascii) (n : nat) (s : string) :
  mem c s = false → mem c (take n s) = false.
Proof.
  revert s; induction n as [|n IH]; intros [|d s]; simpl; try done.
  intros [-> H]%orb_false_iff. by rewrite IH.
Qed.

Lemma mem_drop (c : ascii) (n : nat) (s : string) :
  mem c s = false → mem c (drop n s) = false.
Proof.
  revert s; induction n as [|n IH]; intros [|d s]; simpl; try done.
  intros [_ H]%orb_false_iff. by apply IH.
Qed.

(** Trimming only takes characters away. *)
Lemma trim_mem (c : ascii) (s cs t : string) :
  trim s cs = Ok t → mem c s = false → mem c t = false.
Proof.
  unfold trim, erase. rewrite decide_True by lia. cbn [mbind res_bind].
  intros H Hmem. case_decide; [|done]. injection H as <-.
  apply mem_take. destruct (find_first_not_of s cs); [|done].
  rewrite mem_app. cbn [take mem orb]. by apply mem_drop.
Qed.

(** A fenced block after text without a backtick, whose language line and
    body have no backtick: the fence becomes a [code-example] element that
    holds the body with the white space around it removed, marked
    [language-cpp] exactly when the language line, without the blanks
    around it, is [cpp] or [c++]; what follows the block is rendered as it
    would be on its own. *)
Theorem processCodeBlocks_fenced
    (before language codeContent after lang code out : string) :
  mem "`" before = false →
  mem "`" language = false →
  mem LF language = false →
  mem "`" codeContent = false →
  trim language blanks = Ok lang →
  trim codeContent whites = Ok code →
  returns (fun fuel => processCodeBlocks fuel after) out →
  returns (fun fuel =>
             processCodeBlocks fuel
               (before +:+ backticks3 +:+ language +:+ str LF
                +:+ codeContent +:+ backticks3 +:+ after))
          (before
           +:+ (if decide (lang = "cpp" ∨ lang = "c++")
                then dq "<div class='code-example'><pre><code class='language-cpp'>"
                else dq "<div class='code-example'><pre><code>")
           +:+ code +:+ "</code></pre></div>" +:+ out).
Proof.
  intros Hbefore Hlang Hnl Hcode Htl Htc [N HN]. exists (S N). intros k.
  specialize (HN k). cbn [Nat.add]. unfold processCodeBlocks in *.
  pose proof (codeBlocks_body_fence language codeContent after lang code
                Hlang Hnl Hcode Htl Htc) as Hstep.
  cbv zeta in Hstep.
  rewrite codeBlocks_skip by done.
  rewrite (while_loop_continue _ _ _ _ _ _ Hstep).
  rewrite while_loop_frame by (intros; apply codeBlocks_body_frame).
  destruct (while_loop codeBlocks_body (N + k) after 0) as [html|];
    [|done].
  cbn [mbind res_bind] in *. rewrite <- str_app_assoc.
  rewrite inlineCode_skip.
  - apply (while_loop_mono _ _ 1) in HN.
    replace (N + k + 1) with (S (N + k)) in HN by lia. rewrite HN.
    cbn [mbind res_bind]. by rewrite !str_app_assoc.
  - rewrite !mem_app, Hbefore, (trim_mem _ _ _ _ Htc Hcode).
    by destruct (decide (lang = "cpp" ∨ lang = "c++")).
Qed.

End MarkdownFence.

Lemma processCodeBlocks_fenced_witness :
  returns
    (fun fuel =>
       LessonLoader.processCodeBlocks fuel
         ("Run:" +:+ LessonLoader.backticks3 +:+ "cpp" +:+ StdString.str StdString.LF
          +:+ "int main() {}" +:+ StdString.str StdString.LF
          +:+ LessonLoader.backticks3 +:+ " done"))
    ("Run:"
     +:+ StdString.dq "<div class='code-example'><pre><code class='language-cpp'>"
     +:+ "int main() {}" +:+ "</code></pre></div>" +:+ " done").
Proof.
  apply (processCodeBlocks_fenced "Run:" "cpp"
           ("int main() {}" +:+ StdString.str StdString.LF) " done"
           "cpp" "int main() {}" " done");
    try (vm_compute; reflexivity).
  exists 1. intros k. vm_compute. reflexivity.
Defined.

(** * [processTables] on text without tables *)

Section MarkdownPlainLines.
Import StdString LessonLoader.

(** Writing the lines back, each closed by a line feed, gives the text
    again, with a line feed added when the last line had none. *)
Lemma getlines_unlines (s : string) :
  foldr (fun line rest => line +:+ str LF +:+ rest) "" (getlines LF s)
  = if bool_decide (s = "" ∨ back s = Some LF) then s else s +:+ str LF.
Proof.
  induction s as [|c s IH]; [done|]. cbn [getlines].
  destruct (Ascii.eqb c LF) eqn:Ec.
  - apply Ascii.eqb_eq in Ec as ->. cbn [foldr].
    rewrite str_app_nil_l, str_app_str, IH.
    destruct s as [|d s]; [done|].
    destruct (decide (back (String d s) = Some LF)) as [Hb|Hb].
    + rewrite !bool_decide_eq_true_2; [done| |by right].
      right. exact Hb.
    + rewrite !bool_decide_eq_false_2; [by rewrite str_app_cons| |].
      * intros [?|?]; [done|]. by apply Hb.
      * intros [?|?]; done.
  - assert (c ≠ LF) as Hc by (by intros ->; rewrite Ascii.eqb_refl in Ec).
    destruct s as [|d s].
    + cbn [getlines foldr]. rewrite bool_decide_eq_false_2.
      * by rewrite str_app_nil_r.
      * intros [?|[= ?]]; done.
    + destruct (getlines LF (String d s)) as [|line rest] eqn:Eg.
      { exfalso. cbn [getlines] in Eg.
        destruct (Ascii.eqb d LF); [done|].
        by destruct (getlines LF s). }
      cbn [foldr] in *. rewrite str_app_cons, IH.
      destruct (decide (back (String d s) = Some LF)) as [Hb|Hb].
      * rewrite !bool_decide_eq_true_2; [done| |by right]. right. exact Hb.
      * rewrite !bool_decide_eq_false_2; [by rewrite str_app_cons| |].
        -- intros [?|?]; [done|]. by apply Hb.
        -- intros [?|?]; done.
Qed.

Lemma tables_loop_plain (fuel : nat) (lines : list string) (result : string) :
  Forall (fun line => isTableRow line = false) lines →
  tables_loop fuel lines false result
  = Ok (false,
        result +:+ foldr (fun line rest => line +:+ str LF +:+ rest) "" lines).
Proof.
  revert result; induction lines as [|line lines IH]; intros result Hall.
  - by rewrite str_app_nil_r.
  - apply Forall_cons in Hall as [Hline Hall]. cbn [tables_loop foldr].
    rewrite Hline, IH by done. by rewrite !str_app_assoc.
Qed.

(** Text none of whose lines is a table row (begins and ends with [|])
    comes out of [processTables] as it went in, except that a last line
    without a line feed gets one.  No fuel is needed for that. *)
Theorem processTables_plain_text (fuel : nat) (markdown : string) :
  Forall (fun line => isTableRow line = false) (getlines LF markdown) →
  processTables fuel markdown
  = Ok (if bool_decide (markdown = "" ∨ back markdown = Some LF)
        then markdown else markdown +:+ str LF).
Proof.
  intros Hall. unfold processTables. rewrite tables_loop_plain by done.
  cbn [mbind res_bind]. by rewrite str_app_nil_l, getlines_unlines.
Qed.

End MarkdownPlainLines.

Lemma processTables_plain_text_witness :
  LessonLoader.processTables 0 "<h1>Sockets</h1>"
  = Ok ("<h1>Sockets</h1>" +:+ StdString.str StdString.LF).
Proof.
  apply (processTables_plain_text 0 "<h1>Sockets</h1>").
  vm_compute. repeat constructor.
Defined.

(** * [HttpServer::parseHttpRequest] on a well-formed request *)

Section HttpServerRequests.
Import StdString HttpServer.

Lemma is_word_mem_LF (w : string) : is_word w = true → mem LF w = false.
Proof.
  induction w as [|c w IH]; [done|]. cbn [is_word mem].
  intros [Hc Hw]%andb_true_iff. rewrite IH by done.
  destruct (Ascii.eqb LF c) eqn:E; [|done].
  apply Ascii.eqb_eq in E as <-. done.
Qed.

Lemma read_word_word (w rest : string) :
  is_word w = true →
  read_word (w +:+ String " " rest) = (w, String " " rest).
Proof.
  induction w as [|c w IH]; [done|]. cbn [is_word].
  intros [Hc Hw]%andb_true_iff. rewrite str_app_cons. cbn [read_word].
  apply negb_true_iff in Hc. by rewrite Hc, IH.
Qed.

Lemma extract_word_word (w rest : string) :
  is_word w = true → w ≠ "" →
  extract_word (w +:+ String " " rest) = Some (w, String " " rest).
Proof.
  intros Hw Hne. pose proof (read_word_word w rest Hw) as Hread.
  destruct w as [|c w]; [done|]. cbn [is_word] in Hw.
  apply andb_true_iff in Hw as [Hc%negb_true_iff _].
  rewrite str_app_cons in *. unfold extract_word. cbn [skipws].
  by rewrite Hc, Hread.
Qed.

Lemma extract_word_space (s : string) :
  extract_word (String " " s) = extract_word s.
Proof. done. Qed.

Lemma parse_request_line_words (method path version method0 path0 : string) :
  is_word method = true → method ≠ "" →
  is_word path = true → path ≠ "" →
  parse_request_line (method +:+ " " +:+ path +:+ " " +:+ version)
    method0 path0
  = (method, path).
Proof.
  intros Hm Hmne Hp Hpne. unfold parse_request_line.
  rewrite !str_app_cons, !str_app_nil_l, extract_word_word by done.
  by rewrite extract_word_space, extract_word_word.
Qed.

Lemma getlines_block (lines : list string) (rest : string) :
  Forall (fun line => mem LF line = false) lines →
  getlines LF (foldr (fun line rest => line +:+ str LF +:+ rest) rest lines)
  = lines ++ getlines LF rest.
Proof.
  induction 1 as [|line lines Hline _ IH]; [done|]. cbn [foldr].
  by rewrite str_app_str, getlines_line, IH.
Qed.

(** The header loop on a block of header lines closed by a blank line. *)
Lemma parse_headers_block (headerLines rest : list string)
    (headers : gmap string string) :
  Forall (fun line => line ≠ "" ∧ line ≠ str CR) headerLines →
  parse_headers (headerLines ++ str CR :: rest) headers
  = Ok (foldl spec_store headers headerLines, rest).
Proof.
  intros Hall; revert headers.
  induction Hall as [|line lines [Hne Hcr] _ IH]; intros headers.
  - cbn [app parse_headers foldl]. by rewrite decide_True.
  - cbn [app parse_headers foldl]. rewrite decide_False by done.
    rewrite decide_False by (intros [?|?]; done).
    unfold spec_store at 2.
    rewrite find_colon. pose proof (find_first_colon line) as Hsplit.
    destruct (find_first ":" line) as [i|] eqn:Ei.
    + rewrite Hsplit. apply find_first_Some in Ei as (_ & Hlen & _).
      simpl in Hlen. unfold substr, substr_from.
      rewrite !decide_True by lia. cbn [mbind res_bind drop].
      rewrite pop_back_cr, Nat.add_1_r. apply IH.
    + rewrite Hsplit. apply IH.
Qed.

Lemma body_loop_unlines (lines : list string) (body : string) :
  foldl (fun body line => body +:+ (line +:+ str LF)) body lines
  = body +:+ foldr (fun line rest => line +:+ str LF +:+ rest) "" lines.
Proof.
  revert body; induction lines as [|line lines IH]; intros body; cbn [foldl foldr].
  - by rewrite str_app_nil_r.
  - by rewrite IH, !str_app_assoc.
Qed.

Lemma parseHttpRequest_parts (method path version : string)
    (headerLines : list string) (payload method0 path0 : string)
    (headers0 : gmap string string) :
  is_word method = true → method ≠ "" →
  is_word path = true → path ≠ "" →
  mem LF version = false →
  Forall (fun line => mem LF line = false ∧ line ≠ "" ∧ line ≠ str CR)
         headerLines →
  parseHttpRequest
    (method +:+ " " +:+ path +:+ " " +:+ version +:+ str LF
     +:+ foldr (fun line rest => line +:+ str LF +:+ rest)
           (crlf +:+ payload) headerLines)
    method0 path0 headers0
  = Ok (if bool_decide (payload = "" ∨ back payload = Some LF)
        then payload else payload +:+ str LF,
        method, path, foldl spec_store headers0 headerLines).
Proof.
  intros Hm Hmne Hp Hpne Hv Hlines. unfold parseHttpRequest.
  assert (∀ rest,
    method +:+ " " +:+ path +:+ " " +:+ version +:+ str LF +:+ rest
    = (method +:+ " " +:+ path +:+ " " +:+ version) +:+ String LF rest)
    as Hline.
  { intros rest. by rewrite !str_app_assoc. }
  rewrite Hline, getlines_line.
  2:{ rewrite !mem_app, Hv.
      by rewrite (is_word_mem_LF method), (is_word_mem_LF path). }
  rewrite parse_request_line_words by done.
  rewrite getlines_block.
  2:{ eapply Forall_impl; [exact Hlines|]. by intros line [? _]. }
  unfold crlf. rewrite !str_app_cons, str_app_nil_l.
  change (String CR (String LF payload))
    with (str CR +:+ String LF payload).
  rewrite getlines_line by done.
  rewrite parse_headers_block.
  2:{ eapply Forall_impl; [exact Hlines|]. by intros line [_ ?]. }
  cbn [mbind res_bind]. rewrite body_loop_unlines, str_app_nil_l.
  by rewrite getlines_unlines.
Qed.


(** A request in the usual form is taken apart into what it was put
    together from: a request line of method, path and version separated by
    single spaces; header lines, none blank; a line holding only a carriage
    return; the payload.  The method and the path come back as they are,
    the headers are stored line by line, and the body is the payload, with
    a line feed added when its last line had none. *)
Theorem parseHttpRequest_well_formed (method path version : string)
    (headerLines : list string) (payload method0 path0 : string)
    (headers0 : gmap string string) :
  is_word method = true → method ≠ "" →
  is_word path = true → path ≠ "" →
  mem LF version = false →
  Forall (fun line => mem LF line = false ∧ line ≠ "" ∧ line ≠ str CR)
         headerLines →
  parseHttpRequest
    (method +:+ " " +:+ path +:+ " " +:+ version +:+ str LF
     +:+ foldr (fun line rest => line +:+ str LF +:+ rest)
           (crlf +:+ payload) headerLines)
    method0 path0 headers0
  = Ok (if bool_decide (payload = "" ∨ back payload = Some LF)
        then payload else payload +:+ str LF,
        method, path, foldl spec_store headers0 headerLines).
Proof. apply parseHttpRequest_parts. Qed.

End HttpServerRequests.

Lemma parseHttpRequest_well_formed_witness :
  HttpServer.parseHttpRequest
    ("POST" +:+ " " +:+ "/api/users" +:+ " "
     +:+ String.append "HTTP/1.1" (StdString.str StdString.CR)
     +:+ StdString.str StdString.LF
     +:+ foldr (fun line rest => line +:+ StdString.str StdString.LF +:+ rest)
           (StdString.crlf +:+ "name=ada")
           [String.append "Host: example" (StdString.str StdString.CR)])
    "" "" ∅
  = Ok ("name=ada" +:+ StdString.str StdString.LF, "POST", "/api/users",
        foldl HttpServer.spec_store ∅
          [String.append "Host: example" (StdString.str StdString.CR)]).
Proof.
  apply (parseHttpRequest_well_formed "POST" "/api/users"
           (String.append "HTTP/1.1" (StdString.str StdString.CR))
           [String.append "Host: example" (StdString.str StdString.CR)]
           "name=ada" "" "" ∅);
    try (vm_compute; reflexivity); try discriminate.
  repeat constructor; try discriminate.
Defined.

(** * [LessonLoader]: what a loaded lesson shows *)

Section LoadingContent.
Import StdString LessonLoader.

Variable regex_replace : string → regex → string → string.
Variable regex_search : string → regex → option (list string).
Variable regex_matches : string → regex → list (list string).
Variable files : gmap string string.
Variable directories : gmap string (list dir_entry).







End LoadingContent.



(** * [LessonLoader::escapeHtml] *)

Section Escaping.
Import StdString LessonLoader.

Lemma escape_body_cursor (from to html : string) (pos pos' : nat) :
  find html from pos = find html from pos' →
  escape_body from to html pos = escape_body from to html pos'.
Proof. unfold escape_body. by intros ->. Qed.

Lemma escape_body_frame (from to before html : string) (pos : nat) :
  escape_body from to (before +:+ html) (String.length before + pos)
  = r ← escape_body from to html pos; Ok (frame_step before r).
Proof.
  unfold escape_body. rewrite find_frame.
  destruct (find html from pos) as [start|]; [|done].
  cbn [fmap option_fmap option_map]. rewrite replace_frame.
  destruct (replace html start (String.length from) to) as [html'|]; [|done].
  cbn [mbind res_bind frame_step]. do 2 f_equal. lia.
Qed.

Lemma escape_skip (c : ascii) (to before html : string) (fuel : nat) :
  mem c before = false →
  while_loop (escape_body (str c) to) fuel (before +:+ html) 0
  = out ← while_loop (escape_body (str c) to) fuel html 0; Ok (before +:+ out).
Proof.
  intros Hmem. apply while_loop_skip.
  - intros. apply escape_body_frame.
  - intros h. apply escape_body_cursor.
    by rewrite find_frame, (find_skip c "").
Qed.

Lemma escape_body_hit (c : ascii) (to html : string) :
  escape_body (str c) to (String c html) 0
  = Ok (Continue (to +:+ html) (String.length to + 0)).
Proof.
  unfold escape_body.
  rewrite (find_here (str c) html : find (String c html) (str c) 0 = Some 0).
  rewrite (replace_at_0 (str c) html) by done. cbn [mbind res_bind].
  do 2 f_equal. lia.
Qed.

(** One pass of the loop rewrites every [c] to [to] and nothing else, also
    when [to] holds [c] again. *)
Lemma escape_loop (c : ascii) (to text : string) (fuel : nat) :
  String.length text < fuel →
  while_loop (escape_body (str c) to) fuel text 0
  = Ok (map_chars (fun d => if Ascii.eqb d c then to else str d) text).
Proof.
  revert fuel; induction text as [|d text IH]; intros fuel Hfuel.
  - destruct fuel as [|fuel]; [cbn [String.length] in Hfuel; lia|done].
  - cbn [String.length] in Hfuel. cbn [map_chars].
    destruct (Ascii.eqb d c) eqn:E.
    + apply Ascii.eqb_eq in E as ->.
      destruct fuel as [|fuel]; [lia|].
      rewrite (while_loop_continue _ _ _ _ _ _ (escape_body_hit c to text)).
      rewrite while_loop_frame by (intros; apply escape_body_frame).
      by rewrite IH by lia.
    + change (String d text) with (str d +:+ text).
      rewrite escape_skip, IH by (by cbn [mem str]; rewrite Ascii.eqb_sym, E || lia).
      done.
Qed.

Lemma map_chars_app (f : ascii → string) (s t : string) :
  map_chars f (s +:+ t) = map_chars f s +:+ map_chars f t.
Proof.
  induction s as [|c s IH]; [by rewrite !str_app_nil_l|].
  rewrite str_app_cons. cbn [map_chars]. by rewrite IH, str_app_assoc.
Qed.

Lemma map_chars_compose (f g : ascii → string) (s : string) :
  map_chars g (map_chars f s) = map_chars (fun c => map_chars g (f c)) s.
Proof.
  induction s as [|c s IH]; [done|]. cbn [map_chars].
  by rewrite map_chars_app, IH.
Qed.

Lemma map_chars_ext (f g : ascii → string) (s : string) :
  (∀ c, f c = g c) → map_chars f s = map_chars g s.
Proof.
  intros Hfg. induction s as [|c s IH]; [done|]. cbn [map_chars].
  by rewrite Hfg, IH.
Qed.

(** [escapeHtml] rewrites the text character by character: [&], [<], [>]
    and the apostrophe become their entities, every other character but
    the double quote stays, and a double quote becomes [&amp;quot;], not
    [&quot;]: the table is gone through in the order of its keys, so the
    double quote is rewritten before the ampersand, and the pass for the
    ampersand then rewrites the ampersand of [&quot;]. *)
Theorem escapeHtml_by_character (text : string) :
  returns (fun fuel => escapeHtml fuel text) (map_chars escaped text).
Proof.
  assert (std_map_items replacements
          = [(str "034", "&quot;"); ("&", "&amp;"); ("'", "&#39;");
             ("<", "&lt;"); (">", "&gt;")]) as Hitems
    by (vm_compute; reflexivity).
  set (pass := fun (c : ascii) (to : string) (html : string) =>
                 map_chars (fun d => if Ascii.eqb d c then to else str d) html).
  set (out := pass ">"%char "&gt;" (pass "<"%char "&lt;" (pass "'"%char "&#39;"
                (pass "&"%char "&amp;" (pass "034"%char "&quot;" text))))).
  assert (out = map_chars escaped text) as <-.
  { unfold out, pass. rewrite !map_chars_compose. apply map_chars_ext.
    intros c. destruct c as [[] [] [] [] [] [] [] []]; vm_compute; reflexivity. }
  exists (S (String.length
               (pass "<"%char "&lt;" (pass "'"%char "&#39;"
                  (pass "&"%char "&amp;" (pass "034"%char "&quot;" text)))))
          + S (String.length
                 (pass "'"%char "&#39;" (pass "&"%char "&amp;" (pass "034"%char "&quot;" text))))
          + S (String.length (pass "&"%char "&amp;" (pass "034"%char "&quot;" text)))
          + S (String.length (pass "034"%char "&quot;" text))
          + S (String.length text)).
  intros k. unfold escapeHtml. rewrite Hitems. cbn [foldl mbind res_bind].
  change "&" with (str "&") at 1. change "'" with (str "'") at 1.
  change "<" with (str "<") at 1. change ">" with (str ">") at 1.
  rewrite escape_loop by lia. cbn [mbind res_bind].
  rewrite escape_loop by (unfold pass; lia). cbn [mbind res_bind].
  rewrite escape_loop by (unfold pass; lia). cbn [mbind res_bind].
  rewrite escape_loop by (unfold pass; lia). cbn [mbind res_bind].
  rewrite escape_loop by (unfold pass; lia). done.
Qed.

End Escaping.

(** * [HttpServer::urlDecode] *)

Section UrlDecodingFacts.
Import StdString HttpServer.

Variable read_hex : string → Z.

Lemma get_lt (s : string) (i : nat) :
  i < String.length s → ∃ c, String.get i s = Some c.
Proof.
  revert i; induction s as [|d s IH]; intros i Hi; cbn [String.length] in Hi.
  - lia.
  - destruct i as [|i]; [by exists d|]. cbn [String.get]. apply IH. lia.
Qed.

Lemma get_app_l (s t : string) (i : nat) :
  i < String.length s → String.get i (s +:+ t) = String.get i s.
Proof.
  revert i; induction s as [|d s IH]; intros i Hi; cbn [String.length] in Hi.
  - lia.
  - rewrite str_app_cons. destruct i as [|i]; [done|]. cbn [String.get].
    apply IH. lia.
Qed.

Lemma get_app_length (s t : string) (c : ascii) :
  String.get (String.length s) (s +:+ String c t) = Some c.
Proof.
  induction s as [|d s IH]; [done|]. by rewrite str_app_cons.
Qed.

(** What [urlDecode] puts at the place of one character. *)
Lemma urlDecode_step_char (s result : string) (i : nat) (c : ascii) :
  String.get i s = Some c →
  urlDecode_step read_hex s result i
  = Ok (result
        +:+ str (if decide (c = "%"%char ∧ i + 2 < String.length s)
                 then char_of_int (read_hex (take 2 (drop (i + 1) s)))
                 else if decide (c = "+"%char) then " "%char else c)).
Proof.
  intros Hget. unfold urlDecode_step. rewrite Hget.
  destruct (decide (c = "%"%char ∧ i + 2 < String.length s)) as [[_ Hi]|_].
  - by rewrite substr_Ok by lia.
  - by destruct (decide (c = "+"%char)).
Qed.

Lemma urlDecode_prefix (s : string) (n : nat) :
  n ≤ String.length s →
  ∃ result,
    foldl (fun result i => result ← result; urlDecode_step read_hex s result i)
          (Ok "") (seq 0 n)
    = Ok result
    ∧ String.length result = n
    ∧ ∀ i c, i < n → String.get i s = Some c →
        String.get i result
        = Some (if decide (c = "%"%char ∧ i + 2 < String.length s)
                then char_of_int (read_hex (take 2 (drop (i + 1) s)))
                else if decide (c = "+"%char) then " "%char else c).
Proof.
  induction n as [|n IH]; intros Hn.
  - exists "". split; [done|]. split; [done|]. intros i c Hi. lia.
  - destruct IH as (result & Hfold & Hlen & Hchars); [lia|].
    destruct (get_lt s n) as [c Hc]; [lia|].
    eexists. rewrite seq_S, foldl_app, Hfold. cbn [foldl mbind res_bind Nat.add].
    rewrite (urlDecode_step_char _ _ _ _ Hc). split; [done|]. split.
    + rewrite str_length_app, Hlen. cbn [String.length str]. lia.
    + intros i c' Hi Hget. destruct (decide (i = n)) as [->|Hne].
      * assert (c' = c) as -> by congruence.
        rewrite <- Hlen at 1. apply get_app_length.
      * rewrite get_app_l by lia. apply Hchars; [lia|done].
Qed.

(** [urlDecode] never throws and writes one character for every character
    it reads.  A percent sign with at least two characters after it is
    replaced by the character those two spell, a plus sign by a space, and
    every other character stays where it was.  The index is not moved over
    the two characters of an escape, so they are written out again after
    the decoded character, and the result is as long as the argument. *)
Theorem urlDecode_by_position (s : string) :
  ∃ result,
    urlDecode read_hex s = Ok result
    ∧ String.length result = String.length s
    ∧ ∀ i c, String.get i s = Some c →
        String.get i result
        = Some (if decide (c = "%"%char ∧ i + 2 < String.length s)
                then char_of_int (read_hex (take 2 (drop (i + 1) s)))
                else if decide (c = "+"%char) then " "%char else c).
Proof.
  destruct (urlDecode_prefix s (String.length s)) as (result & H & Hlen & Hc);
    [done|].
  exists result. split; [exact H|]. split; [exact Hlen|].
  intros i c Hget. apply Hc; [|done].
  destruct (decide (i < String.length s)) as [|Hge]; [done|].
  exfalso. revert Hget Hge. clear. revert i.
  induction s as [|d s IH]; intros i; [by destruct i|].
  destruct i as [|i]; cbn [String.get String.length]; [lia|].
  intros Hget Hge. apply (IH i Hget). lia.
Qed.

End UrlDecodingFacts.

(** * Table rows *)

Section MarkdownRows.
Import StdString LessonLoader.

Lemma getlines_pieces (delim : ascii) (pieces : list string) (rest : string) :
  Forall (fun piece => mem delim piece = false) pieces →
  getlines delim
    (foldr (fun piece rest => piece +:+ String delim rest) rest pieces)
  = pieces ++ getlines delim rest.
Proof.
  induction 1 as [|piece pieces Hpiece _ IH]; [done|]. cbn [foldr].
  by rewrite getlines_line, IH.
Qed.

Lemma find_absent (c : ascii) (needle s : string) :
  mem c s = false → find s (String c needle) 0 = None.
Proof.
  intros Hmem. rewrite <- (str_app_nil_r s), find_skip by done.
  done.
Qed.

Lemma processCell_plain (fuel : nat) (result cell text : string) :
  mem "*" cell = false →
  trim cell blanks = Ok text →
  processCell fuel result cell = Ok (result +:+ "<td>" +:+ text +:+ "</td>").
Proof.
  intros Hmem Htrim. unfold processCell. rewrite Htrim. cbn [mbind res_bind].
  by rewrite (find_absent "*" "*") by (by apply (trim_mem _ _ _ _ Htrim)).
Qed.

Lemma cells_fold_plain (fuel : nat) (cells texts : list string) (result : string) :
  Forall2 (fun cell text => mem "*" cell = false ∧ trim cell blanks = Ok text)
          cells texts →
  foldl (fun r cell => result ← r; processCell fuel result cell)
        (Ok result) cells
  = Ok (result +:+ tds texts).
Proof.
  intros Hall; revert result.
  induction Hall as [|cell text cells texts [Hmem Htrim] _ IH]; intros result.
  - cbn [foldl tds]. by rewrite str_app_nil_r.
  - cbn [foldl tds mbind res_bind]. rewrite (processCell_plain _ _ _ text) by done.
    rewrite IH. by rewrite !str_app_assoc.
Qed.

(** A row written as a bar followed by cells that each end in a bar,
    where no cell holds a bar or an asterisk, becomes a [<tr>] element
    with one [<td>] for each cell, holding the cell without the blanks
    around it.  No fuel is needed for that. *)
Theorem processTableRow_cells (fuel : nat) (cells texts : list string) :
  Forall (fun cell => mem "|" cell = false) cells →
  Forall2 (fun cell text => mem "*" cell = false ∧ trim cell blanks = Ok text)
          cells texts →
  processTableRow fuel
    (String "|" (foldr (fun cell rest => cell +:+ String "|" rest) "" cells))
  = Ok ("<tr>" +:+ tds texts +:+ "</tr>").
Proof.
  intros Hbars Hcells. unfold processTableRow.
  change (String "|" ?s) with ("" +:+ String "|" s).
  rewrite getlines_line by done. rewrite getlines_pieces by done.
  cbn [getlines]. rewrite app_nil_r, (cells_fold_plain _ _ texts) by done.
  cbn [mbind res_bind]. by rewrite !str_app_assoc.
Qed.

End MarkdownRows.

Lemma processTableRow_cells_witness :
  LessonLoader.processTableRow 0 "| Method | GET |"
  = Ok ("<tr>" +:+ LessonLoader.tds ["Method"; "GET"] +:+ "</tr>").
Proof.
  apply (processTableRow_cells 0 [" Method "; " GET "] ["Method"; "GET"]).
  - repeat constructor.
  - repeat constructor.
Defined.

(** * [HttpServer::initializeCourseContent] *)

Section StartingUp.
Import StdString HttpServer.

Variable regex_replace : string → LessonLoader.regex → string → string.
Variable regex_search : string → LessonLoader.regex → option (list string).
Variable regex_matches : string → LessonLoader.regex → list (list string).
Variable files : gmap string string.
Variable directories : gmap string (list LessonLoader.dir_entry).







(** Start-up without a lessons tree.  When the lessons directory cannot
    be listed and the loader holds no module, [initializeCourseContent]
    needs no fuel, leaves the routes and the loader as they are and makes
    the course table the fallback table, which is the catalog of
    [sortLessonsInModule].  Every page of the course is then decided by
    the catalog: the placeholder text for a lesson of the catalog, the
    [Lesson Not Found] page for another lesson of a module of the catalog,
    the [Module Not Found] page for any other module. *)
Theorem initializeCourseContent_fallback (fuel : nat) (srv : Server) :
  directories !! LessonLoader.lessonsDirectory_ (lessonLoader_ srv) = None →
  LessonLoader.modules_ (lessonLoader_ srv) = ∅ →
  ∃ srv',
    initializeCourseContent regex_replace regex_search regex_matches
      files directories fuel srv
    = Ok srv'
    ∧ routes_ srv' = routes_ srv
    ∧ lessonLoader_ srv' = lessonLoader_ srv
    ∧ courseModules_ srv' = LessonLoader.lessonOrder
    ∧ ∀ module lesson,
        generateCoursePage srv' module lesson
        = match LessonLoader.lessonOrder !! module with
          | None =>
              generateHTML "Module Not Found"
                "<h2>Module Not Found</h2><p>The requested module does not exist.</p>"
          | Some moduleLessons =>
              if decide (lesson ∈ moduleLessons) then
                generateHTML
                  ("C++ Server Development - " +:+ module +:+ " - " +:+ lesson)
                  (LessonLoader.generateLessonNavigation (lessonLoader_ srv)
                     module lesson
                   +:+ dq "<div class='lesson-content'>"
                   +:+ "<h2>" +:+ lesson
                   +:+ "</h2><p>Lesson content is not available.</p>" +:+ "</div>")
              else
                generateHTML "Lesson Not Found"
                  "<h2>Lesson Not Found</h2><p>The requested lesson does not exist.</p>"
          end.
Proof.
  intros Hroot Hempty. eexists. split; [|split; [|split; [|split]]].
  - unfold initializeCourseContent, LessonLoader.loadAllLessons.
    rewrite Hroot. destruct (decide _); reflexivity.
  - done.
  - done.
  - done.
  - intros module lesson. rewrite generateCoursePage_by_table.
    + done.
    + cbn [lessonLoader_]. by rewrite Hempty, lookup_empty.
Qed.

End StartingUp.


Lemma initializeCourseContent_fallback_witness :
  let regex_replace := fun (text : string) (_ : LessonLoader.regex) (_ : string) => text in
  let regex_search := fun (_ : string) (_ : LessonLoader.regex) => @None (list string) in
  let regex_matches := fun (_ : string) (_ : LessonLoader.regex) => @nil (list string) in
  let srv := {| HttpServer.routes_ := ∅;
                HttpServer.courseModules_ := ∅;
                HttpServer.lessonLoader_ :=
                  {| LessonLoader.lessonsDirectory_ := "lessons";
                     LessonLoader.modules_ := ∅;
                     LessonLoader.moduleOrder_ := [] |} |} in
  ∃ srv',
    HttpServer.initializeCourseContent regex_replace regex_search regex_matches
      ∅ ∅ 0 srv
    = Ok srv'
    ∧ HttpServer.generateCoursePage srv' "fundamentals" "monitoring"
      = HttpServer.generateHTML "Lesson Not Found"
          "<h2>Lesson Not Found</h2><p>The requested lesson does not exist.</p>".
Proof.
  intros regex_replace regex_search regex_matches srv.
  destruct (initializeCourseContent_fallback regex_replace regex_search
              regex_matches ∅ ∅ 0 srv)
    as (srv' & Hret & _ & _ & _ & Hpage).
  - vm_compute. reflexivity.
  - reflexivity.
  - exists srv'. split; [exact Hret|]. rewrite Hpage. vm_compute. reflexivity.
Defined.

(** * The routes of [main] *)

Section MainRoutes.
Import StdString HttpServer.

Variable files : gmap string string.
Variable seconds_since_epoch : Z.

Lemma main_routes_table (server : Server) :
  routes_ server = ∅ →
  routes_ (main_routes seconds_since_epoch server)
  = {["GET" :=
        <["/api/users/3" := handleUserById]>
          (<["/api/users/2" := handleUserById]>
             (<["/api/users/1" := handleUserById]>
                (<["/api/users" := handleUsers]>
                   (<["/health" := handleHealth seconds_since_epoch]>
                      {["/" := handleRoot]}))))]}.
Proof.
  intros Hempty. unfold main_routes, addRoute. cbn [routes_]. rewrite Hempty.
  rewrite lookup_empty. cbn [default from_option id].
  repeat (rewrite lookup_insert_eq; cbn [default from_option id];
          rewrite insert_insert_eq).
  done.
Qed.

(** The server [main] sets up, on a path outside the course and the
    asset prefixes.  Only GET has routes, so every other method is
    answered 405, whatever the path.  A GET is answered 200 on the six
    registered paths and 404 on every other path.  The three registered
    user paths share one handler, which does not see the path: the user
    with id 1 is the answer for all three. *)
Theorem main_routes_replies (server : Server) (method path body : string)
    (headers : gmap string string) :
  routes_ server = ∅ →
  ¬ bypasses_table path →
  dispatch files (main_routes seconds_since_epoch server)
    method path body headers
  = Ok (if decide (method = "GET") then
          if decide (path = "/") then
            {| statusCode := 200; contentType := "text/html";
               responseBody :=
                 generateHTML "C++ Server Development Course"
                   (handleRoot body headers) |}
          else if decide (path = "/health") then
            {| statusCode := 200; contentType := "application/json";
               responseBody := handleHealth seconds_since_epoch body headers |}
          else if decide (path = "/api/users") then
            {| statusCode := 200; contentType := "application/json";
               responseBody := handleUsers body headers |}
          else if decide (path ∈ ["/api/users/1"; "/api/users/2"; "/api/users/3"])
          then
            {| statusCode := 200; contentType := "application/json";
               responseBody := handleUserById body headers |}
          else
            {| statusCode := 404; contentType := "text/plain";
               responseBody := "Not Found" |}
        else
          {| statusCode := 405; contentType := "text/plain";
             responseBody := "Method Not Allowed" |}).
Proof.
  intros Hempty Hno. unfold bypasses_table in Hno. unfold dispatch.
  rewrite decide_False by tauto.
  rewrite (decide_False
             (P := find path "/css/" 0 = Some 0 ∨ find path "/js/" 0 = Some 0))
    by tauto.
  rewrite main_routes_table by done. unfold RouteHandler in *.
  destruct (decide (method = "GET")) as [->|Hm].
  2:{ rewrite lookup_singleton_ne by done. done. }
  rewrite lookup_singleton_eq.
  destruct (decide (path = "/")) as [->|H1].
  { rewrite !lookup_insert_ne by done. by rewrite lookup_singleton_eq. }
  destruct (decide (path = "/health")) as [->|H2].
  { rewrite !lookup_insert_ne by done. by rewrite lookup_insert_eq. }
  destruct (decide (path = "/api/users")) as [->|H3].
  { rewrite !lookup_insert_ne by done. by rewrite lookup_insert_eq. }
  destruct (decide (path ∈ ["/api/users/1"; "/api/users/2"; "/api/users/3"]))
    as [Hin|Hout].
  - apply elem_of_cons in Hin as [->|Hin].
    { rewrite !lookup_insert_ne by done. by rewrite lookup_insert_eq. }
    apply elem_of_cons in Hin as [->|Hin].
    { rewrite !lookup_insert_ne by done. by rewrite lookup_insert_eq. }
    apply list_elem_of_singleton in Hin as ->.
    by rewrite lookup_insert_eq.
  - rewrite !lookup_insert_ne, lookup_singleton_ne; [done|done|..];
      intros <-; apply Hout; set_solver.
Qed.

End MainRoutes.

Lemma main_routes_replies_witness :
  HttpServer.dispatch ∅
    (HttpServer.main_routes 0
       {| HttpServer.routes_ := ∅; HttpServer.courseModules_ := ∅;
          HttpServer.lessonLoader_ :=
            {| LessonLoader.lessonsDirectory_ := "lessons";
               LessonLoader.modules_ := ∅;
               LessonLoader.moduleOrder_ := [] |} |})
    "GET" "/api/users/2" "" ∅
  = Ok {| HttpServer.statusCode := 200;
          HttpServer.contentType := "application/json";
          HttpServer.responseBody := HttpServer.handleUserById "" ∅ |}.
Proof.
  rewrite (main_routes_replies ∅ 0 _ "GET" "/api/users/2" "" ∅).
  - reflexivity.
  - reflexivity.
  - unfold HttpServer.bypasses_table. vm_compute.
    intros [H|[H|H]]; discriminate H.
Defined.

(** * [HttpServer::handleClient] on a well-formed request *)

Section HttpServerEndToEnd.
Import StdString HttpServer.

Variable files : gmap string string.

Lemma take_all (n : nat) (s : string) :
  String.length s ≤ n → take n s = s.
Proof.
  revert s; induction n as [|n IH]; intros [|c s]; cbn [String.length take];
    try done; [lia|].
  intros Hn. by rewrite IH by lia.
Qed.

Lemma c_str_no_nul (s : string) : mem NUL s = false → c_str s = s.
Proof.
  induction s as [|c s IH]; [done|]. cbn [mem c_str].
  intros [Hc Hs]%orb_false_iff. rewrite Ascii.eqb_sym, Hc. by rewrite IH.
Qed.

(** From the bytes to the reply.  For a request in the usual form that
    fits the buffer and holds no NUL, [handleClient] sends the response
    framed from the reply the routing gives for the method, the path, the
    body and the headers the request was put together from. *)
Theorem handleClient_well_formed (srv : Server) (method path version : string)
    (headerLines : list string) (payload : string) :
  is_word method = true → method ≠ "" →
  is_word path = true → path ≠ "" →
  mem LF version = false →
  Forall (fun line => mem LF line = false ∧ line ≠ "" ∧ line ≠ str CR)
         headerLines →
  let request :=
    method +:+ " " +:+ path +:+ " " +:+ version +:+ str LF
    +:+ foldr (fun line rest => line +:+ str LF +:+ rest)
          (crlf +:+ payload) headerLines in
  String.length request ≤ 4095 →
  mem NUL request = false →
  handleClient files srv request
  = reply ← dispatch files srv method path
              (if bool_decide (payload = "" ∨ back payload = Some LF)
               then payload else payload +:+ str LF)
              (foldl spec_store ∅ headerLines);
    Ok (Some (createHttpResponse (statusCode reply) (contentType reply)
                (responseBody reply))).
Proof.
  intros Hm Hmne Hp Hpne Hv Hlines request Hlen Hnul. unfold handleClient.
  rewrite take_all by done. rewrite c_str_no_nul by done.
  rewrite decide_True.
  - unfold request. rewrite parseHttpRequest_parts by done. done.
  - unfold request. rewrite str_length_app. destruct method; [done|].
    cbn [String.length]. lia.
Qed.

End HttpServerEndToEnd.

(** A request for the second user, sent to the server [main] sets up. *)
Lemma handleClient_well_formed_witness :
  HttpServer.handleClient ∅
    (HttpServer.main_routes 0
       {| HttpServer.routes_ := ∅; HttpServer.courseModules_ := ∅;
          HttpServer.lessonLoader_ :=
            {| LessonLoader.lessonsDirectory_ := "lessons";
               LessonLoader.modules_ := ∅;
               LessonLoader.moduleOrder_ := [] |} |})
    ("GET" +:+ " " +:+ "/api/users/2" +:+ " "
     +:+ String.append "HTTP/1.1" (StdString.str StdString.CR)
     +:+ StdString.str StdString.LF +:+ StdString.crlf)
  = Ok (Some (HttpServer.createHttpResponse 200 "application/json"
                (HttpServer.handleUserById "" ∅))).
Proof.
  rewrite (handleClient_well_formed ∅ _ "GET" "/api/users/2"
             (String.append "HTTP/1.1" (StdString.str StdString.CR)) [] "");
    try (vm_compute; reflexivity); try discriminate.
  - constructor.
  - vm_compute. lia.
Defined.

(** * The renderer and the regex library *)

Section MarkdownRegex.
Import StdString LessonLoader.

Variable regex_replace : string → regex → string → option string.








End MarkdownRegex.


